(** * Verification of [abm_toolbox/logit_toolbox.py]

    A shallow embedding of the multinomial-logit utilities of the CityScope
    backend: the long-form data builder, the upsampler, the specification
    builder, the estimator wrapper, the cross-validator and the predictor.

    Conventions of the embedding.
    - A Python call that may raise is a function into [result]; the
      exception classes the module can meet are the constructors of [exn].
    - A Python [dict] (insertion ordered, unique keys) is an association
      list updated in place by [dict_set].
    - A pandas frame is the ordered dictionary of its columns.
    - [numpy.random] is an explicit generator state threaded through the
      calls that draw from it.
    - The module is embedded twice.  The first embedding idealises the
      numbers: a float is a real number and an integer is unbounded; the
      statements on control flow (which look-up fails, which exception is
      raised, which keys and how many rows come back) are made on it.  The
      second, [Machine], computes as the interpreter does, in float64 and
      int64; the statements on the numbers computed (the probabilities,
      the utilities, the new case identifiers) are made on it. *)

From Stdlib Require Import String Ascii ZArith List Bool Arith Lia Permutation.
From Stdlib Require Import Sorted FinFun Reals Lra.
From Stdlib Require Floats.
Import ListNotations.
Open Scope list_scope.

Set Implicit Arguments.

(** ** Exceptions and the error monad *)

Inductive exn : Type :=
| KeyError (key : string)
| IntKeyError (key : Z)
| ValueError (what : string)
| IndexError
| TypeError (what : string)
| ZeroDivisionError
| UnboundLocalError (name : string)
| LibraryError (code : Z)
| OverflowError (what : string).

Inductive result (A : Type) : Type :=
| Ok (a : A)
| Raise (e : exn).

Arguments Ok {A} a.
Arguments Raise {A} e.

Definition bind {A B : Type} (c : result A) (k : A -> result B) : result B :=
  match c with
  | Ok a => k a
  | Raise e => Raise e
  end.

Notation "x <- c ;; k" := (bind c (fun x => k))
  (at level 61, c at next level, right associativity).
Notation "' p <- c ;; k" := (bind c (fun x => let p := x in k))
  (at level 61, p pattern, c at next level, right associativity).

Definition is_ok {A : Type} (c : result A) : bool :=
  match c with Ok _ => true | Raise _ => false end.

(** [for x in l: acc = f(acc, x)] where the body may raise. *)
Fixpoint foldM {A B : Type} (f : B -> A -> result B) (l : list A) (b : B)
  : result B :=
  match l with
  | [] => Ok b
  | x :: t => b' <- f b x ;; foldM f t b'
  end.

(** [[e for i in range(n)]] where evaluating [e] may raise. *)
Fixpoint replicateM {A : Type} (n : nat) (c : result A) : result (list A) :=
  match n with
  | O => Ok []
  | S m => a <- c ;; t <- replicateM m c ;; Ok (a :: t)
  end.

(** ** Python dictionaries with string keys *)

Definition dict (V : Type) : Type := list (string * V).

Fixpoint dict_get {V : Type} (k : string) (d : dict V) : option V :=
  match d with
  | [] => None
  | (k', v) :: t => if String.eqb k' k then Some v else dict_get k t
  end.

(** [d[k] = v]: overwrite in place, or append a new key at the end. *)
Fixpoint dict_set {V : Type} (k : string) (v : V) (d : dict V) : dict V :=
  match d with
  | [] => [(k, v)]
  | (k', v') :: t =>
      if String.eqb k' k then (k', v) :: t else (k', v') :: dict_set k v t
  end.

(** [d[k]] *)
Definition dict_getitem {V : Type} (k : string) (d : dict V) : result V :=
  match dict_get k d with
  | Some v => Ok v
  | None => Raise (KeyError k)
  end.

Definition dict_keys {V : Type} (d : dict V) : list string := map fst d.

(** [{key: v0 for key in keys}] *)
Definition dict_fromkeys {V : Type} (keys : list string) (v0 : V) : dict V :=
  fold_left (fun d k => dict_set k v0 d) keys [].

(** [d[k] += l] on a dictionary of lists. *)
Definition dict_extend {V : Type} (k : string) (l : list V)
  (d : dict (list V)) : result (dict (list V)) :=
  old <- dict_getitem k d ;; Ok (dict_set k (old ++ l) d).

(** ** Cells of a frame *)

(** A cell of the survey table: pandas carries integers and strings here;
    the builder only copies cells and compares the ['mode'] cell with the
    mode names. *)
Inductive value : Type :=
| VInt (n : Z)
| VStr (s : string).

Definition value_eqb (a b : value) : bool :=
  match a, b with
  | VInt x, VInt y => Z.eqb x y
  | VStr x, VStr y => String.eqb x y
  | _, _ => false
  end.

(** A frame is the ordered dictionary of its columns; [from_dict] refuses
    columns of unequal length as [pd.DataFrame.from_dict] does. *)
Definition frame : Type := dict (list value).

Definition nrows (df : frame) : nat :=
  match df with
  | [] => 0
  | (_, c) :: _ => length c
  end.

Definition same_length (df : frame) : bool :=
  forallb (fun kc => Nat.eqb (length (snd kc)) (nrows df)) df.

Definition from_dict (obj : dict (list value)) : result frame :=
  if same_length obj then Ok obj
  else Raise (ValueError "All arrays must be of the same length").

(** The cell of column [k] at row [i]. *)
Definition cell (df : frame) (k : string) (i : nat) : option value :=
  match dict_get k df with
  | Some c => nth_error c i
  | None => None
  end.

(** ** [long_form_data] *)

(** A row of [mode_table.iterrows()]: the index label and the Series. *)
Definition series : Type := dict value.
Definition mode_table_t : Type := list (value * series).

(** [row[k]] *)
Definition series_getitem (row : series) (k : string) : result value :=
  dict_getitem k row.

(** [row.get(k, default)] *)
Definition series_get (row : series) (k : string) (default : value) : value :=
  match dict_get k row with
  | Some v => v
  | None => default
  end.

(** [l.index(x)]: the first position of [x], [ValueError] when absent. *)
Fixpoint list_index (x : value) (l : list value) : result nat :=
  match l with
  | [] => Raise (ValueError "x not in list")
  | y :: t => if value_eqb y x then Ok 0
              else i <- list_index x t ;; Ok (S i)
  end.

(** [l[i] = v] for [i] in range. *)
Fixpoint list_set {A : Type} (i : nat) (v : A) (l : list A) : list A :=
  match l, i with
  | [], _ => []
  | _ :: t, O => v :: t
  | x :: t, S j => x :: list_set j v t
  end.

Definition basic_columns : list string := ["group"; "alt"; "choice"]%string.

(** The cells one survey row contributes to an alternative-specific
    column: [[row.get(row_attr, 0) for row_attr in alt_attrs[alt_attr]]]. *)
Definition alt_cells (row : series) (srcs : list string) : list value :=
  map (fun row_attr => series_get row row_attr (VInt 0)) srcs.

(** The body of the loop over [mode_table.iterrows()]. *)
Definition long_form_row (alt_attrs : dict (list string))
  (generic_attrs : list string) (modes : list value) (y_true : bool)
  (obj : dict (list value)) (it : value * series)
  : result (dict (list value)) :=
  let '(rid, row) := it in
  let nalt := length modes in
  let choice_tmp := repeat (VInt 0) nalt in
  obj <- dict_extend "group" (repeat rid nalt) obj ;;
  obj <- dict_extend "alt" modes obj ;;
  mode_choice <-
    (if y_true
     then m <- series_getitem row "mode" ;;
          i <- list_index m modes ;;
          Ok (list_set i (VInt 1) choice_tmp)
     else Ok choice_tmp) ;;
  obj <- dict_extend "choice" mode_choice obj ;;
  obj <- foldM (fun o (a : string * list string) =>
                  dict_extend (fst a) (alt_cells row (snd a)) o)
               alt_attrs obj ;;
  foldM (fun o g =>
           cells <- replicateM nalt (series_getitem row g) ;;
           dict_extend g cells o)
        generic_attrs obj.

Definition long_form_data (mode_table : mode_table_t)
  (alt_attrs : dict (list string)) (generic_attrs : list string)
  (modes : list value) (y_true : bool) : result frame :=
  let keys := basic_columns ++ dict_keys alt_attrs ++ generic_attrs in
  let long_data_obj := dict_fromkeys keys ([] : list value) in
  obj <- foldM (long_form_row alt_attrs generic_attrs modes y_true)
               mode_table long_data_obj ;;
  from_dict obj.

(** ** The long-form table in closed form

    What one survey row appends to the column [k] of the long-form table,
    and the table obtained by appending to every column at once. *)

Definition only_at (k : string) (l : list value) (k' : string) : list value :=
  if String.eqb k k' then l else [].

(** The position of the row's ['mode'] in [modes] (0 when there is
    none). *)
Definition mode_index (modes : list value) (row : series) : nat :=
  match (m <- series_getitem row "mode" ;; list_index m modes) with
  | Ok i => i
  | Raise _ => O
  end.

(** The one-hot indicator of position [i] among [n]. *)
Definition one_hot (n i : nat) : list value :=
  list_set i (VInt 1) (repeat (VInt 0) n).

Definition row_cells (alt_attrs : dict (list string))
  (generic_attrs : list string) (modes : list value) (y_true : bool)
  (it : value * series) (k : string) : list value :=
  let nalt := length modes in
  only_at "group" (repeat (fst it) nalt) k
  ++ only_at "alt" modes k
  ++ only_at "choice"
       (if y_true then one_hot nalt (mode_index modes (snd it))
        else repeat (VInt 0) nalt) k
  ++ flat_map (fun a : string * list string =>
                 only_at (fst a) (alt_cells (snd it) (snd a)) k) alt_attrs
  ++ flat_map (fun g =>
                 only_at g (repeat (series_get (snd it) g (VInt 0)) nalt) k)
              generic_attrs.

Definition extend_all (f : string -> list value) (obj : dict (list value))
  : dict (list value) :=
  map (fun kv => (fst kv, snd kv ++ f (fst kv))) obj.

(** A survey row [long_form_data] can process: its ['mode'] is one of the
    modes (when the choice is asked for) and it has every generic
    attribute (when there is an alternative at all). *)
Definition row_ok (generic_attrs : list string) (modes : list value)
  (y_true : bool) (it : value * series) : Prop :=
  (y_true = true ->
   exists m i, dict_get "mode" (snd it) = Some m /\
               list_index m modes = Ok i) /\
  (modes <> [] ->
   forall g, In g generic_attrs -> exists v, dict_get g (snd it) = Some v).

(** ** Long-form frames seen row by row

    The upsampler and the cross-validator move whole rows and read only the
    ['group'] and ['choice'] columns; the remaining columns of a row are its
    [payload]. *)

Record lrow (P : Type) : Type := mk_lrow
  { group : Z; choice : Z; payload : P }.

Definition lframe (P : Type) : Type := list (lrow P).

Definition group_col {P : Type} (df : lframe P) : list Z := map (@group P) df.
Definition choice_col {P : Type} (df : lframe P) : list Z := map (@choice P) df.

(** [new_casedata['group'] = g] *)
Definition set_group {P : Type} (g : Z) (df : lframe P) : lframe P :=
  map (fun r => mk_lrow g (choice r) (payload r)) df.

(** The sorted distinct keys that [groupby] iterates over. *)
Fixpoint insert_key (k : Z) (l : list Z) : list Z :=
  match l with
  | [] => [k]
  | x :: t => if Z.ltb k x then k :: l
              else if Z.eqb k x then l
              else x :: insert_key k t
  end.

Definition sorted_keys (l : list Z) : list Z :=
  fold_right insert_key [] l.

(** [[data for caseID, data in df.groupby('group')]] *)
Definition groupby_group {P : Type} (df : lframe P) : list (lframe P) :=
  map (fun k => filter (fun r => Z.eqb (group r) k) df)
      (sorted_keys (group_col df)).

(** [np.array(l).max()] *)
Definition array_max (l : list Z) : result Z :=
  match l with
  | [] => Raise (ValueError "zero-size array to reduction operation maximum")
  | x :: t => Ok (fold_left Z.max t x)
  end.

(** [l[i]] with Python's negative indices. *)
Definition py_nth {A : Type} (l : list A) (i : Z) : result A :=
  let n := Z.of_nat (length l) in
  let j := if Z.ltb i 0 then (i + n)%Z else i in
  if Z.ltb j 0 then Raise IndexError
  else match nth_error l (Z.to_nat j) with
       | Some a => Ok a
       | None => Raise IndexError
       end.

(** [[x for x in l if p(x)]] where the test may raise. *)
Fixpoint filterM {A : Type} (p : A -> result bool) (l : list A)
  : result (list A) :=
  match l with
  | [] => Ok []
  | x :: t => b <- p x ;; r <- filterM p t ;;
              Ok (if b then x :: r else r)
  end.

(** *** Decimal literals read by [int] and [float] *)

Definition digit_of (c : ascii) : option Z :=
  let n := nat_of_ascii c in
  if (48 <=? n)%nat && (n <=? 57)%nat then Some (Z.of_nat (n - 48)) else None.

Fixpoint digits_acc (s : string) (acc : Z) : option Z :=
  match s with
  | EmptyString => Some acc
  | String c t =>
      match digit_of c with
      | Some d => digits_acc t (10 * acc + d)%Z
      | None => None
      end
  end.

Definition digits (s : string) : option Z :=
  match s with
  | EmptyString => None
  | _ => digits_acc s 0%Z
  end.

(** [int(s)] on a signed run of decimal digits. *)
Definition py_int (s : string) : result Z :=
  let bad := Raise (ValueError "invalid literal for int()") in
  match s with
  | String "-"%char t =>
      match digits t with Some n => Ok (- n)%Z | None => bad end
  | String "+"%char t =>
      match digits t with Some n => Ok n | None => bad end
  | _ => match digits s with Some n => Ok n | None => bad end
  end.

(** [float(s)] on a signed decimal literal [ddd], [ddd.ddd], [.ddd] or
    [ddd.]: the exact fraction [(numerator, denominator)]. *)
Fixpoint span_dot (s : string) : string * option string :=
  match s with
  | EmptyString => (EmptyString, None)
  | String "."%char t => (EmptyString, Some t)
  | String c t => let '(a, b) := span_dot t in (String c a, b)
  end.

Definition unsigned_float (s : string) : option (Z * Z) :=
  match span_dot s with
  | (a, None) =>
      match digits a with Some n => Some (n, 1%Z) | None => None end
  | (EmptyString, Some EmptyString) => None
  | (a, Some b) =>
      match digits_acc a 0%Z, digits_acc b 0%Z with
      | Some n, Some m =>
          let d := (10 ^ Z.of_nat (String.length b))%Z in
          Some ((n * d + m)%Z, d)
      | _, _ => None
      end
  end.

Definition py_float (s : string) : result (Z * Z) :=
  let bad := Raise (ValueError "could not convert string to float") in
  match s with
  | String "-"%char t =>
      match unsigned_float t with
      | Some (n, d) => Ok ((- n)%Z, d)
      | None => bad
      end
  | String "+"%char t =>
      match unsigned_float t with Some f => Ok f | None => bad end
  | _ => match unsigned_float s with Some f => Ok f | None => bad end
  end.

(** ** [numpy.random]

    The global generator is a state [G]; seeding replaces it, drawing
    advances it. *)
Record np_random (G : Type) : Type := mk_np_random
  { rand_seed : Z -> G;
    rand_choice : G -> nat -> nat -> list nat * G;
    rand_shuffle : G -> list Z -> list Z * G;
    (* [np.random.choice(keys, size=1, p=row)[0]] *)
    rand_choice_p : G -> list Z -> list R -> Z * G }.

(** [if seed is not None: np.random.seed(seed)] *)
Definition seed_if_given {G : Type} (rnd : np_random G) (seed : option Z)
  (g : G) : G :=
  match seed with
  | Some s => rand_seed rnd s
  | None => g
  end.

(** [np.random.choice(range(n), size=size)] *)
Definition np_random_choice {G : Type} (rnd : np_random G) (g : G)
  (n : nat) (size : Z) : result (list nat * G) :=
  if Z.ltb size 0
  then Raise (ValueError "negative dimensions are not allowed")
  else if Nat.eqb n 0 && negb (Z.eqb size 0)
  then Raise (ValueError "a cannot be empty unless no samples are taken")
  else Ok (rand_choice rnd g n (Z.to_nat size)).

(** What the generator promises: [size] indices below [n]; a shuffle is a
    rearrangement. *)
Definition choice_sound {G : Type} (rnd : np_random G) : Prop :=
  forall g n k, (n <> 0 \/ k = 0) ->
    length (fst (rand_choice rnd g n k)) = k /\
    Forall (fun i => i < n) (fst (rand_choice rnd g n k)).

Definition shuffle_sound {G : Type} (rnd : np_random G) : Prop :=
  forall g l, Permutation l (fst (rand_shuffle rnd g l)).

(** [[f(x) for x in l]] where [f] may raise. *)
Fixpoint mapM {A B : Type} (f : A -> result B) (l : list A)
  : result (list B) :=
  match l with
  | [] => Ok []
  | x :: t => y <- f x ;; r <- mapM f t ;; Ok (y :: r)
  end.

(** [l[i]] for an index produced by numpy. *)
Definition list_getitem {A : Type} (l : list A) (i : nat) : result A :=
  match nth_error l i with
  | Some a => Ok a
  | None => Raise IndexError
  end.

(** ** [long_form_data_upsample] *)

(** The variables the loop over [upsample_new] carries from one
    alternative to the next: the copies drawn so far, [num_new] (unbound
    until a spec starting with ['+'] or ['*'] is met) and the generator. *)
Record up_state (P G : Type) : Type := mk_up_state
  { new_casedata_list : list (lframe P);
    num_new : option Z;
    up_gen : G }.

(** [list(data['choice'])[alt_idx] == 1] *)
Definition chooses {P : Type} (alt_idx : Z) (data : lframe P) : result bool :=
  c <- py_nth (choice_col data) alt_idx ;; Ok (Z.eqb c 1).

(** The number of cases to add for one alternative, given how many cases
    choose it and the previous value of [num_new]. *)
Definition read_num_new (spec : string) (count : nat) (prev : option Z)
  : result (option Z) :=
  match spec with
  | String "+"%char t => n <- py_int t ;; Ok (Some n)
  | String "*"%char t =>
      f <- py_float t ;;
      Ok (Some (Z.quot (Z.of_nat count * (fst f - snd f)) (snd f)))
  | _ => Ok prev
  end.

(** The body of [for alt_idx in upsample_new]. *)
Definition upsample_alt {P G : Type} (rnd : np_random G)
  (casedata_list : list (lframe P)) (st : up_state P G) (kv : Z * string)
  : result (up_state P G) :=
  let '(alt_idx, spec) := kv in
  this_alt_casedata_list <- filterM (chooses alt_idx) casedata_list ;;
  let num_this_alt_casedata := length this_alt_casedata_list in
  num <- read_num_new spec num_this_alt_casedata (num_new st) ;;
  n <- match num with
       | Some n => Ok n
       | None => Raise (UnboundLocalError "num_new")
       end ;;
  drawn <- np_random_choice rnd (up_gen st) num_this_alt_casedata n ;;
  copies <- mapM (list_getitem this_alt_casedata_list) (fst drawn) ;;
  Ok (mk_up_state (new_casedata_list st ++ copies) (Some n) (snd drawn)).

(** [for idx, new_casedata in enumerate(l): new_casedata['group'] = maxID + idx + 1] *)
Fixpoint renumber {P : Type} (maxID : Z) (idx : nat) (l : list (lframe P))
  : list (lframe P) :=
  match l with
  | [] => []
  | d :: t => set_group (maxID + Z.of_nat idx + 1)%Z d
              :: renumber maxID (S idx) t
  end.

Definition long_form_data_upsample {P G : Type} (rnd : np_random G)
  (long_data_df_in : lframe P) (upsample_new : list (Z * string))
  (seed : option Z) (g : G) : result (lframe P * G) :=
  let casedata_list := groupby_group long_data_df_in in
  let caseIDs := sorted_keys (group_col long_data_df_in) in
  let g := seed_if_given rnd seed g in
  st <- foldM (upsample_alt rnd casedata_list) upsample_new
              (mk_up_state [] None g) ;;
  maxID <- array_max caseIDs ;;
  Ok (long_data_df_in ++ concat (renumber maxID 0 (new_casedata_list st)),
      up_gen st).

(** ** [logit_spec] *)

(** [alts] is a list of names or a dictionary from index to name. *)
Inductive alts_arg : Type :=
| AltList (names : list string)
| AltDict (d : list (Z * string)).

Definition alts_len (alts : alts_arg) : nat :=
  match alts with
  | AltList l => length l
  | AltDict d => length d
  end.

(** [if isinstance(alts, list): alts = {i: alts[i] for i in range(nalt)}] *)
Definition alts_dict (alts : alts_arg) : list (Z * string) :=
  match alts with
  | AltList l => combine (map Z.of_nat (seq 0 (length l))) l
  | AltDict d => d
  end.

Fixpoint zdict_get {V : Type} (k : Z) (d : list (Z * V)) : option V :=
  match d with
  | [] => None
  | (k', v) :: t => if Z.eqb k' k then Some v else zdict_get k t
  end.

(** [alts[i]] *)
Definition alts_getitem (d : list (Z * string)) (i : Z) : result string :=
  match zdict_get i d with
  | Some v => Ok v
  | None => Raise (IntKeyError i)
  end.

(** [[f(alts[i]) for i in range(nalt) if i != ref_alt_idx]] *)
Definition non_ref (d : list (Z * string)) (nalt : nat) (ref_alt_idx : Z)
  (f : string -> string) : result (list string) :=
  mapM (fun i => a <- alts_getitem d i ;; Ok (f a))
       (filter (fun i => negb (Z.eqb i ref_alt_idx))
               (map Z.of_nat (seq 0 nalt))).

(** An entry of a pylogit specification: one alternative with its own
    coefficient, or a list of alternatives sharing one coefficient. *)
Inductive spec_item : Type :=
| Own (alt : string)
| Shared (alts : list string).

Definition specification_t : Type := dict (list spec_item).
Definition names_t : Type := dict (list string).

Definition spec_alt_var (alts : list (Z * string))
  (sn : specification_t * names_t) (var : string)
  : result (specification_t * names_t) :=
  Ok (dict_set var [Shared (map snd alts)] (fst sn),
      dict_set var [var] (snd sn)).

Definition spec_generic_var (alts : list (Z * string)) (nalt : nat)
  (ref_alt_idx : Z) (sn : specification_t * names_t) (var : string)
  : result (specification_t * names_t) :=
  sp <- non_ref alts nalt ref_alt_idx (fun a => a) ;;
  nm <- non_ref alts nalt ref_alt_idx
          (fun a => (var ++ " for " ++ a)%string) ;;
  Ok (dict_set var (map Own sp) (fst sn), dict_set var nm (snd sn)).

Definition spec_constant (alts : list (Z * string)) (nalt : nat)
  (ref_alt_idx : Z) (sn : specification_t * names_t)
  : result (specification_t * names_t) :=
  sp <- non_ref alts nalt ref_alt_idx (fun a => a) ;;
  nm <- non_ref alts nalt ref_alt_idx (fun a => ("ASC for " ++ a)%string) ;;
  Ok (dict_set "intercept" (map Own sp) (fst sn),
      dict_set "intercept" nm (snd sn)).

(** The two ordered dictionaries handed to pylogit. *)
Definition build_specification (alt_attr_vars generic_attrs : list string)
  (constant : bool) (alts : alts_arg) (ref_alt_idx : Z)
  : result (specification_t * names_t) :=
  let nalt := alts_len alts in
  let d := alts_dict alts in
  sn <- foldM (spec_alt_var d) alt_attr_vars ([], []) ;;
  sn <- foldM (spec_generic_var d nalt ref_alt_idx) generic_attrs sn ;;
  if constant then spec_constant d nalt ref_alt_idx sn else Ok sn.

(** [sum([len(specifications[s]) for s in specifications])] *)
Definition count_coefs (specifications : specification_t) : nat :=
  list_sum (map (fun kv => length (snd kv)) specifications).

(** [create] stands for [pl.create_choice_model], [D] for the frame it is
    given and [M] for the model object it returns. *)
Definition logit_spec {D M : Type}
  (create : D -> specification_t -> names_t -> result M)
  (long_data_df : D) (alt_attr_vars generic_attrs : list string)
  (constant : bool) (alts : alts_arg) (ref_alt_idx : Z) : result (M * nat) :=
  sn <- build_specification alt_attr_vars generic_attrs constant alts
          ref_alt_idx ;;
  model <- create long_data_df (fst sn) (snd sn) ;;
  let numCoef := count_coefs (fst sn) in
  Ok (model, numCoef).

(** ** [logit_est_disp] *)

(** The pylogit model object, as far as the module uses it.  A method that
    mutates the object returns the new object; a call that raises reports
    the exception beside the object it leaves behind. *)
Record pylogit (M : Type) : Type := mk_pylogit
  { (* [model.fit_mle(np.zeros(n))] *)
    fit_mle : M -> nat -> M * option exn;
    (* [model.fit_mle(np.zeros(n), just_point=True)]: [x] and [fun] *)
    fit_mle_point : M -> nat -> M * result (list R * R);
    (* [model.get_statsmodels_summary()] *)
    get_statsmodels_summary : M -> result unit;
    (* [zip(model.coefs.index, model.coefs.values)] *)
    coefs : M -> list (string * R);
    ind_var_names : M -> list string;
    (* [model.data.shape[0]] *)
    data_rows : M -> nat }.

Record modelDict (M : Type) : Type := mk_modelDict
  { just_point : bool;
    params : dict R;
    model : M }.

(** [params[varname] = param] for each pair, in order. *)
Definition params_of (pairs : list (string * R)) : dict R :=
  fold_left (fun d kv => dict_set (fst kv) (snd kv) d) pairs [].

(** The [except:] branch. *)
Definition est_fallback {M : Type} (pl : pylogit M) (model0 : M)
  (numCoef : nat) (nalt : Z) : result (modelDict M) :=
  let '(model1, model_result) := fit_mle_point pl model0 numCoef in
  xf <- model_result ;;
  _ <- (if Z.eqb nalt 0 then Raise ZeroDivisionError else Ok tt) ;;
  let beta := fst xf in
  Ok (mk_modelDict true
        (params_of (combine (ind_var_names pl model1) beta)) model1).

Definition logit_est_disp {M : Type} (pl : pylogit M) (model0 : M)
  (numCoef : nat) (nalt : Z) (disp : bool) : result (modelDict M) :=
  match fit_mle pl model0 numCoef with
  | (model1, None) =>
      match (if disp then get_statsmodels_summary pl model1 else Ok tt) with
      | Ok _ => Ok (mk_modelDict false (params_of (coefs pl model1)) model1)
      | Raise _ => est_fallback pl model1 numCoef nalt
      end
  | (model1, Some _) => est_fallback pl model1 numCoef nalt
  end.

(** ** Python string methods used by [asclogit_pred] *)

(** [s.endswith(suffix)] *)
Definition endswith (s suffix : string) : bool :=
  let n := String.length s in
  let m := String.length suffix in
  if (m <=? n)%nat then String.eqb (substring (n - m) m s) suffix else false.

(** [s.endswith(tuple(suffixes))] *)
Definition endswith_any (s : string) (suffixes : list string) : bool :=
  existsb (endswith s) suffixes.

(** [s.split(sep)] for a non-empty separator: matches are taken left to
    right and do not overlap.  [skip] counts the characters of a match still
    to be dropped, [cur] is the piece being read. *)
Fixpoint split_go (sep s : string) (skip : nat) (cur : string)
  : list string :=
  match s with
  | EmptyString => [cur]
  | String c t =>
      match skip with
      | S k => split_go sep t k cur
      | O => if String.prefix sep s
             then cur :: split_go sep t (String.length sep - 1) EmptyString
             else split_go sep t 0 (cur ++ String c EmptyString)%string
      end
  end.

Definition str_split (sep s : string) : list string :=
  split_go sep s 0 EmptyString.

(** ** Float arrays *)

Local Open Scope R_scope.

(** A numeric frame: its columns as float arrays. *)
Definition nframe : Type := dict (list R).

Definition frame_len {A : Type} (df : dict (list A)) : nat :=
  match df with
  | [] => O
  | (_, c) :: _ => length c
  end.

(** [len(set(col))] *)
Definition count_distinct (col : list R) : nat :=
  length (nodup Req_dec_T col).

(** A Series of [n] rows combined with an array of [m] entries: entry by
    entry when [m = n], broadcast when [m = 1], refused otherwise. *)
Definition series_array (f : R -> R -> R) (s a : list R) : result (list R) :=
  if Nat.eqb (length a) (length s)
  then Ok (map (fun xy => f (fst xy) (snd xy)) (combine s a))
  else match a with
       | [x] => Ok (map (fun y => f y x) s)
       | _ => Raise (ValueError "operands could not be broadcast together")
       end.

(** [np.tile(np.asarray(tmp), k)] *)
Definition tile {A : Type} (tmp : list A) (k : nat) : list A :=
  concat (repeat tmp k).

(** [tmp[i] = v] with Python's negative indices. *)
Definition py_list_set {A : Type} (l : list A) (i : Z) (v : A)
  : result (list A) :=
  let n := Z.of_nat (length l) in
  let j := if Z.ltb i 0 then (i + n)%Z else i in
  if Z.ltb j 0 || Z.leb n j then Raise IndexError
  else Ok (list_set (Z.to_nat j) v l).

(** [a.reshape(-1, ncol)] and [a.reshape(nrow, -1)] on a flat array. *)
Fixpoint chunks {A : Type} (ncol : nat) (nrow : nat) (a : list A)
  : list (list A) :=
  match nrow with
  | O => []
  | S k => firstn ncol a :: chunks ncol k (skipn ncol a)
  end.

Definition reshape_cols {A : Type} (ncol : nat) (a : list A)
  : result (list (list A)) :=
  if Nat.eqb ncol 0 then Raise (ValueError "cannot reshape array")
  else if Nat.eqb (length a mod ncol) 0
  then Ok (chunks ncol (length a / ncol) a)
  else Raise (ValueError "cannot reshape array").

Definition reshape_rows {A : Type} (nrow : nat) (a : list A)
  : result (list (list A)) :=
  if Nat.eqb nrow 0 then Raise (ValueError "cannot reshape array")
  else if Nat.eqb (length a mod nrow) 0
  then Ok (chunks (length a / nrow) nrow a)
  else Raise (ValueError "cannot reshape array").

(** ** [asclogit_pred] *)

Definition rsum (l : list R) : R := fold_right Rplus 0 l.

(** [row.mean()] *)
Definition rmean (l : list R) : R := rsum l / INR (length l).

(** [v[v > 700] = 700] then [v[v < -700] = -700] *)
Definition clip_hi (x : R) : R := if Rlt_dec 700 x then 700 else x.
Definition clip_lo (x : R) : R := if Rlt_dec x (-700) then -700 else x.
Definition clip (x : R) : R := clip_lo (clip_hi x).

(** The plain softmax [exp(v) / exp(v).sum()]. *)
Definition softmax (v : list R) : list R :=
  let expV := map exp v in
  map (fun e => e / rsum expV) expV.

(** One row of [p]: centre on the row mean, clip, then softmax. *)
Definition stabilized_prob (v : list R) : list R :=
  let m := rmean v in
  softmax (map (fun x => clip (x - m)) v).

(** [row.argmax()]: the first position of the largest entry. *)
Fixpoint argmax_from (best : R) (bi i : nat) (l : list R) : nat :=
  match l with
  | [] => bi
  | x :: t => if Rlt_dec best x then argmax_from x i (S i) t
              else argmax_from best bi (S i) t
  end.

Definition argmax (l : list R) : nat :=
  match l with
  | [] => O
  | x :: t => argmax_from x O 1%nat t
  end.

(** The body of [for alt_idx, alt_name in alts.items()]. *)
Definition add_dummy (nalt numChoices : nat)
  (st : list string * dict (list R)) (kv : Z * string)
  : result (list string * dict (list R)) :=
  let '(alt_idx, alt_name) := kv in
  tmp <- py_list_set (repeat 0 nalt) alt_idx 1 ;;
  Ok (fst st ++ [(" for " ++ alt_name)%string],
      dict_set alt_name (tile tmp numChoices) (snd st)).

(** Series with the same index, entry by entry. *)
Definition series_add (a b : list R) : list R :=
  map (fun xy => fst xy + snd xy) (combine a b).

(** The loop that accumulates [data['utility']]; [None] is the bare
    [return] of the branch that cannot find a variable. *)
Fixpoint calc_utilities (flags : list string) (dummies_dict : dict (list R))
  (ps : list (string * R)) (data : nframe) : result (option nframe) :=
  match ps with
  | [] => Ok (Some data)
  | (varname, param) :: t =>
      if negb (endswith_any varname flags)
      then
        u <- dict_getitem "utility" data ;;
        col <- dict_getitem varname data ;;
        calc_utilities flags dummies_dict t
          (dict_set "utility"
             (series_add u (map (fun x => x * param) col)) data)
      else
        match str_split " for " varname with
        | [main_varname; interact_with_alt] =>
            use_dummy <- dict_getitem interact_with_alt dummies_dict ;;
            if String.eqb main_varname "ASC"
            then
              u <- dict_getitem "utility" data ;;
              u' <- series_array Rplus u
                      (map (fun d => d * param) use_dummy) ;;
              calc_utilities flags dummies_dict t
                (dict_set "utility" u' data)
            else
              match dict_get main_varname data with
              | Some col =>
                  u <- dict_getitem "utility" data ;;
                  w <- series_array Rmult col use_dummy ;;
                  calc_utilities flags dummies_dict t
                    (dict_set "utility"
                       (series_add u (map (fun x => x * param) w)) data)
              | None => Ok None
              end
        | _ => Raise (ValueError "not enough or too many values to unpack")
        end
  end.

(** What [asclogit_pred] hands back: [None], or the triple
    [(p, y, v_raw)]. *)
Definition pred_ret : Type :=
  option (list (list R) * option (list Z) * list (list R)).

(** The choice of [y] by [method]. *)
Definition predict_choice {G : Type} (rnd : np_random G) (method : string)
  (seed : option Z) (keys : list Z) (p : list (list R)) (g : G)
  : result (option (list Z) * G) :=
  if String.eqb method "max"
  then Ok (Some (map (fun row => Z.of_nat (argmax row)) p), g)
  else if String.eqb method "random"
  then
    r <- foldM (fun (st : list Z * G) row =>
                  if Nat.eqb (length keys) (length row)
                  then let yg := rand_choice_p rnd (snd st) keys row in
                       Ok (fst st ++ [fst yg], snd yg)
                  else Raise (ValueError "'a' and 'p' must have same size"))
               p ([], seed_if_given rnd seed g) ;;
    Ok (Some (fst r), snd r)
  else if String.eqb method "none"
  then Ok (None, g)
  else Raise (UnboundLocalError "y").

Definition asclogit_pred {M G : Type} (rnd : np_random G) (data_in : nframe)
  (md : modelDict M) (customIDColumnName : string) (method : string)
  (seed : option Z) (alts : alts_arg) (g : G) : result (pred_ret * G) :=
  ids <- dict_getitem customIDColumnName data_in ;;
  let numChoices := count_distinct ids in
  let nalt := alts_len alts in
  let d := alts_dict alts in
  fd <- foldM (add_dummy nalt numChoices) d ([], []) ;;
  let data := dict_set "utility" (repeat 0 (frame_len data_in)) data_in in
  r <- calc_utilities (fst fd) (snd fd) (params md) data ;;
  match r with
  | None => Ok (None, g)
  | Some data =>
      u <- dict_getitem "utility" data ;;
      v_raw <- reshape_rows numChoices u ;;
      p <- reshape_cols nalt (concat (map stabilized_prob v_raw)) ;;
      yg <- predict_choice rnd method seed (map fst d) p g ;;
      Ok (Some (p, fst yg, v_raw), snd yg)
  end.

(** ** [logit_cv] *)

(** The libraries [logit_cv] calls into, beside the functions above. *)
Record cv_env (P M G : Type) : Type := mk_cv_env
  { cv_rnd : np_random G;
    cv_pl : pylogit M;
    (* [pl.create_choice_model] *)
    cv_create : lframe P -> specification_t -> names_t -> result M;
    (* [df.sort_values(by=['group', 'alt'])] *)
    cv_sort : lframe P -> lframe P;
    (* the numeric columns of a frame *)
    cv_numeric : lframe P -> nframe;
    (* [accuracy_score] and [f1_score(..., average='macro')] *)
    cv_accuracy : list Z -> option (list Z) -> result R;
    cv_f1_macro : list Z -> option (list Z) -> result R }.

(** [caseIDs[i * n: (i + 1) * n]] *)
Definition fold_ids (caseIDs : list Z) (n i : nat) : list Z :=
  firstn n (skipn (i * n) caseIDs).

(** [df.loc[df['group'].isin(ids)]] *)
Definition isin_group {P : Type} (ids : list Z) (df : lframe P) : lframe P :=
  filter (fun r => existsb (Z.eqb (group r)) ids) df.

(** [int(ncs / nfold)] *)
Definition fold_size (ncs nfold : nat) : result nat :=
  if Nat.eqb nfold 0 then Raise ZeroDivisionError else Ok (ncs / nfold)%nat.

(** [{i: ... for i in range(nfold)}] *)
Definition cv_data {P : Type} (df : lframe P) (caseIDs : list Z)
  (nsampe_fold nfold : nat) : list (nat * lframe P) :=
  map (fun i => (i, isin_group (fold_ids caseIDs nsampe_fold i) df))
      (seq 0 nfold).

(** [pd.concat(l, axis=0)] *)
Definition pd_concat {P : Type} (l : list (lframe P)) : result (lframe P) :=
  match l with
  | [] => Raise (ValueError "No objects to concatenate")
  | _ => Ok (concat l)
  end.

(** [a, b = r] for the value [asclogit_pred] returns. *)
Definition unpack2 (r : pred_ret)
  : result (list (list R) * option (list Z)) :=
  match r with
  | None => Raise (TypeError "cannot unpack non-iterable NoneType object")
  | Some _ => Raise (ValueError "too many values to unpack (expected 2)")
  end.

(** [row.argmax()] on integers. *)
Fixpoint argmaxZ_from (best : Z) (bi i : nat) (l : list Z) : nat :=
  match l with
  | [] => bi
  | x :: t => if Z.ltb best x then argmaxZ_from x i (S i) t
              else argmaxZ_from best bi (S i) t
  end.

Definition argmaxZ (l : list Z) : nat :=
  match l with
  | [] => O
  | x :: t => argmaxZ_from x O 1%nat t
  end.

(** The state of the loop over the folds. *)
Record cv_state (G : Type) : Type := mk_cv_state
  { accuracy_list : list R;
    f1_macro_list : list R;
    cv_metrics_detail : list (nat * (R * R));
    cv_gen : G }.

(** The body of [for holdout_idx in cv_data]. *)
Definition cv_fold {P M G : Type} (env : cv_env P M G)
  (folds : list (nat * lframe P)) (alt_attr_vars generic_attrs : list string)
  (constant : bool) (seed : option Z) (alts : alts_arg)
  (upsample_new : list (Z * string)) (method : string)
  (st : cv_state G) (fold : nat * lframe P) : result (cv_state G) :=
  let holdout_idx := fst fold in
  let long_data_df_test := snd fold in
  let train_list :=
    map snd (filter (fun f => negb (Nat.eqb (fst f) holdout_idx)) folds) in
  train <- pd_concat train_list ;;
  ug <- long_form_data_upsample (cv_rnd env) (cv_sort env train)
          upsample_new seed (cv_gen st) ;;
  mn <- logit_spec (cv_create env) (fst ug) alt_attr_vars generic_attrs
          constant alts 0%Z ;;
  md <- logit_est_disp (cv_pl env) (fst mn) (snd mn)
          (Z.of_nat (alts_len alts)) false ;;
  rg <- asclogit_pred (cv_rnd env) (cv_numeric env long_data_df_test) md
          "group" method seed alts (snd ug) ;;
  py <- unpack2 (fst rg) ;;
  rows <- reshape_cols (alts_len alts) (choice_col long_data_df_test) ;;
  let y_true_test := map (fun r => Z.of_nat (argmaxZ r)) rows in
  ac <- cv_accuracy env y_true_test (snd py) ;;
  f1 <- cv_f1_macro env y_true_test (snd py) ;;
  Ok (mk_cv_state (accuracy_list st ++ [ac]) (f1_macro_list st ++ [f1])
        (cv_metrics_detail st ++ [(holdout_idx, (ac, f1))]) (snd rg)).

(** The first lines of [logit_cv]: shuffle the case IDs and cut the fold
    datasets. *)
Definition cv_split {P G : Type} (rnd : np_random G) (data : lframe P)
  (nfold : nat) (seed : option Z) (g : G)
  : result (list (nat * lframe P) * G) :=
  let g := seed_if_given rnd seed g in
  let sh := rand_shuffle rnd g (sorted_keys (group_col data)) in
  let caseIDs := fst sh in
  let ncs := length caseIDs in
  nsampe_fold <- fold_size ncs nfold ;;
  Ok (cv_data data caseIDs nsampe_fold nfold, snd sh).

Definition logit_cv {P M G : Type} (env : cv_env P M G) (data : lframe P)
  (alt_attr_vars generic_attrs : list string) (constant : bool)
  (nfold : nat) (seed : option Z) (alts : alts_arg)
  (upsample_new : list (Z * string)) (method : string) (g : G)
  : result ((R * R) * list (nat * (R * R))) :=
  fg <- cv_split (cv_rnd env) data nfold seed g ;;
  let folds := fst fg in
  st <- foldM (cv_fold env folds alt_attr_vars generic_attrs constant seed
                 alts upsample_new method)
              folds (mk_cv_state [] [] [] (snd fg)) ;;
  Ok ((rmean (accuracy_list st), rmean (f1_macro_list st)),
      cv_metrics_detail st).

(** A case belongs to fold [i] when a row of the fold's dataset carries its
    ID; the folds partition the cases when every case of the frame belongs
    to exactly one fold. *)
Definition case_in_fold {P : Type} (folds : list (nat * lframe P)) (i : nat)
  (c : Z) : Prop :=
  exists f, In (i, f) folds /\ In c (group_col f).

Definition folds_partition {P : Type} (data : lframe P)
  (folds : list (nat * lframe P)) : Prop :=
  forall c, In c (group_col data) ->
    exists i, case_in_fold folds i c /\
              forall j, case_in_fold folds j c -> j = i.

(** The [try] block of [logit_est_disp] runs to its [return]: the full fit
    raises nothing and, when [disp] is set, nor does the summary. *)
Definition full_fit_ok {M : Type} (pl : pylogit M) (model0 : M)
  (numCoef : nat) (disp : bool) : Prop :=
  snd (fit_mle pl model0 numCoef) = None /\
  (disp = false \/
   is_ok (get_statsmodels_summary pl (fst (fit_mle pl model0 numCoef)))
   = true).

(** Every index of [range(nalt)] is a key of [alts]. *)
Definition alts_cover (alts : alts_arg) : Prop :=
  forall i, (i < alts_len alts)%nat ->
            exists a, zdict_get (Z.of_nat i) (alts_dict alts) = Some a.

Definition alt_name (alts : alts_arg) (i : Z) : string :=
  match zdict_get i (alts_dict alts) with
  | Some a => a
  | None => EmptyString
  end.

(** The names of the alternatives other than the reference one, by
    increasing index. *)
Definition non_ref_names (alts : alts_arg) (ref_alt_idx : Z) : list string :=
  map (alt_name alts)
      (filter (fun i => negb (Z.eqb i ref_alt_idx))
              (map Z.of_nat (seq 0 (alts_len alts)))).

(** The specification and the coefficient names in the words of the
    description: one shared coefficient over all the alternatives for an
    alternative-specific variable; one coefficient per alternative other
    than the reference one for a generic variable and for the intercept. *)
Definition expected_specification (alt_attr_vars generic_attrs : list string)
  (constant : bool) (alts : alts_arg) (ref_alt_idx : Z) : specification_t :=
  map (fun var => (var, [Shared (map snd (alts_dict alts))])) alt_attr_vars
  ++ map (fun var => (var, map Own (non_ref_names alts ref_alt_idx)))
         generic_attrs
  ++ (if constant
      then [("intercept"%string, map Own (non_ref_names alts ref_alt_idx))]
      else []).

Definition expected_names (alt_attr_vars generic_attrs : list string)
  (constant : bool) (alts : alts_arg) (ref_alt_idx : Z) : names_t :=
  map (fun var => (var, [var])) alt_attr_vars
  ++ map (fun var =>
            (var, map (fun a => (var ++ " for " ++ a)%string)
                      (non_ref_names alts ref_alt_idx)))
         generic_attrs
  ++ (if constant
      then [("intercept"%string,
             map (fun a => ("ASC for " ++ a)%string)
                 (non_ref_names alts ref_alt_idx))]
      else []).

(** The suffixes that mark a case-specific variable, and the names of the
    alternatives. *)
Definition alt_flags (alts : alts_arg) : list string :=
  map (fun kv => (" for " ++ snd kv)%string) (alts_dict alts).

Definition alt_names (alts : alts_arg) : list string :=
  map snd (alts_dict alts).

(** Every key of [alts] is a valid index into a list of [nalt] entries. *)
Definition keys_in_range (alts : alts_arg) : Prop :=
  Forall (fun kv : Z * string =>
            (- Z.of_nat (alts_len alts) <= fst kv < Z.of_nat (alts_len alts))%Z)
         (alts_dict alts).

(** The columns [asclogit_pred] can read: those of the input and the
    ['utility'] column it adds. *)
Definition is_column (data_in : nframe) (name : string) : Prop :=
  In name (dict_keys data_in) \/ name = "utility"%string.

(** A parameter the utility loop can process: an alternative-specific
    variable that is a column, or a name [X for <alt>] with [<alt>] an
    alternative and [X] either ['ASC'] or a column. *)
Definition good_param (alts : alts_arg) (data_in : nframe)
  (vp : string * R) : Prop :=
  (endswith_any (fst vp) (alt_flags alts) = false /\
   is_column data_in (fst vp)) \/
  (endswith_any (fst vp) (alt_flags alts) = true /\
   exists main alt,
     str_split " for " (fst vp) = [main; alt] /\
     In alt (alt_names alts) /\
     (main = "ASC"%string \/ is_column data_in main)).

(** A parameter that makes the utility loop return early: a name
    [X for <alt>] with [<alt>] an alternative and [X] neither ['ASC'] nor a
    column. *)
Definition missing_param (alts : alts_arg) (data_in : nframe)
  (vp : string * R) : Prop :=
  endswith_any (fst vp) (alt_flags alts) = true /\
  exists main alt,
    str_split " for " (fst vp) = [main; alt] /\
    In alt (alt_names alts) /\
    main <> "ASC"%string /\ ~ is_column data_in main.

(** The long-form shape: every column has one entry per row, and there are
    [nalt] rows for each of the distinct case IDs. *)
Definition long_shape (data_in : nframe) (ids : list R) (alts : alts_arg)
  : Prop :=
  Forall (fun kc : string * list R =>
            length (snd kc) = count_distinct ids * alts_len alts)%nat
         data_in.

(** The four alternatives the module uses by default. *)
Definition default_alts : alts_arg :=
  AltDict [(0, "drive"); (1, "cycle"); (2, "walk"); (3, "PT")]%Z%string.

(** ** Concrete inputs for the examples *)

(** A generator that always draws index [0], leaves a list in its order
    when it shuffles and picks the first key. *)
Definition first_random : np_random unit :=
  mk_np_random (fun _ => tt)
    (fun g _ k => (repeat O k, g))
    (fun g l => (l, g))
    (fun g keys _ => (hd 0%Z keys, g)).

(** Three cases of one row each. *)
Definition three_cases : lframe unit :=
  [mk_lrow 1 1 tt; mk_lrow 2 1 tt; mk_lrow 3 1 tt].

(** A model whose full fit fails and whose point fit returns
    [x = [1; 2]] for the variables [a] and [b]. *)
Definition point_only_pylogit : pylogit unit :=
  mk_pylogit (fun m _ => (m, Some (LibraryError 1%Z)))
    (fun m _ => (m, Ok ([1%R; 2%R], 0%R)))
    (fun _ => Ok tt) (fun _ => []) (fun _ => ["a"; "b"]%string)
    (fun _ => 8%nat).

(** A model on which both fits raise, as when [numCoef] does not match the
    design matrix. *)
Definition failing_pylogit : pylogit unit :=
  mk_pylogit (fun m _ => (m, Some (ValueError "shapes not aligned")))
    (fun m _ => (m, Raise (ValueError "shapes not aligned")))
    (fun _ => Ok tt) (fun _ => []) (fun _ => []) (fun _ => 8%nat).

(** Two alternatives, one case of two rows with a travel time, the same
    frame without the travel time, and fitted parameters for ['time'] and
    for ['age'] interacted with ['walk']. *)
Definition two_alts : alts_arg := AltList ["drive"; "walk"]%string.

Definition one_case_frame : nframe :=
  [("group", [1; 1]); ("time", [3; 5])]%string.

Definition no_time_frame : nframe := [("group", [1; 1])]%string.

Definition md_time_age : modelDict unit :=
  mk_modelDict false [("time", 2); ("age for walk", 1)]%string tt.

Definition md_time : modelDict unit :=
  mk_modelDict false [("time", 2)]%string tt.

(** A survey of two travellers between driving and walking; the table has
    no ['walk_time'] column.  [survey_pt] holds a traveller whose mode is
    not among the modes. *)
Definition survey : mode_table_t :=
  [(VInt 0, [("mode", VStr "walk"); ("age", VInt 30);
             ("drive_time", VInt 10)]);
   (VInt 1, [("mode", VStr "drive"); ("age", VInt 41);
             ("drive_time", VInt 7)])]%string.

Definition survey_pt : mode_table_t :=
  [(VInt 0, [("mode", VStr "PT"); ("age", VInt 30);
             ("drive_time", VInt 10)])]%string.

Definition survey_alt_attrs : dict (list string) :=
  [("time", ["drive_time"; "walk_time"])]%string.

Definition survey_modes : list value := [VStr "drive"; VStr "walk"].

(** *** What the upsampler is asked for *)

(** [list(data['choice'])[alt_idx] == 1], when the index is in range. *)
Definition chooses_b {P : Type} (alt_idx : Z) (data : lframe P) : bool :=
  match chooses alt_idx data with
  | Ok true => true
  | _ => false
  end.

(** The cases of a frame whose chosen alternative is [alt_idx]. *)
Definition cases_choosing {P : Type} (alt_idx : Z) (df : lframe P)
  : list (lframe P) :=
  filter (chooses_b alt_idx) (groupby_group df).

(** [alt_idx] indexes a row of every case. *)
Definition index_ok {P : Type} (alt_idx : Z) (df : lframe P) : Prop :=
  Forall (fun d : lframe P =>
            (- Z.of_nat (length d) <= alt_idx < Z.of_nat (length d))%Z)
         (groupby_group df).

(** The number of cases the documentation asks for: ['+N'] adds [N]
    cases, ['*N'] with [N >= 1] brings [count] cases to [N * count]. *)
Definition promised_new (spec : string) (count : nat) : option nat :=
  match spec with
  | String "+"%char t =>
      match digits t with
      | Some n => Some (Z.to_nat n)
      | None => None
      end
  | String "*"%char t =>
      match digits t with
      | Some n => if (1 <=? n)%Z then Some (Z.to_nat n * count - count)%nat
                  else None
      | None => None
      end
  | _ => None
  end.

(** What is asked of one entry of [upsample_new]: the index is in range
    and the entry reads as a number of cases, which is zero unless some
    case chooses the alternative. *)
Definition entry_ok {P : Type} (df : lframe P) (kv : Z * string) : Prop :=
  index_ok (fst kv) df /\
  exists n,
    promised_new (snd kv) (length (cases_choosing (fst kv) df)) = Some n /\
    (n = 0%nat \/ cases_choosing (fst kv) df <> []).

(** What one entry adds: the promised number of cases, each a case of the
    input that chooses the alternative. *)
Definition entry_added {P : Type} (df : lframe P) (kv : Z * string)
  (cs : list (lframe P)) : Prop :=
  promised_new (snd kv) (length (cases_choosing (fst kv) df))
  = Some (length cs) /\
  Forall (fun c => In c (cases_choosing (fst kv) df)) cs.

(** Two commuters and two alternatives: the first chooses alternative 0,
    the second alternative 1. *)
Definition commuters : lframe unit :=
  [mk_lrow 1 1 tt; mk_lrow 1 0 tt; mk_lrow 2 0 tt; mk_lrow 2 1 tt].

(** One commuter, who chooses alternative 0. *)
Definition one_commuter : lframe unit :=
  [mk_lrow 1 1 tt; mk_lrow 1 0 tt].

(** A survey whose travellers have not chosen yet: there is no ['mode']
    column. *)
Definition survey_unlabelled : mode_table_t :=
  [(VInt 0, [("age", VInt 30); ("drive_time", VInt 10)]);
   (VInt 1, [("age", VInt 41); ("drive_time", VInt 7)])]%string.

(** Source columns for ['time'] that name one column only, for two
    modes. *)
Definition ragged_alt_attrs : dict (list string) :=
  [("time", ["drive_time"])]%string.

(** Source columns for ['time'] that name the missing ['walk_time'] only,
    and source columns listed under the name of the basic column
    ['alt']. *)
Definition short_alt_attrs : dict (list string) :=
  [("time", ["walk_time"])]%string.

Definition clashing_alt_attrs : dict (list string) :=
  [("alt", ["drive_time"; "walk_time"])]%string.

(** [spec.startswith('+') or spec.startswith('*')] *)
Definition signed (spec : string) : bool :=
  match spec with
  | EmptyString => false
  | String c _ => Ascii.eqb c "+"%char || Ascii.eqb c "*"%char
  end.

(** [alt_idx] is not an index into the rows of the case [d]. *)
Definition index_out_of_range {P : Type} (alt_idx : Z) (d : lframe P)
  : Prop :=
  ~ (- Z.of_nat (length d) <= alt_idx < Z.of_nat (length d))%Z.

(** The default of [upsample_new]. *)
Definition default_upsample_new : list (Z * string) :=
  [(0, "+0"); (1, "+0"); (2, "+0"); (3, "+0")]%Z%string.

(** One traveller among four alternatives, who chooses the first. *)
Definition four_way : lframe unit :=
  [mk_lrow 7 1 tt; mk_lrow 7 0 tt; mk_lrow 7 0 tt; mk_lrow 7 0 tt].

(** The keys of a dictionary of lists with the length of each list. *)
Definition shape {V : Type} (d : dict (list V)) : list (string * nat) :=
  map (fun kv => (fst kv, length (snd kv))) d.

(** [sum(len(names[k]) for k in names)] *)
Definition count_names (names : names_t) : nat :=
  list_sum (map (fun kv => length (snd kv)) names).

(** Two alternatives numbered from 1. *)
Definition one_indexed_alts : alts_arg :=
  AltDict [(1, "drive"); (2, "walk")]%Z%string.

(** A key of [alts] that is not an index into a list of [nalt]
    entries. *)
Definition key_out_of_range (nalt : nat) (kv : Z * string) : Prop :=
  ~ (- Z.of_nat nalt <= fst kv < Z.of_nat nalt)%Z.

(** [' ' not in s] *)
Fixpoint no_space (s : string) : bool :=
  match s with
  | EmptyString => true
  | String c t => negb (Ascii.eqb c " "%char) && no_space t
  end.

(** The position that the key [idx] of [alts] marks in a case:
    [tmp[idx] = 1] with Python's negative indices. *)
Definition key_position (nalt : nat) (idx : Z) : nat :=
  Z.to_nat (if Z.ltb idx 0 then (idx + Z.of_nat nalt)%Z else idx).

Local Close Scope R_scope.

(** * The machine model

    The statements about the numbers the module computes are made on the
    numbers the interpreter has.  A numeric column is a float64 array:
    IEEE binary64, here the primitive floats, whose operations are the
    processor's.  A case identifier is a numpy int64, which wraps
    around.  What the module calls from numpy ([np.exp], the reductions
    [sum] and [mean] of a row, the generator) and the builtins [int] and
    [float] on a string are library code: they are parameters of the
    model, and the examples run on the instances [numpy64] and
    [plain_literals]. *)

Module Machine.

Import Floats.

(** ** int64 *)

Definition int64_min : Z := (- 2 ^ 63)%Z.
Definition int64_max : Z := (2 ^ 63 - 1)%Z.

Definition is_int64 (z : Z) : Prop := (int64_min <= z <= int64_max)%Z.

(** The value that an int64 holds when the exact result of an operation
    is [z]. *)
Definition wrap64 (z : Z) : Z := ((z + 2 ^ 63) mod 2 ^ 64 - 2 ^ 63)%Z.

(** [a + b] for a numpy int64 [a] and a Python int [b] within int64. *)
Definition int64_add (a b : Z) : Z := wrap64 (a + b).

(** ** The builtins [int] and [float] *)

(** [int(s)] and [float(s)] on a string. *)
Record builtins : Type := mk_builtins
  { int_str : string -> result Z;
    float_str : string -> result float }.

(** [int(x)] on a float: the integer part, toward zero. *)
Definition int_of_float (x : float) : result Z :=
  match Prim2SF x with
  | S754_zero _ => Ok 0%Z
  | S754_finite s m e =>
      let a := Z.shiftl (Zpos m) e in Ok (if s then (- a)%Z else a)
  | S754_infinity _ =>
      Raise (OverflowError "cannot convert float infinity to integer")
  | S754_nan => Raise (ValueError "cannot convert float NaN to integer")
  end.

(** The nearest float of an integer, ties to even. *)
Definition nearest_float (z : Z) : float :=
  SF2Prim (binary_normalize prec emax z 0 false).

(** The float that a Python int becomes as the operand of a float. *)
Definition float_of_int (z : Z) : result float :=
  let x := nearest_float z in
  if is_infinity x
  then Raise (OverflowError "int too large to convert to float")
  else Ok x.

(** ** [long_form_data_upsample] *)

(** The number of cases to add for one alternative, given how many cases
    choose it and the previous value of [num_new]:
    [int(spec[1:])] or [int(count * (float(spec[1:]) - 1))]. *)
Definition read_num_new (py : builtins) (spec : string) (count : nat)
  (prev : option Z) : result (option Z) :=
  match spec with
  | String "+"%char t => n <- int_str py t ;; Ok (Some n)
  | String "*"%char t =>
      x <- float_str py t ;;
      c <- float_of_int (Z.of_nat count) ;;
      n <- int_of_float (c * (x - 1))%float ;;
      Ok (Some n)
  | _ => Ok prev
  end.

(** The body of [for alt_idx in upsample_new]. *)
Definition upsample_alt {P G : Type} (py : builtins) (rnd : np_random G)
  (casedata_list : list (lframe P)) (st : up_state P G) (kv : Z * string)
  : result (up_state P G) :=
  let '(alt_idx, spec) := kv in
  this_alt_casedata_list <- filterM (chooses alt_idx) casedata_list ;;
  let num_this_alt_casedata := length this_alt_casedata_list in
  num <- read_num_new py spec num_this_alt_casedata (num_new st) ;;
  n <- match num with
       | Some n => Ok n
       | None => Raise (UnboundLocalError "num_new")
       end ;;
  drawn <- np_random_choice rnd (up_gen st) num_this_alt_casedata n ;;
  copies <- mapM (list_getitem this_alt_casedata_list) (fst drawn) ;;
  Ok (mk_up_state (new_casedata_list st ++ copies) (Some n) (snd drawn)).

(** [maxID + idx + 1], with [maxID] an int64. *)
Definition new_group (maxID : Z) (idx : nat) : Z :=
  int64_add (int64_add maxID (Z.of_nat idx)) 1.

(** [for idx, new_casedata in enumerate(l): new_casedata['group'] = maxID + idx + 1] *)
Fixpoint renumber {P : Type} (maxID : Z) (idx : nat) (l : list (lframe P))
  : list (lframe P) :=
  match l with
  | [] => []
  | d :: t => set_group (new_group maxID idx) d :: renumber maxID (S idx) t
  end.

Definition long_form_data_upsample {P G : Type} (py : builtins)
  (rnd : np_random G) (long_data_df_in : lframe P)
  (upsample_new : list (Z * string)) (seed : option Z) (g : G)
  : result (lframe P * G) :=
  let casedata_list := groupby_group long_data_df_in in
  let caseIDs := sorted_keys (group_col long_data_df_in) in
  let g := seed_if_given rnd seed g in
  st <- foldM (upsample_alt py rnd casedata_list) upsample_new
              (mk_up_state [] None g) ;;
  maxID <- array_max caseIDs ;;
  Ok (long_data_df_in ++ concat (renumber maxID 0 (new_casedata_list st)),
      up_gen st).

(** ** Float arrays *)

(** A numeric frame: its columns as float64 arrays. *)
Definition frame64 : Type := dict (list float).

(** [set(col)]: an entry joins the set unless the set holds an equal one
    (no NaN equals another; the two zeros are equal). *)
Definition set_add (x : float) (s : list float) : list float :=
  if existsb (fun y => (y =? x)%float) s then s else s ++ [x].

(** [len(set(col))] *)
Definition count_distinct (col : list float) : nat :=
  length (fold_left (fun s x => set_add x s) col []).

(** A Series of [n] rows combined with an array of [m] entries: entry by
    entry when [m = n], broadcast when [m = 1], refused otherwise. *)
Definition series_array (f : float -> float -> float) (s a : list float)
  : result (list float) :=
  if Nat.eqb (length a) (length s)
  then Ok (map (fun xy => f (fst xy) (snd xy)) (combine s a))
  else match a with
       | [x] => Ok (map (fun y => f y x) s)
       | _ => Raise (ValueError "operands could not be broadcast together")
       end.

(** Series with the same index, entry by entry. *)
Definition series_add (a b : list float) : list float :=
  map (fun xy => (fst xy + snd xy)%float) (combine a b).

(** ** [asclogit_pred] *)

(** What the predictor calls from numpy, with the generator state [G]. *)
Record numpy (G : Type) : Type := mk_numpy
  { (* [np.exp] on one entry *)
    np_exp : float -> float;
    (* [row.sum()] and [row.mean()] *)
    np_sum : list float -> float;
    np_mean : list float -> float;
    (* [np.random.seed(seed)] *)
    np_seed : Z -> G;
    (* [np.random.choice(keys, size=1, p=row)[0]] *)
    np_choice_p : G -> list Z -> list float -> result (Z * G) }.

(** [v[v > 700] = 700] then [v[v < -700] = -700] *)
Definition clip_hi (x : float) : float :=
  if (700 <? x)%float then 700%float else x.
Definition clip_lo (x : float) : float :=
  if (x <? -700)%float then (-700)%float else x.
Definition clip (x : float) : float := clip_lo (clip_hi x).

(** [v - v.mean()] on a row. *)
Definition centre {G : Type} (np : numpy G) (v : list float) : list float :=
  let m := np_mean np v in map (fun x => (x - m)%float) v.

(** The plain softmax [exp(v) / exp(v).sum()] of a row. *)
Definition softmax {G : Type} (np : numpy G) (v : list float) : list float :=
  let expV := map (np_exp np) v in
  let s := np_sum np expV in
  map (fun e => (e / s)%float) expV.

(** One row of [p]: centre on the row mean, clip, then softmax. *)
Definition stabilized_prob {G : Type} (np : numpy G) (v : list float)
  : list float :=
  softmax np (map clip (centre np v)).

(** [row.argmax()]: the first position of the largest entry, a NaN
    counting as the largest. *)
Fixpoint argmax_from (mp : float) (max_ind i : nat) (l : list float) : nat :=
  match l with
  | [] => max_ind
  | x :: t => if is_nan mp then max_ind
              else if (x <=? mp)%float then argmax_from mp max_ind (S i) t
              else argmax_from x i (S i) t
  end.

Definition argmax (l : list float) : nat :=
  match l with
  | [] => O
  | x :: t => argmax_from x O 1%nat t
  end.

(** The body of [for alt_idx, alt_name in alts.items()]. *)
Definition add_dummy (nalt numChoices : nat)
  (st : list string * dict (list float)) (kv : Z * string)
  : result (list string * dict (list float)) :=
  let '(alt_idx, alt_name) := kv in
  tmp <- py_list_set (repeat 0%float nalt) alt_idx 1%float ;;
  Ok (fst st ++ [(" for " ++ alt_name)%string],
      dict_set alt_name (tile tmp numChoices) (snd st)).

(** The loop that accumulates [data['utility']]; [None] is the bare
    [return] of the branch that cannot find a variable. *)
Fixpoint calc_utilities (flags : list string)
  (dummies_dict : dict (list float)) (ps : list (string * float))
  (data : frame64) : result (option frame64) :=
  match ps with
  | [] => Ok (Some data)
  | (varname, param) :: t =>
      if negb (endswith_any varname flags)
      then
        u <- dict_getitem "utility" data ;;
        col <- dict_getitem varname data ;;
        calc_utilities flags dummies_dict t
          (dict_set "utility"
             (series_add u (map (fun x => (x * param)%float) col)) data)
      else
        match str_split " for " varname with
        | [main_varname; interact_with_alt] =>
            use_dummy <- dict_getitem interact_with_alt dummies_dict ;;
            if String.eqb main_varname "ASC"
            then
              u <- dict_getitem "utility" data ;;
              u' <- series_array PrimFloat.add u
                      (map (fun d => (d * param)%float) use_dummy) ;;
              calc_utilities flags dummies_dict t
                (dict_set "utility" u' data)
            else
              match dict_get main_varname data with
              | Some col =>
                  u <- dict_getitem "utility" data ;;
                  w <- series_array PrimFloat.mul col use_dummy ;;
                  calc_utilities flags dummies_dict t
                    (dict_set "utility"
                       (series_add u (map (fun x => (x * param)%float) w))
                       data)
              | None => Ok None
              end
        | _ => Raise (ValueError "not enough or too many values to unpack")
        end
  end.

(** What [asclogit_pred] hands back: [None], or the triple
    [(p, y, v_raw)]. *)
Definition pred_ret : Type :=
  option (list (list float) * option (list Z) * list (list float)).

(** [if seed is not None: np.random.seed(seed)] *)
Definition seed_if_given {G : Type} (np : numpy G) (seed : option Z) (g : G)
  : G :=
  match seed with
  | Some s => np_seed np s
  | None => g
  end.

(** The choice of [y] by [method]. *)
Definition predict_choice {G : Type} (np : numpy G) (method : string)
  (seed : option Z) (keys : list Z) (p : list (list float)) (g : G)
  : result (option (list Z) * G) :=
  if String.eqb method "max"
  then Ok (Some (map (fun row => Z.of_nat (argmax row)) p), g)
  else if String.eqb method "random"
  then
    r <- foldM (fun (st : list Z * G) row =>
                  yg <- np_choice_p np (snd st) keys row ;;
                  Ok (fst st ++ [fst yg], snd yg))
               p ([], seed_if_given np seed g) ;;
    Ok (Some (fst r), snd r)
  else if String.eqb method "none"
  then Ok (None, g)
  else Raise (UnboundLocalError "y").

(** [params] is [modelDict['params']]. *)
Definition asclogit_pred {G : Type} (np : numpy G) (data_in : frame64)
  (params : dict float) (customIDColumnName : string) (method : string)
  (seed : option Z) (alts : alts_arg) (g : G) : result (pred_ret * G) :=
  ids <- dict_getitem customIDColumnName data_in ;;
  let numChoices := count_distinct ids in
  let nalt := alts_len alts in
  let d := alts_dict alts in
  fd <- foldM (add_dummy nalt numChoices) d ([], []) ;;
  let data :=
    dict_set "utility" (repeat 0%float (frame_len data_in)) data_in in
  r <- calc_utilities (fst fd) (snd fd) params data ;;
  match r with
  | None => Ok (None, g)
  | Some data =>
      u <- dict_getitem "utility" data ;;
      v_raw <- reshape_rows numChoices u ;;
      p <- reshape_cols nalt (concat (map (stabilized_prob np) v_raw)) ;;
      yg <- predict_choice np method seed (map fst d) p g ;;
      Ok (Some (p, fst yg, v_raw), snd yg)
  end.

(** ** What is asked of the input *)

(** The columns [asclogit_pred] can read: those of the input and the
    ['utility'] column it adds. *)
Definition is_column (data_in : frame64) (name : string) : Prop :=
  In name (dict_keys data_in) \/ name = "utility"%string.

(** A parameter the utility loop can process: an alternative-specific
    variable that is a column, or a name [X for <alt>] with [<alt>] an
    alternative and [X] either ['ASC'] or a column. *)
Definition good_param (alts : alts_arg) (data_in : frame64)
  (vp : string * float) : Prop :=
  (endswith_any (fst vp) (alt_flags alts) = false /\
   is_column data_in (fst vp)) \/
  (endswith_any (fst vp) (alt_flags alts) = true /\
   exists main alt,
     str_split " for " (fst vp) = [main; alt] /\
     In alt (alt_names alts) /\
     (main = "ASC"%string \/ is_column data_in main)).

(** The long-form shape: every column has one entry per row, and there are
    [nalt] rows for each of the distinct case IDs. *)
Definition long_shape (data_in : frame64) (ids : list float)
  (alts : alts_arg) : Prop :=
  Forall (fun kc : string * list float =>
            length (snd kc) = count_distinct ids * alts_len alts)
         data_in.

(** A parameter that reads a column of the input frame (and not the
    ['utility'] column being built), or is a constant. *)
Definition input_param (alts : alts_arg) (data_in : frame64)
  (vp : string * float) : Prop :=
  (endswith_any (fst vp) (alt_flags alts) = false /\
   In (fst vp) (dict_keys data_in) /\ fst vp <> "utility"%string) \/
  (endswith_any (fst vp) (alt_flags alts) = true /\
   exists main a,
     str_split " for " (fst vp) = [main; a] /\
     In a (alt_names alts) /\
     (main = "ASC"%string \/
      (In main (dict_keys data_in) /\ main <> "utility"%string))).

(** *** The utility in closed form *)

(** The column [name] of a numeric frame, empty when there is none. *)
Definition column (data : frame64) (name : string) : list float :=
  match dict_get name data with
  | Some c => c
  | None => []
  end.

(** The dummy of the alternative named [a] at position [j] of a case:
    1 at the position of its key, 0 elsewhere. *)
Definition alt_dummy (alts : alts_arg) (a : string) (j : nat) : float :=
  match find (fun kv : Z * string => String.eqb (snd kv) a)
             (alts_dict alts) with
  | Some kv => if Nat.eqb j (key_position (alts_len alts) (fst kv))
               then 1%float else 0%float
  | None => 0%float
  end.

(** What one parameter adds to the utility of alternative [j] of case
    [i]: the value of its column times the parameter; for
    [ASC for <alt>] the dummy of the alternative times the parameter; for
    [X for <alt>] the value of the column times the dummy, times the
    parameter. *)
Definition utility_term (alts : alts_arg) (data_in : frame64)
  (vp : string * float) (i j : nat) : float :=
  let r := (i * alts_len alts + j)%nat in
  if negb (endswith_any (fst vp) (alt_flags alts))
  then (nth r (column data_in (fst vp)) 0 * snd vp)%float
  else match str_split " for " (fst vp) with
       | [main; a] =>
           if String.eqb main "ASC"
           then (alt_dummy alts a j * snd vp)%float
           else (nth r (column data_in main) 0 * alt_dummy alts a j
                 * snd vp)%float
       | _ => 0%float
       end.

(** The terms of the parameters added to 0 one after the other, in the
    order of the parameters. *)
Definition accumulated_utility (alts : alts_arg) (data_in : frame64)
  (ps : dict float) (i j : nat) : float :=
  fold_left (fun acc vp => (acc + utility_term alts data_in vp i j)%float)
            ps 0%float.

(** An exponent that the clipping leaves alone: it is neither above 700
    nor below -700 (a NaN is neither). *)
Definition unclipped (c : float) : Prop :=
  (700 <? c)%float = false /\ (c <? -700)%float = false.

(** An exponent within the bounds of the clipping, as float64 compares
    it. *)
Definition within_bounds (c : float) : Prop :=
  (-700 <=? c)%float = true /\ (c <=? 700)%float = true.

(** The value of one entry of [upsample_new] reads as [n] cases to add,
    [count] cases choosing the alternative. *)
Definition reads_as (py : builtins) (spec : string) (count n : nat) : Prop :=
  read_num_new py spec count None = Ok (Some (Z.of_nat n)).

(** What is asked of one entry of [upsample_new]: the index is in range
    and the value reads as a number of cases, which is zero unless some
    case chooses the alternative. *)
Definition entry_ok {P : Type} (py : builtins) (df : lframe P)
  (kv : Z * string) : Prop :=
  index_ok (fst kv) df /\
  exists n,
    reads_as py (snd kv) (length (cases_choosing (fst kv) df)) n /\
    (n = 0%nat \/ cases_choosing (fst kv) df <> []).

(** What one entry adds: the number of cases its value reads as, each a
    case of the input that chooses the alternative. *)
Definition entry_added {P : Type} (py : builtins) (df : lframe P)
  (kv : Z * string) (cs : list (lframe P)) : Prop :=
  reads_as py (snd kv) (length (cases_choosing (fst kv) df)) (length cs) /\
  Forall (fun c => In c (cases_choosing (fst kv) df)) cs.

(** ** Instances for the examples *)

(** The quotient of two integers rounded to the nearest float64. *)
Definition Z2SF (z : Z) : spec_float :=
  match z with
  | Z0 => S754_zero false
  | Zpos m => S754_finite false m 0
  | Zneg m => S754_finite true m 0
  end.

Definition round_ratio (n d : Z) : float :=
  SF2Prim (SFdiv prec emax (Z2SF n) (Z2SF d)).

(** [int] and [float] on plain decimal literals: a sign, digits, and for
    [float] one point; the examples read no other string. *)
Definition plain_float (s : string) : result float :=
  let bad := Raise (ValueError "could not convert string to float") in
  let read t :=
    match unsigned_float t with
    | Some (n, d) => Ok (round_ratio n d)
    | None => bad
    end in
  match s with
  | String "-"%char t => x <- read t ;; Ok (- x)%float
  | String "+"%char t => read t
  | _ => read s
  end.

Definition plain_literals : builtins := mk_builtins py_int plain_float.

(** The exponential to 256 binary places, rounded to the nearest float64:
    [exp_fixed m e] is [exp (m * 2 ^ e)] scaled by [2 ^ 256], from the
    series of [exp (x / 1024)] squared ten times.  A library's [exp] can
    differ from it in the last place; the counterexamples take it at 0, 700,
    -700 and 1000, and what they show (1, an overflow, a quotient that
    underflows) does not hang on that place. *)
Definition exp_bits : Z := 256.

Fixpoint exp_series (n : nat) (k t term acc : Z) : Z :=
  match n with
  | O => acc
  | S n' =>
      let term' := (term * t / 2 ^ exp_bits / k)%Z in
      exp_series n' (k + 1)%Z t term' (acc + term')%Z
  end.

Fixpoint square_times (n : nat) (y : Z) : Z :=
  match n with
  | O => y
  | S n' => square_times n' (y * y / 2 ^ exp_bits)%Z
  end.

Definition exp_fixed (m : positive) (e : Z) : Z :=
  let t := Z.shiftl (Zpos m) (e + exp_bits - 10) in
  square_times 10 (exp_series 100 1 t (2 ^ exp_bits) (2 ^ exp_bits))%Z.

Definition exp64 (x : float) : float :=
  match Prim2SF x with
  | S754_nan => nan
  | S754_infinity s => if s then 0%float else infinity
  | S754_zero _ => 1%float
  | S754_finite s m e =>
      if (1024 <=? Z.shiftl (Zpos m) e)%Z
      then if s then 0%float else infinity
      else let y := exp_fixed m e in
           if s then round_ratio (2 ^ exp_bits) y
           else round_ratio y (2 ^ exp_bits)
  end.

(** The sum of a row from left to right. *)
Definition seq_sum (row : list float) : float :=
  fold_left PrimFloat.add row 0%float.

(** A numpy with these functions, whose generator picks the first key. *)
Definition numpy64 : numpy unit :=
  mk_numpy exp64 seq_sum
    (fun row => (seq_sum row / nearest_float (Z.of_nat (length row)))%float)
    (fun _ => tt)
    (fun g keys _ =>
       match keys with
       | k :: _ => Ok (k, g)
       | [] => Raise (ValueError "a must be non-empty")
       end).

(** One case of two alternatives with a travel time; the same with
    travel times far apart; the same without the travel time; one case
    of six alternatives. *)
Definition one_case64 : frame64 :=
  [("group", [1; 1]); ("time", [3; 5])]%float%string.

Definition far_apart : frame64 :=
  [("group", [1; 1]); ("time", [700; -700])]%float%string.

Definition no_time64 : frame64 := [("group", [1; 1])]%float%string.

Definition six_way : frame64 :=
  [("group", [1; 1; 1; 1; 1; 1])]%float%string.

(** A frame without rows, and one of three rows for two cases. *)
Definition no_rows64 : frame64 := [("group", [])]%string.

Definition uneven64 : frame64 := [("group", [1; 2; 2])]%float%string.

Definition six_alts : alts_arg :=
  AltList ["drive"; "cycle"; "walk"; "bus"; "metro"; "ferry"]%string.

Definition time_param : dict float := [("time", 1)]%float%string.

(** Fitted parameters for ['time'] and the constant of ['walk']. *)
Definition time_asc_params : dict float :=
  [("time", 2); ("ASC for walk", 1)]%float%string.

(** A case whose identifier is the last int64, and twenty cases that all
    choose alternative 0. *)
Definition last_id : lframe unit :=
  [mk_lrow int64_max 1 tt; mk_lrow int64_max 0 tt].

Definition crowd : lframe unit :=
  flat_map (fun i => [mk_lrow (Z.of_nat i) 1 tt; mk_lrow (Z.of_nat i) 0 tt])
           (seq 1 20).

End Machine.

(** * Properties *)

(** ** The error monad *)

Lemma bind_ok {A B : Type} (c : result A) (k : A -> result B) (b : B) :
  bind c k = Ok b -> exists a, c = Ok a /\ k a = Ok b.
Proof.
  destruct c as [a|e]; simpl; intros H; [eauto | discriminate].
Qed.

Lemma bind_raise {A B : Type} (c : result A) (k : A -> result B) :
  (forall a, exists e, k a = Raise e) -> exists e, bind c k = Raise e.
Proof.
  intros H. destruct c as [a|e]; simpl; eauto.
Qed.

Lemma foldM_cons_raise {A B : Type} (f : B -> A -> result B) x t b :
  (exists e, f b x = Raise e) -> exists e, foldM f (x :: t) b = Raise e.
Proof.
  intros [e He]. simpl. rewrite He. simpl. eauto.
Qed.

(** ** Cross-validation: the call of the predictor *)

Section CrossValidation.

Variables P M G : Type.
Variable env : cv_env P M G.

Lemma unpack2_raises (r : pred_ret) : exists e, unpack2 r = Raise e.
Proof.
  destruct r; simpl; eauto.
Qed.

Lemma cv_fold_raises folds av ga c seed alts up method st fold :
  exists e,
    cv_fold env folds av ga c seed alts up method st fold = Raise e.
Proof.
  unfold cv_fold.
  apply bind_raise; intros train.
  apply bind_raise; intros ug.
  apply bind_raise; intros mn.
  apply bind_raise; intros md.
  apply bind_raise; intros rg.
  destruct (unpack2_raises (fst rg)) as [e He].
  rewrite He. simpl. eauto.
Qed.

Lemma cv_split_nonempty (rnd : np_random G) (data : lframe P) nfold seed g fg :
  cv_split rnd data nfold seed g = Ok fg -> exists x t, fst fg = x :: t.
Proof.
  unfold cv_split, fold_size.
  destruct nfold as [|k]; simpl; [discriminate|].
  intros H. injection H as <-. unfold cv_data.
  rewrite <- cons_seq, map_cons. simpl. eauto.
Qed.

(** C1.  [logit_cv] never returns its pair of dictionaries: with
    [nfold = 0] the fold size divides by zero, and otherwise the first fold
    already fails, at the latest where the value of [asclogit_pred] (a
    triple or [None]) is unpacked into two names. *)
Theorem logit_cv_never_returns :
  forall (data : lframe P) (alt_attr_vars generic_attrs : list string)
         (constant : bool) (nfold : nat) (seed : option Z) (alts : alts_arg)
         (upsample_new : list (Z * string)) (method : string) (g : G),
  exists e,
    logit_cv env data alt_attr_vars generic_attrs constant nfold seed alts
      upsample_new method g = Raise e.
Proof.
  intros. unfold logit_cv.
  destruct (cv_split (cv_rnd env) data nfold seed g) as [fg|e] eqn:E;
    [|simpl; eauto].
  destruct (cv_split_nonempty _ _ _ _ _ E) as (x & t & Hx).
  simpl bind at 1. rewrite Hx.
  match goal with
  | |- exists e, bind (foldM ?f (x :: t) ?b) _ = _ =>
      destruct (foldM_cons_raise f x t b (cv_fold_raises _ _ _ _ _ _ _ _ _ _))
        as [e He];
      rewrite He
  end.
  simpl. eauto.
Qed.

End CrossValidation.

(** ** The distinct case IDs *)

Lemma In_insert_key (k c : Z) (l : list Z) :
  In c (insert_key k l) <-> c = k \/ In c l.
Proof.
  induction l as [|x t IH]; simpl.
  - intuition.
  - destruct (Z.ltb_spec k x); [simpl; intuition|].
    destruct (Z.eqb_spec k x); simpl; [subst; intuition|].
    rewrite IH. intuition.
Qed.

Lemma In_sorted_keys (c : Z) (l : list Z) : In c (sorted_keys l) <-> In c l.
Proof.
  induction l as [|x t IH]; simpl; [tauto|].
  rewrite In_insert_key, IH. intuition.
Qed.

Lemma insert_key_sorted (k : Z) (l : list Z) :
  StronglySorted Z.lt l -> StronglySorted Z.lt (insert_key k l).
Proof.
  induction 1 as [|x t Hs IH Hx]; simpl.
  - repeat constructor.
  - destruct (Z.ltb_spec k x).
    + constructor; [constructor; assumption|].
      constructor; [assumption|].
      rewrite Forall_forall in *. intros y Hy. specialize (Hx y Hy). lia.
    + destruct (Z.eqb_spec k x); [constructor; assumption|].
      constructor; [assumption|].
      rewrite Forall_forall in *. intros y Hy.
      apply In_insert_key in Hy. destruct Hy as [->|Hy]; [lia|auto].
Qed.

Lemma sorted_keys_sorted (l : list Z) : StronglySorted Z.lt (sorted_keys l).
Proof.
  induction l; simpl; [constructor | apply insert_key_sorted; assumption].
Qed.

Lemma sorted_lt_NoDup (l : list Z) : StronglySorted Z.lt l -> NoDup l.
Proof.
  induction 1 as [|x t Hs IH Hx]; constructor; [|assumption].
  intros Hin. rewrite Forall_forall in Hx. specialize (Hx x Hin). lia.
Qed.

Lemma sorted_keys_NoDup (l : list Z) : NoDup (sorted_keys l).
Proof.
  apply sorted_lt_NoDup, sorted_keys_sorted.
Qed.

(** ** Slices of the shuffled case IDs *)

Lemma In_fold_ids (l : list Z) (n i : nat) (c : Z) :
  In c (fold_ids l n i) <->
  exists k, i * n <= k < i * n + n /\ nth_error l k = Some c.
Proof.
  unfold fold_ids. split.
  - intros H. apply In_nth_error in H. destruct H as [j Hj].
    rewrite nth_error_firstn in Hj.
    destruct (Nat.ltb_spec j n); [|discriminate].
    rewrite nth_error_skipn in Hj. exists (i * n + j). split; [lia|assumption].
  - intros (k & Hk & Hc).
    apply nth_error_In with (n := k - i * n).
    rewrite nth_error_firstn.
    destruct (Nat.ltb_spec (k - i * n) n); [|lia].
    rewrite nth_error_skipn. replace (i * n + (k - i * n)) with k by lia.
    assumption.
Qed.

Lemma In_isin_group {P : Type} (ids : list Z) (df : lframe P) (c : Z) :
  In c (group_col (isin_group ids df)) <-> In c ids /\ In c (group_col df).
Proof.
  unfold group_col, isin_group. rewrite !in_map_iff. split.
  - intros (r & Hr & Hin). apply filter_In in Hin. destruct Hin as [Hin Hb].
    apply existsb_exists in Hb. destruct Hb as (x & Hx & Hb).
    apply Z.eqb_eq in Hb. subst. split; [congruence | eauto].
  - intros (Hc & r & Hr & Hin). exists r. split; [assumption|].
    apply filter_In. split; [assumption|].
    apply existsb_exists. exists c. split; [assumption|].
    apply Z.eqb_eq. assumption.
Qed.

Lemma In_cv_data {P : Type} (df : lframe P) caseIDs n nfold i f :
  In (i, f) (cv_data df caseIDs n nfold) <->
  i < nfold /\ f = isin_group (fold_ids caseIDs n i) df.
Proof.
  unfold cv_data. rewrite in_map_iff. split.
  - intros (j & Hj & Hin). injection Hj as -> <-.
    apply in_seq in Hin. split; [lia | reflexivity].
  - intros [Hi ->]. exists i. split; [reflexivity|].
    apply in_seq. lia.
Qed.

Lemma nth_error_NoDup_eq (l : list Z) (k1 k2 : nat) (c : Z) :
  NoDup l -> nth_error l k1 = Some c -> nth_error l k2 = Some c -> k1 = k2.
Proof.
  intros Hnd H1 H2. rewrite NoDup_nth_error in Hnd. apply Hnd.
  - apply nth_error_Some. congruence.
  - congruence.
Qed.

Lemma In_skipn_iff (l : list Z) (m : nat) (c : Z) :
  In c (skipn m l) <-> exists k, m <= k /\ nth_error l k = Some c.
Proof.
  split.
  - intros H. apply In_nth_error in H. destruct H as [j Hj].
    rewrite nth_error_skipn in Hj. exists (m + j). split; [lia|assumption].
  - intros (k & Hk & Hc). apply nth_error_In with (n := k - m).
    rewrite nth_error_skipn. replace (m + (k - m)) with k by lia. assumption.
Qed.

Lemma NoDup_skipn (l : list Z) (m : nat) : NoDup l -> NoDup (skipn m l).
Proof.
  intros H. rewrite <- (firstn_skipn m l) in H.
  apply NoDup_app_remove_l in H. assumption.
Qed.

Lemma case_in_fold_cv_data {P : Type} (df : lframe P) caseIDs n nfold i c :
  case_in_fold (cv_data df caseIDs n nfold) i c <->
  i < nfold /\ In c (fold_ids caseIDs n i) /\ In c (group_col df).
Proof.
  unfold case_in_fold. split.
  - intros (f & Hf & Hc). apply In_cv_data in Hf. destruct Hf as [Hi ->].
    apply In_isin_group in Hc. tauto.
  - intros (Hi & H1 & H2). eexists. split.
    + apply In_cv_data. split; [eassumption | reflexivity].
    + apply In_isin_group. tauto.
Qed.

Lemma slot_of_position (n nfold k : nat) :
  k < nfold * n -> k / n < nfold /\ k / n * n <= k < k / n * n + n.
Proof.
  intros Hk. assert (Hn : n <> 0) by (intros ->; lia).
  pose proof (Nat.div_mod_eq k n) as Hdm.
  pose proof (Nat.mod_upper_bound k n Hn) as Hm.
  split; [|lia].
  apply Nat.Div0.div_lt_upper_bound. lia.
Qed.

(** The folds cut from distinct case IDs: no case in two folds, and the
    cases in no fold are exactly the tail beyond [nfold * n]. *)
Lemma cv_data_disjoint {P : Type} (df : lframe P) caseIDs n nfold c i j :
  NoDup caseIDs ->
  case_in_fold (cv_data df caseIDs n nfold) i c ->
  case_in_fold (cv_data df caseIDs n nfold) j c -> i = j.
Proof.
  intros Hnd Hi Hj.
  apply case_in_fold_cv_data in Hi. destruct Hi as (_ & Hi & _).
  apply case_in_fold_cv_data in Hj. destruct Hj as (_ & Hj & _).
  apply In_fold_ids in Hi. destruct Hi as (k1 & Hk1 & H1).
  apply In_fold_ids in Hj. destruct Hj as (k2 & Hk2 & H2).
  assert (k1 = k2) by (eapply nth_error_NoDup_eq; eassumption).
  subst k2. nia.
Qed.

Lemma cv_data_left_out {P : Type} (df : lframe P) caseIDs n nfold c :
  NoDup caseIDs ->
  (forall x, In x caseIDs <-> In x (group_col df)) ->
  In c (group_col df) ->
  (In c (skipn (nfold * n) caseIDs) <->
   forall i, ~ case_in_fold (cv_data df caseIDs n nfold) i c).
Proof.
  intros Hnd Hcov Hc. split.
  - intros Hin i Hi.
    apply In_skipn_iff in Hin. destruct Hin as (k & Hk & Hck).
    apply case_in_fold_cv_data in Hi. destruct Hi as (Hlt & Hi & _).
    apply In_fold_ids in Hi. destruct Hi as (k' & Hk' & Hck').
    assert (k = k') by (eapply nth_error_NoDup_eq; eassumption).
    subst k'. nia.
  - intros Hno. apply Hcov in Hc.
    destruct (In_nth_error _ _ Hc) as [k Hk].
    apply In_skipn_iff. exists k. split; [|assumption].
    destruct (Nat.le_gt_cases (nfold * n) k) as [Hle|Hlt]; [assumption|].
    exfalso. destruct (@slot_of_position n nfold k Hlt) as [Hs Hr].
    apply (Hno (k / n)). apply case_in_fold_cv_data.
    split; [assumption|]. split; [|apply Hcov; assumption].
    apply In_fold_ids. exists k. split; assumption.
Qed.

Lemma NoDup_firstn_keys (l : list Z) (m : nat) :
  NoDup l -> NoDup (firstn m l).
Proof.
  intros H. rewrite <- (firstn_skipn m l) in H.
  exact (NoDup_app_remove_r _ _ H).
Qed.

Lemma length_sorted_keys (l ids : list Z) :
  NoDup ids -> (forall c, In c l <-> In c ids) ->
  length (sorted_keys l) = length ids.
Proof.
  intros Hnd Hiff. apply Permutation_length.
  apply NoDup_Permutation; [apply sorted_keys_NoDup | exact Hnd|].
  intros c. rewrite In_sorted_keys. apply Hiff.
Qed.

(** The number of distinct cases of fold [i]. *)
Lemma cv_data_fold_size {P : Type} (df : lframe P) caseIDs nfold i f :
  NoDup caseIDs ->
  (forall x, In x caseIDs <-> In x (group_col df)) ->
  nfold <> 0 ->
  In (i, f) (cv_data df caseIDs (length caseIDs / nfold) nfold) ->
  length (sorted_keys (group_col f)) = length caseIDs / nfold.
Proof.
  intros Hnd Hcov Hn Hf. set (n := length caseIDs / nfold) in *.
  apply In_cv_data in Hf. destruct Hf as [Hi ->].
  assert (Hle : nfold * n <= length caseIDs)
    by (unfold n; apply Nat.Div0.mul_div_le).
  assert (Hlen : length (fold_ids caseIDs n i) = n).
  { unfold fold_ids. rewrite length_firstn, length_skipn. nia. }
  rewrite <- Hlen at 2.
  apply length_sorted_keys.
  - unfold fold_ids. apply NoDup_firstn_keys, NoDup_skipn. exact Hnd.
  - intros c. rewrite In_isin_group. split; [tauto|].
    intros Hc. split; [exact Hc|]. apply Hcov.
    apply In_fold_ids in Hc. destruct Hc as (k & _ & Hk).
    exact (nth_error_In _ _ Hk).
Qed.

(** C7, as the code has it.  With [nfold >= 1] the split succeeds and cuts
    the [nfold] fold datasets numbered from 0, each of
    [ncs / nfold] distinct cases ([ncs] being the number of distinct case
    IDs, the quotient rounded down); no case belongs to two folds; the
    cases of the data that belong to no fold are exactly [ncs mod nfold]
    distinct cases; and the folds partition the cases if and only if that
    remainder is zero. *)
Theorem cv_split_folds :
  forall (P G : Type) (rnd : np_random G) (data : lframe P) (nfold : nat)
         (seed : option Z) (g : G),
    shuffle_sound rnd ->
    1 <= nfold ->
    exists folds g' left_out,
      cv_split rnd data nfold seed g = Ok (folds, g') /\
      map fst folds = seq 0 nfold /\
      (forall i f,
          In (i, f) folds ->
          length (sorted_keys (group_col f))
          = length (sorted_keys (group_col data)) / nfold) /\
      (forall c i j,
          case_in_fold folds i c -> case_in_fold folds j c -> i = j) /\
      NoDup left_out /\
      length left_out = length (sorted_keys (group_col data)) mod nfold /\
      (forall c, In c left_out <->
                 In c (group_col data) /\
                 forall i, ~ case_in_fold folds i c) /\
      (folds_partition data folds <->
       length (sorted_keys (group_col data)) mod nfold = 0).
Proof.
  intros P G rnd data nfold seed g Hsh Hn.
  unfold cv_split, fold_size.
  destruct (Nat.eqb_spec nfold 0) as [->|Hn0]; [lia|].
  set (keys := sorted_keys (group_col data)).
  set (sh := rand_shuffle rnd (seed_if_given rnd seed g) keys).
  set (caseIDs := fst sh).
  set (n := length caseIDs / nfold).
  assert (Hperm : Permutation keys caseIDs) by apply Hsh.
  assert (Hnd : NoDup caseIDs)
    by (eapply Permutation_NoDup; [exact Hperm | apply sorted_keys_NoDup]).
  assert (Hcov : forall x, In x caseIDs <-> In x (group_col data)).
  { intros x. rewrite <- (In_sorted_keys x (group_col data)). fold keys.
    split.
    - apply Permutation_in. apply Permutation_sym. exact Hperm.
    - apply Permutation_in. exact Hperm. }
  assert (Hlen : length caseIDs = length keys)
    by (symmetry; apply Permutation_length; assumption).
  assert (Hout : length (skipn (nfold * n) caseIDs) = length keys mod nfold).
  { rewrite length_skipn, <- Hlen. unfold n.
    pose proof (Nat.div_mod_eq (length caseIDs) nfold). lia. }
  assert (Hleft : forall c,
             In c (skipn (nfold * n) caseIDs) <->
             In c (group_col data) /\
             forall i, ~ case_in_fold (cv_data data caseIDs n nfold) i c).
  { intros c. split.
    - intros Hc.
      assert (Hd : In c (group_col data)).
      { apply Hcov. apply In_skipn_iff in Hc. destruct Hc as (k & _ & Hk).
        exact (nth_error_In _ _ Hk). }
      split; [exact Hd|].
      exact (proj1 (@cv_data_left_out P data caseIDs n nfold c Hnd Hcov Hd)
               Hc).
    - intros [Hd Hno].
      exact (proj2 (@cv_data_left_out P data caseIDs n nfold c Hnd Hcov Hd)
               Hno). }
  exists (cv_data data caseIDs n nfold), (snd sh),
         (skipn (nfold * n) caseIDs).
  cbn [bind]. split; [reflexivity|].
  split.
  { unfold cv_data. rewrite map_map. cbn [fst]. apply map_id. }
  split.
  { intros i f Hf. rewrite <- Hlen.
    exact (@cv_data_fold_size P data caseIDs nfold i f Hnd Hcov Hn0 Hf). }
  split; [intros c i j; apply cv_data_disjoint; assumption|].
  split; [apply NoDup_skipn; assumption|].
  split; [assumption|].
  split; [exact Hleft|].
  split.
  - intros Hpart.
    destruct (Nat.eq_dec (length keys mod nfold) 0) as [Hz|Hnz];
      [exact Hz|].
    exfalso.
    assert (Hex : exists c, In c (skipn (nfold * n) caseIDs)).
    { destruct (skipn (nfold * n) caseIDs) as [|c t];
        [cbn in Hout; lia | exists c; left; reflexivity]. }
    destruct Hex as [c Hc].
    apply Hleft in Hc. destruct Hc as [Hd Hno].
    destruct (Hpart c Hd) as (i & Hi & _). exact (Hno i Hi).
  - intros Hz c Hc.
    assert (Hnil : skipn (nfold * n) caseIDs = []).
    { apply length_zero_iff_nil. rewrite Hout. assumption. }
    pose proof (@cv_data_left_out P data caseIDs n nfold c Hnd Hcov Hc)
      as Hiff.
    rewrite Hnil in Hiff.
    apply Hcov in Hc. destruct (In_nth_error _ _ Hc) as [k Hk].
    assert (Hlt : k < nfold * n).
    { destruct (Nat.le_gt_cases (nfold * n) k) as [Hle|Hlt]; [|assumption].
      exfalso. assert (Hin : In c (skipn (nfold * n) caseIDs))
        by (apply In_skipn_iff; eauto).
      rewrite Hnil in Hin. contradiction. }
    destruct (@slot_of_position n nfold k Hlt) as [Hs Hr].
    assert (Hfold : case_in_fold (cv_data data caseIDs n nfold) (k / n) c).
    { apply case_in_fold_cv_data. split; [assumption|].
      split; [|apply Hcov; assumption].
      apply In_fold_ids. exists k. split; assumption. }
    exists (k / n). split; [exact Hfold|].
    intros j Hj.
    exact (@cv_data_disjoint P data caseIDs n nfold c j (k / n) Hnd Hj
             Hfold).
Qed.

Lemma first_random_shuffle_sound : shuffle_sound first_random.
Proof.
  intros g l. simpl. apply Permutation_refl.
Qed.

Lemma first_random_choice_sound : choice_sound first_random.
Proof.
  intros g n k Hnk. simpl. split; [apply repeat_length|].
  apply Forall_forall. intros i Hi.
  destruct Hnk as [Hn | Hk].
  - apply repeat_spec in Hi. lia.
  - subst k. contradiction.
Qed.

(** [cv_split_folds] on three cases cut into two folds of one case each;
    one case is left out. *)
Lemma cv_split_folds_witness :
  shuffle_sound first_random /\ 1 <= 2 /\
  exists folds g' (left_out : list Z),
    cv_split first_random three_cases 2 None tt = Ok (folds, g') /\
    map fst folds = [0; 1] /\
    length left_out = 1 /\
    ~ folds_partition three_cases folds.
Proof.
  split; [exact first_random_shuffle_sound|].
  split; [lia|].
  destruct (@cv_split_folds unit unit first_random three_cases 2 None tt
              first_random_shuffle_sound (le_S _ _ (le_n 1)))
    as (folds & g' & left_out & Hs & Hk & _ & _ & _ & Hl & _ & Hp).
  exists folds, g', left_out. split; [exact Hs|]. split; [exact Hk|].
  split; [exact Hl|].
  intros H. apply Hp in H. cbn in H. discriminate.
Defined.

(** C7 as stated fails: of three cases cut into two folds, case 3 is in no
    fold. *)
Lemma cv_split_not_partition :
  exists folds g',
    cv_split first_random three_cases 2 None tt = Ok (folds, g') /\
    ~ folds_partition three_cases folds.
Proof.
  eexists. eexists. split; [reflexivity|].
  intros Hp. destruct (Hp 3%Z) as (i & (f & Hin & Hc) & _).
  - simpl. tauto.
  - simpl in Hin. destruct Hin as [Hin | [Hin | []]];
      inversion Hin; subst; simpl in Hc; intuition discriminate.
Qed.

(** ** Dictionaries *)

Section Dict.

Variable V : Type.

Lemma dict_get_set_same (k : string) (v : V) (d : dict V) :
  dict_get k (dict_set k v d) = Some v.
Proof.
  induction d as [|[k' v'] t IH]; simpl.
  - rewrite String.eqb_refl. reflexivity.
  - destruct (String.eqb_spec k' k) as [->|Hne]; simpl.
    + rewrite String.eqb_refl. reflexivity.
    + destruct (String.eqb_spec k' k); [contradiction | exact IH].
Qed.

Lemma dict_get_set_other (k k' : string) (v : V) (d : dict V) :
  k <> k' -> dict_get k' (dict_set k v d) = dict_get k' d.
Proof.
  intros Hne. induction d as [|[k0 v0] t IH]; simpl.
  - destruct (String.eqb_spec k k'); [contradiction | reflexivity].
  - destruct (String.eqb_spec k0 k) as [->|Hk]; simpl.
    + destruct (String.eqb_spec k k'); [contradiction | reflexivity].
    + destruct (String.eqb_spec k0 k'); [reflexivity | exact IH].
Qed.

Lemma dict_keys_set_present (k : string) (v : V) (d : dict V) :
  In k (dict_keys d) -> dict_keys (dict_set k v d) = dict_keys d.
Proof.
  unfold dict_keys. induction d as [|[k0 v0] t IH]; simpl; [tauto|].
  intros Hin. destruct (String.eqb_spec k0 k) as [->|Hk]; simpl.
  - reflexivity.
  - f_equal. apply IH. destruct Hin; [contradiction | assumption].
Qed.

Lemma dict_keys_set_absent (k : string) (v : V) (d : dict V) :
  ~ In k (dict_keys d) -> dict_keys (dict_set k v d) = dict_keys d ++ [k].
Proof.
  unfold dict_keys. induction d as [|[k0 v0] t IH]; simpl; [reflexivity|].
  intros Hin. destruct (String.eqb_spec k0 k) as [->|Hk]; simpl.
  - tauto.
  - f_equal. apply IH. tauto.
Qed.

Lemma dict_get_In_keys (k : string) (d : dict V) :
  In k (dict_keys d) <-> exists v, dict_get k d = Some v.
Proof.
  unfold dict_keys. induction d as [|[k0 v0] t IH]; simpl.
  - split; [tauto | intros [v H]; discriminate].
  - destruct (String.eqb_spec k0 k) as [->|Hk].
    + split; [eauto | tauto].
    + rewrite <- IH. tauto.
Qed.

Lemma params_fold_absent (pairs : list (string * V)) (d : dict V) (k : string) :
  ~ In k (map fst pairs) ->
  dict_get k (fold_left (fun d kv => dict_set (fst kv) (snd kv) d) pairs d)
  = dict_get k d.
Proof.
  revert d. induction pairs as [|[k1 v1] t IH]; simpl; intros d Hk;
    [reflexivity|].
  rewrite IH by tauto. apply dict_get_set_other. tauto.
Qed.

Lemma params_fold_lookup (pairs : list (string * V)) (d : dict V) k v :
  NoDup (map fst pairs) -> In (k, v) pairs ->
  dict_get k (fold_left (fun d kv => dict_set (fst kv) (snd kv) d) pairs d)
  = Some v.
Proof.
  revert d. induction pairs as [|[k1 v1] t IH]; simpl; intros d Hnd Hin;
    [contradiction|].
  inversion Hnd as [|? ? Hnot Hnd']; subst.
  destruct Hin as [Heq|Hin].
  - injection Heq as -> ->. rewrite params_fold_absent by assumption.
    apply dict_get_set_same.
  - apply IH; assumption.
Qed.

End Dict.

(** ** The estimator and its fallback *)

Lemma full_fit_ok_dec {M : Type} (pl : pylogit M) model0 numCoef disp :
  full_fit_ok pl model0 numCoef disp \/ ~ full_fit_ok pl model0 numCoef disp.
Proof.
  unfold full_fit_ok.
  destruct (snd (fit_mle pl model0 numCoef)) as [e|];
    [right; intros [H _]; discriminate|].
  destruct disp; [|left; split; [reflexivity | left; reflexivity]].
  destruct (is_ok _); [left | right]; intuition discriminate.
Qed.

(** C6, as the code has it.  When the [try] block runs through, the result
    is the dictionary with [just_point = False] and the fitted coefficients
    by name.  Otherwise the point-estimate fit is run on the object the
    failed attempt left: if it returns, the result has [just_point = True]
    and the point estimates by name; if it raises, that exception is the
    outcome.  The exception of the first attempt never is. *)
Theorem logit_est_disp_outcomes :
  forall (M : Type) (pl : pylogit M) (model0 : M) (numCoef : nat) (nalt : Z)
         (disp : bool),
    let m1 := fst (fit_mle pl model0 numCoef) in
    let m2 := fst (fit_mle_point pl m1 numCoef) in
    (full_fit_ok pl model0 numCoef disp ->
     logit_est_disp pl model0 numCoef nalt disp
     = Ok (mk_modelDict false (params_of (coefs pl m1)) m1) /\
     (NoDup (map fst (coefs pl m1)) ->
      forall k v, In (k, v) (coefs pl m1) ->
                  dict_get k (params_of (coefs pl m1)) = Some v)) /\
    (~ full_fit_ok pl model0 numCoef disp ->
     (forall beta f,
         snd (fit_mle_point pl m1 numCoef) = Ok (beta, f) ->
         nalt <> 0%Z ->
         logit_est_disp pl model0 numCoef nalt disp
         = Ok (mk_modelDict true
                 (params_of (combine (ind_var_names pl m2) beta)) m2)) /\
     (forall e,
         snd (fit_mle_point pl m1 numCoef) = Raise e ->
         logit_est_disp pl model0 numCoef nalt disp = Raise e)).
Proof.
  intros M pl model0 numCoef nalt disp m1 m2. subst m1 m2.
  unfold full_fit_ok, logit_est_disp, est_fallback.
  destruct (fit_mle pl model0 numCoef) as [m1 r]. simpl fst. simpl snd.
  split.
  - intros [Hr Hd]. subst r. split.
    + destruct Hd as [->|Hs]; [reflexivity|].
      destruct disp; [|reflexivity].
      destruct (get_statsmodels_summary pl m1); [reflexivity|discriminate].
    + intros Hnd k v Hin. unfold params_of.
      apply params_fold_lookup; assumption.
  - intros Hno.
    assert (Hfb : forall X (a b : X),
               match r with
               | None => match (if disp
                                then get_statsmodels_summary pl m1
                                else Ok tt) with
                         | Ok _ => a
                         | Raise _ => b
                         end
               | Some _ => b
               end = b).
    { intros X a b. destruct r as [e|]; [reflexivity|].
      destruct disp.
      - destruct (get_statsmodels_summary pl m1); [|reflexivity].
        exfalso. apply Hno. split; [reflexivity | right; reflexivity].
      - exfalso. apply Hno. split; [reflexivity | left; reflexivity]. }
    rewrite Hfb.
    destruct (fit_mle_point pl m1 numCoef) as [m2 pr]. simpl fst. simpl snd.
    split.
    + intros beta f -> Hnalt. simpl.
      destruct (Z.eqb_spec nalt 0); [contradiction | reflexivity].
    + intros e ->. reflexivity.
Qed.

(** [logit_est_disp_outcomes] on a model whose full fit fails and whose
    point fit succeeds. *)
Lemma logit_est_disp_outcomes_witness :
  ~ full_fit_ok point_only_pylogit tt 2 false /\
  logit_est_disp point_only_pylogit tt 2 4 false
  = Ok (mk_modelDict true
          (params_of (combine ["a"; "b"]%string [1%R; 2%R])) tt).
Proof.
  assert (Hno : ~ full_fit_ok point_only_pylogit tt 2 false).
  { intros [H _]. simpl in H. discriminate. }
  split; [exact Hno|].
  destruct (logit_est_disp_outcomes point_only_pylogit tt 2 4 false)
    as [_ H2].
  destruct (H2 Hno) as [H3 _].
  apply (H3 [1%R; 2%R] 0%R); [reflexivity | discriminate].
Defined.

(** C6 as stated fails: when the point-estimate fit raises as well, no
    dictionary is returned. *)
Lemma logit_est_disp_no_dict :
  ~ exists d, logit_est_disp failing_pylogit tt 2 4 false = Ok d.
Proof.
  intros [d H]. simpl in H. discriminate.
Qed.

(** ** The specification builder *)

Lemma dict_set_absent {V : Type} (k : string) (v : V) (d : dict V) :
  ~ In k (dict_keys d) -> dict_set k v d = d ++ [(k, v)].
Proof.
  unfold dict_keys. induction d as [|[k0 v0] t IH]; simpl; [reflexivity|].
  intros Hin. destruct (String.eqb_spec k0 k) as [->|Hk]; [tauto|].
  f_equal. apply IH. tauto.
Qed.

Lemma dict_keys_app {V : Type} (d1 d2 : dict V) :
  dict_keys (d1 ++ d2) = dict_keys d1 ++ dict_keys d2.
Proof.
  unfold dict_keys. apply map_app.
Qed.

Lemma dict_get_app {V : Type} (k : string) (d1 d2 : dict V) :
  dict_get k (d1 ++ d2) =
  match dict_get k d1 with
  | Some v => Some v
  | None => dict_get k d2
  end.
Proof.
  induction d1 as [|[k0 v0] t IH]; simpl; [reflexivity|].
  destruct (String.eqb k0 k); [reflexivity | exact IH].
Qed.

Lemma dict_get_entries {V : Type} (f : string -> V) (keys : list string) k :
  dict_get k (map (fun x => (x, f x)) keys)
  = if in_dec string_dec k keys then Some (f k) else None.
Proof.
  induction keys as [|x t IH]; simpl; [reflexivity|].
  destruct (String.eqb_spec x k) as [->|Hne].
  - destruct (string_dec k k); [reflexivity | contradiction].
  - rewrite IH. destruct (string_dec x k); [contradiction|].
    destruct (in_dec string_dec k t); reflexivity.
Qed.

(** A loop that stores one entry per variable, on variables that are
    distinct and not yet keys, appends the entries in order. *)
Lemma fold_set_fresh {V : Type} (f : string -> V) (vars : list string)
  (d : dict V) :
  NoDup (dict_keys d ++ vars) ->
  fold_left (fun d var => dict_set var (f var) d) vars d
  = d ++ map (fun x => (x, f x)) vars.
Proof.
  revert d. induction vars as [|x t IH]; simpl; intros d Hnd.
  - symmetry. apply app_nil_r.
  - assert (Hx : ~ In x (dict_keys d)).
    { apply NoDup_remove_2 in Hnd. intros Hin. apply Hnd.
      apply in_or_app. left. assumption. }
    rewrite dict_set_absent by assumption.
    rewrite IH.
    + rewrite <- app_assoc. reflexivity.
    + rewrite dict_keys_app. change (dict_keys [(x, f x)]) with [x].
      rewrite <- app_assoc. simpl. assumption.
Qed.

Lemma mapM_ok {A B : Type} (f : A -> result B) (g : A -> B) (l : list A) :
  (forall x, In x l -> f x = Ok (g x)) -> mapM f l = Ok (map g l).
Proof.
  induction l as [|x t IH]; simpl; intros H; [reflexivity|].
  rewrite (H x) by tauto. simpl. rewrite IH by auto. reflexivity.
Qed.

Lemma non_ref_ok (alts : alts_arg) (ref_alt_idx : Z) (f : string -> string) :
  alts_cover alts ->
  non_ref (alts_dict alts) (alts_len alts) ref_alt_idx f
  = Ok (map f (non_ref_names alts ref_alt_idx)).
Proof.
  intros Hc. unfold non_ref, non_ref_names. rewrite map_map.
  apply mapM_ok. intros i Hi.
  apply filter_In in Hi. destruct Hi as [Hi _].
  apply in_map_iff in Hi. destruct Hi as (j & <- & Hj).
  apply in_seq in Hj. destruct (Hc j) as [a Ha]; [lia|].
  unfold alts_getitem, alt_name. rewrite Ha. reflexivity.
Qed.

Lemma filter_out_one (x : Z) (l : list Z) :
  NoDup l -> In x l ->
  length (filter (fun y => negb (Z.eqb y x)) l) = length l - 1.
Proof.
  induction 1 as [|y t Hy Hnd IH]; simpl; [tauto|].
  intros [->|Hin].
  - rewrite Z.eqb_refl. simpl.
    rewrite forallb_filter_id.
    + lia.
    + apply forallb_forall. intros z Hz.
      destruct (Z.eqb_spec z x); [subst; contradiction | reflexivity].
  - destruct (Z.eqb_spec y x) as [->|Hne]; [contradiction|]. simpl.
    rewrite IH by assumption. destruct t; [contradiction | simpl; lia].
Qed.

Lemma length_non_ref_names (alts : alts_arg) (ref_alt_idx : Z) :
  (0 <= ref_alt_idx < Z.of_nat (alts_len alts))%Z ->
  length (non_ref_names alts ref_alt_idx) = alts_len alts - 1.
Proof.
  intros Hr. unfold non_ref_names. rewrite length_map, filter_out_one.
  - rewrite length_map, length_seq. reflexivity.
  - apply Injective_map_NoDup; [|apply seq_NoDup].
    intros a b Hab. lia.
  - apply in_map_iff. exists (Z.to_nat ref_alt_idx).
    split; [lia|]. apply in_seq. lia.
Qed.

Lemma foldM_spec_alt_var (d : list (Z * string)) (vars : list string)
  (sn : specification_t * names_t) :
  foldM (spec_alt_var d) vars sn
  = Ok (fold_left (fun s var => dict_set var [Shared (map snd d)] s)
                  vars (fst sn),
        fold_left (fun n var => dict_set var [var] n) vars (snd sn)).
Proof.
  revert sn. induction vars as [|x t IH]; intros [s n]; simpl;
    [reflexivity|].
  rewrite IH. reflexivity.
Qed.

Lemma foldM_spec_generic_var (alts : alts_arg) (ref_alt_idx : Z)
  (vars : list string) (sn : specification_t * names_t) :
  alts_cover alts ->
  foldM (spec_generic_var (alts_dict alts) (alts_len alts) ref_alt_idx)
        vars sn
  = Ok (fold_left
          (fun s var =>
             dict_set var (map Own (non_ref_names alts ref_alt_idx)) s)
          vars (fst sn),
        fold_left
          (fun n var =>
             dict_set var
               (map (fun a => (var ++ " for " ++ a)%string)
                    (non_ref_names alts ref_alt_idx)) n)
          vars (snd sn)).
Proof.
  intros Hc. revert sn. induction vars as [|x t IH]; intros [s n]; simpl;
    [reflexivity|].
  unfold spec_generic_var at 1. rewrite !non_ref_ok by assumption. simpl.
  rewrite map_id. rewrite IH. reflexivity.
Qed.

Lemma list_sum_const {A : Type} (f : A -> nat) (c : nat) (l : list A) :
  (forall x, In x l -> f x = c) -> list_sum (map f l) = length l * c.
Proof.
  induction l as [|x t IH]; simpl; intros H; [reflexivity|].
  rewrite H by tauto. rewrite IH by auto. reflexivity.
Qed.

Lemma count_coefs_expected av ga c alts ref_alt_idx :
  count_coefs (expected_specification av ga c alts ref_alt_idx)
  = length av
    + (length ga + (if c then 1 else 0))
      * length (non_ref_names alts ref_alt_idx).
Proof.
  unfold count_coefs, expected_specification.
  rewrite !map_app, !list_sum_app, !map_map. simpl.
  rewrite (@list_sum_const _ _ 1 av) by reflexivity.
  rewrite (@list_sum_const _ _ (length (non_ref_names alts ref_alt_idx)) ga)
    by (intros; apply length_map).
  destruct c; simpl; rewrite ?length_map; lia.
Qed.

Lemma dict_keys_entries {V : Type} (f : string -> V) (l : list string) :
  dict_keys (map (fun x => (x, f x)) l) = l.
Proof.
  unfold dict_keys. rewrite map_map. simpl. apply map_id.
Qed.

Lemma build_specification_expected (av ga : list string) (c : bool)
  (alts : alts_arg) (ref_alt_idx : Z) :
  NoDup (av ++ ga ++ (if c then ["intercept"%string] else [])) ->
  alts_cover alts ->
  build_specification av ga c alts ref_alt_idx
  = Ok (expected_specification av ga c alts ref_alt_idx,
        expected_names av ga c alts ref_alt_idx).
Proof.
  intros Hnd Hc. unfold build_specification.
  assert (Hag : NoDup (av ++ ga)).
  { rewrite app_assoc in Hnd. apply NoDup_app_remove_r in Hnd. assumption. }
  assert (Ha : NoDup av) by (apply NoDup_app_remove_r in Hag; assumption).
  rewrite foldM_spec_alt_var. simpl bind. cbv beta.
  rewrite foldM_spec_generic_var by assumption. simpl bind. cbv beta.
  simpl fst. simpl snd.
  rewrite (fold_set_fresh (fun _ => [Shared (map snd (alts_dict alts))]))
    by (simpl; assumption).
  rewrite (fold_set_fresh (fun var : string => [var]))
    by (simpl; assumption).
  simpl app.
  rewrite (fold_set_fresh
             (fun _ : string => map Own (non_ref_names alts ref_alt_idx)))
    by (rewrite dict_keys_entries; assumption).
  rewrite (fold_set_fresh
             (fun var : string =>
                map (fun a => (var ++ " for " ++ a)%string)
                    (non_ref_names alts ref_alt_idx)))
    by (rewrite dict_keys_entries; assumption).
  unfold expected_specification, expected_names.
  destruct c; [|rewrite !app_nil_r; reflexivity].
  assert (Hi : ~ In "intercept"%string (av ++ ga)).
  { rewrite app_assoc in Hnd. apply NoDup_remove_2 in Hnd.
    rewrite app_nil_r in Hnd. assumption. }
  unfold spec_constant. rewrite !non_ref_ok by assumption. simpl bind.
  rewrite map_id. simpl fst. simpl snd.
  rewrite !dict_set_absent
    by (rewrite dict_keys_app, !dict_keys_entries; assumption).
  rewrite <- !app_assoc. reflexivity.
Qed.

(** C5, as the code has it.  For variable names that are pairwise distinct
    (and none called ['intercept'] when the constant is included), an [alts]
    that names every index of [range(N)], and a reference index within
    [range(N)]: the two dictionaries handed to pylogit are the expected
    ones, the alternatives other than the reference one are [N - 1], and
    whenever pylogit builds the model, [numCoef] is
    [A + (G + (1 if c else 0)) * (N - 1)]. *)
Theorem logit_spec_numCoef :
  forall (D M : Type) (create : D -> specification_t -> names_t -> result M)
         (long_data_df : D) (alt_attr_vars generic_attrs : list string)
         (constant : bool) (alts : alts_arg) (ref_alt_idx : Z),
    NoDup (alt_attr_vars ++ generic_attrs
           ++ (if constant then ["intercept"%string] else [])) ->
    alts_cover alts ->
    (0 <= ref_alt_idx < Z.of_nat (alts_len alts))%Z ->
    build_specification alt_attr_vars generic_attrs constant alts ref_alt_idx
    = Ok (expected_specification alt_attr_vars generic_attrs constant alts
            ref_alt_idx,
          expected_names alt_attr_vars generic_attrs constant alts
            ref_alt_idx) /\
    length (non_ref_names alts ref_alt_idx) = alts_len alts - 1 /\
    forall m,
      create long_data_df
        (expected_specification alt_attr_vars generic_attrs constant alts
           ref_alt_idx)
        (expected_names alt_attr_vars generic_attrs constant alts
           ref_alt_idx) = Ok m ->
      logit_spec create long_data_df alt_attr_vars generic_attrs constant
        alts ref_alt_idx
      = Ok (m, length alt_attr_vars
               + (length generic_attrs + (if constant then 1 else 0))
                 * (alts_len alts - 1)).
Proof.
  intros D M create df av ga c alts ref Hnd Hc Hr.
  pose proof (@build_specification_expected av ga c alts ref Hnd Hc) as Hb.
  pose proof (@length_non_ref_names alts ref Hr) as Hl.
  split; [assumption|]. split; [assumption|].
  intros m Hm. unfold logit_spec. rewrite Hb. simpl bind. simpl fst.
  simpl snd. rewrite Hm. simpl. rewrite count_coefs_expected, Hl.
  reflexivity.
Qed.

Lemma default_alts_cover : alts_cover default_alts.
Proof.
  intros i Hi. simpl in Hi.
  do 4 (destruct i as [|i]; [simpl; eauto|]). lia.
Qed.

(** [logit_spec_numCoef] on one alternative-specific variable, one generic
    variable and the constant, over the four default alternatives. *)
Lemma logit_spec_numCoef_witness :
  NoDup (["time"%string] ++ ["age"%string] ++ ["intercept"%string]) /\
  alts_cover default_alts /\
  (0 <= 0 < Z.of_nat (alts_len default_alts))%Z /\
  logit_spec (fun (_ : unit) _ _ => Ok tt) tt ["time"%string] ["age"%string]
    true default_alts 0
  = Ok (tt, 7).
Proof.
  assert (Hnd : NoDup (["time"%string] ++ ["age"%string] ++ ["intercept"%string])).
  { simpl. repeat constructor; simpl; intuition discriminate. }
  assert (Hr : (0 <= 0 < Z.of_nat (alts_len default_alts))%Z)
    by (simpl; lia).
  split; [exact Hnd|]. split; [exact default_alts_cover|].
  split; [exact Hr|].
  destruct (@logit_spec_numCoef unit unit (fun _ _ _ => Ok tt) tt
              ["time"%string] ["age"%string] true default_alts 0%Z
              Hnd default_alts_cover Hr) as (_ & _ & H).
  exact (H tt eq_refl).
Defined.

(** C5 as stated fails: with a reference index outside [range(N)] no
    alternative is left out, and [numCoef] is [A + (G + 1) * N]. *)
Lemma logit_spec_ref_out_of_range :
  logit_spec (fun (_ : unit) _ _ => Ok tt) tt ["time"%string] ["age"%string]
    true default_alts 4
  = Ok (tt, 9) /\
  9 <> 1 + (1 + 1) * (4 - 1).
Proof.
  split; [reflexivity | lia].
Qed.

(** ** The predictor: dummies and the utility loop *)

Lemma dict_set_values {V : Type} (Q : V -> Prop) (k : string) (v : V)
  (d : dict V) :
  Forall (fun kc => Q (snd kc)) d -> Q v ->
  Forall (fun kc => Q (snd kc)) (dict_set k v d).
Proof.
  intros Hd Hv. induction Hd as [|[k0 v0] t H0 Ht IH]; simpl.
  - constructor; [assumption | constructor].
  - destruct (String.eqb k0 k); constructor; assumption.
Qed.

Lemma dict_get_values {V : Type} (Q : V -> Prop) (k : string) (v : V)
  (d : dict V) :
  Forall (fun kc => Q (snd kc)) d -> dict_get k d = Some v -> Q v.
Proof.
  induction 1 as [|[k0 v0] t H0 Ht IH]; simpl; [discriminate|].
  destruct (String.eqb k0 k); [|exact IH].
  intros H. injection H as <-. assumption.
Qed.

Lemma In_dict_keys_set {V : Type} (k a : string) (v : V) (d : dict V) :
  In a (dict_keys (dict_set k v d)) <-> In a (dict_keys d) \/ a = k.
Proof.
  destruct (in_dec string_dec k (dict_keys d)) as [Hin|Hout].
  - rewrite dict_keys_set_present by assumption.
    split; [tauto | intros [H | Hk]; [|subst a]; assumption].
  - rewrite dict_keys_set_absent by assumption.
    rewrite in_app_iff. simpl. intuition.
Qed.

Lemma length_list_set {A : Type} (i : nat) (v : A) (l : list A) :
  length (list_set i v l) = length l.
Proof.
  revert i. induction l as [|x t IH]; intros [|i]; simpl; auto.
Qed.

Lemma py_list_set_ok {A : Type} (l : list A) (i : Z) (v : A) :
  (- Z.of_nat (length l) <= i < Z.of_nat (length l))%Z ->
  exists l', py_list_set l i v = Ok l' /\ length l' = length l.
Proof.
  intros Hi. unfold py_list_set.
  destruct (Z.ltb_spec i 0).
  - destruct (Z.ltb_spec (i + Z.of_nat (length l)) 0); [lia|].
    destruct (Z.leb_spec (Z.of_nat (length l)) (i + Z.of_nat (length l)));
      [lia|].
    simpl. eexists. split; [reflexivity | apply length_list_set].
  - destruct (Z.ltb_spec i 0); [lia|].
    destruct (Z.leb_spec (Z.of_nat (length l)) i); [lia|].
    simpl. eexists. split; [reflexivity | apply length_list_set].
Qed.

Lemma length_tile {A : Type} (tmp : list A) (k : nat) :
  length (tile tmp k) = k * length tmp.
Proof.
  unfold tile. induction k as [|k IH]; simpl; [reflexivity|].
  rewrite length_app, IH. reflexivity.
Qed.

Lemma foldM_add_dummy (nalt k : nat) (l : list (Z * string)) :
  Forall (fun kv : Z * string =>
            (- Z.of_nat nalt <= fst kv < Z.of_nat nalt)%Z) l ->
  forall fl dm,
    Forall (fun kc : string * list R => length (snd kc) = k * nalt) dm ->
    exists dm',
      foldM (add_dummy nalt k) l (fl, dm)
      = Ok (fl ++ map (fun kv => (" for " ++ snd kv)%string) l, dm') /\
      (forall a, In a (dict_keys dm') <->
                 In a (dict_keys dm) \/ In a (map snd l)) /\
      Forall (fun kc : string * list R => length (snd kc) = k * nalt) dm'.
Proof.
  induction 1 as [|[idx name] t Hr Ht IH]; intros fl dm Hdm.
  - exists dm. simpl. rewrite app_nil_r. intuition.
  - simpl in Hr.
    destruct (@py_list_set_ok R (repeat 0%R nalt) idx 1%R)
      as (tmp & Htmp & Hlen); [rewrite repeat_length; assumption|].
    rewrite repeat_length in Hlen.
    assert (Hstep : add_dummy nalt k (fl, dm) (idx, name)
                    = Ok (fl ++ [(" for " ++ name)%string],
                          dict_set name (tile tmp k) dm))
      by (unfold add_dummy; rewrite Htmp; reflexivity).
    cbn [foldM]. rewrite Hstep. cbn [bind].
    destruct (IH (fl ++ [(" for " ++ name)%string])
                 (dict_set name (tile tmp k) dm)) as (dm' & He & Hk & Hl).
    { apply (dict_set_values (fun c : list R => length c = k * nalt));
        [assumption|]. rewrite length_tile, Hlen. reflexivity. }
    exists dm'. split; [|split; [|assumption]].
    + etransitivity; [exact He|].
      rewrite <- app_assoc. reflexivity.
    + intros a. rewrite Hk, In_dict_keys_set. simpl. intuition.
Qed.

Section UtilityLoop.

Variable alts : alts_arg.
Variable data_in : nframe.
Variable dm : dict (list R).
Variable n : nat.

Hypothesis dm_keys : forall a, In a (alt_names alts) -> In a (dict_keys dm).
Hypothesis dm_len :
  Forall (fun kc : string * list R => length (snd kc) = n) dm.

(** What the loop keeps true of the frame it updates. *)
Definition loop_inv (data : nframe) : Prop :=
  (forall a, In a (dict_keys data) <-> is_column data_in a) /\
  Forall (fun kc : string * list R => length (snd kc) = n) data.

Lemma loop_inv_column (data : nframe) (a : string) :
  loop_inv data -> is_column data_in a ->
  exists col, dict_get a data = Some col /\ length col = n.
Proof.
  intros [Hk Hl] Ha. apply Hk in Ha. apply dict_get_In_keys in Ha.
  destruct Ha as [col Hcol]. exists col. split; [assumption|].
  exact (@dict_get_values _ (fun c : list R => length c = n) a col data
           Hl Hcol).
Qed.

Lemma loop_inv_not_column (data : nframe) (a : string) :
  loop_inv data -> ~ is_column data_in a -> dict_get a data = None.
Proof.
  intros [Hk _] Ha. destruct (dict_get a data) as [c|] eqn:E; [|reflexivity].
  exfalso. apply Ha, Hk, dict_get_In_keys. eauto.
Qed.

Lemma loop_inv_set_utility (data : nframe) (u : list R) :
  loop_inv data -> length u = n ->
  loop_inv (dict_set "utility" u data).
Proof.
  intros [Hk Hl] Hu. split.
  - intros a. rewrite In_dict_keys_set, Hk. unfold is_column. tauto.
  - apply (dict_set_values (fun c : list R => length c = n)); assumption.
Qed.

Lemma length_series_add (a b : list R) :
  length a = n -> length b = n -> length (series_add a b) = n.
Proof.
  intros Ha Hb. unfold series_add.
  rewrite length_map, length_combine, Ha, Hb. apply Nat.min_id.
Qed.

Lemma series_array_same (f : R -> R -> R) (s a : list R) :
  length s = n -> length a = n ->
  exists r, series_array f s a = Ok r /\ length r = n.
Proof.
  intros Hs Ha. unfold series_array. rewrite Ha, Hs, Nat.eqb_refl.
  eexists. split; [reflexivity|].
  rewrite length_map, length_combine, Ha, Hs. apply Nat.min_id.
Qed.

(** A good parameter is processed and the loop goes on. *)
Lemma calc_utilities_step (vp : string * R) (ps : list (string * R))
  (data : nframe) :
  loop_inv data -> good_param alts data_in vp ->
  exists data',
    loop_inv data' /\
    calc_utilities (alt_flags alts) dm (vp :: ps) data
    = calc_utilities (alt_flags alts) dm ps data'.
Proof.
  intros Hinv Hgood. destruct vp as [varname param].
  destruct (loop_inv_column (a := "utility") Hinv) as (u & Hu & Hul);
    [right; reflexivity|].
  cbn [calc_utilities]. unfold dict_getitem. rewrite Hu. cbn [bind].
  destruct Hgood as [[He Hc] | [He (main & alt & Hs & Halt & Hm)]];
    cbn [fst] in *; rewrite He; cbn [negb].
  - destruct (loop_inv_column Hinv Hc) as (col & Hcol & Hcl).
    rewrite Hcol. cbn [bind]. eexists. split; [|reflexivity].
    apply loop_inv_set_utility; [assumption|].
    apply length_series_add; [assumption|]. rewrite length_map. assumption.
  - rewrite Hs.
    destruct (proj1 (dict_get_In_keys alt dm) (dm_keys alt Halt))
      as [dummy Hd].
    pose proof (@dict_get_values _ (fun c : list R => length c = n)
                  alt dummy dm dm_len Hd) as Hdl.
    rewrite Hd. cbn [bind].
    destruct (String.eqb_spec main "ASC") as [->|Hne].
    + cbn [bind].
      destruct (@series_array_same Rplus u
                  (map (fun d => (d * param)%R) dummy))
        as (r & Hr & Hrl); [assumption | rewrite length_map; assumption|].
      rewrite Hr. cbn [bind]. eexists. split; [|reflexivity].
      apply loop_inv_set_utility; assumption.
    + destruct Hm as [Hm|Hm]; [contradiction|].
      destruct (loop_inv_column Hinv Hm) as (col & Hcol & Hcl).
      rewrite Hcol. cbn [bind].
      destruct (@series_array_same Rmult col dummy) as (w & Hw & Hwl);
        [assumption | assumption|].
      rewrite Hw. cbn [bind]. eexists. split; [|reflexivity].
      apply loop_inv_set_utility; [assumption|].
      apply length_series_add; [assumption|]. rewrite length_map. assumption.
Qed.

Lemma calc_utilities_good (ps : list (string * R)) (data : nframe) :
  loop_inv data -> Forall (good_param alts data_in) ps ->
  exists data',
    calc_utilities (alt_flags alts) dm ps data = Ok (Some data') /\
    loop_inv data'.
Proof.
  intros Hinv Hps. revert data Hinv.
  induction Hps as [|vp t Hvp Ht IH]; intros data Hinv.
  - exists data. split; [reflexivity | assumption].
  - destruct (calc_utilities_step t Hinv Hvp) as (data1 & Hinv1 & He).
    rewrite He. apply IH. assumption.
Qed.

Lemma calc_utilities_missing (pre post : list (string * R))
  (bad : string * R) (data : nframe) :
  loop_inv data -> Forall (good_param alts data_in) pre ->
  missing_param alts data_in bad ->
  calc_utilities (alt_flags alts) dm (pre ++ bad :: post) data = Ok None.
Proof.
  intros Hinv Hpre Hbad. revert data Hinv.
  induction Hpre as [|vp t Hvp Ht IH]; intros data Hinv.
  - destruct bad as [varname param].
    destruct Hbad as (He & main & alt & Hs & Halt & Hne & Hnc).
    cbn [fst] in *. cbn [app calc_utilities]. rewrite He. cbn [negb].
    rewrite Hs.
    destruct (proj1 (dict_get_In_keys alt dm) (dm_keys alt Halt))
      as [dummy Hd].
    unfold dict_getitem. rewrite Hd. cbn [bind].
    destruct (String.eqb_spec main "ASC"); [contradiction|].
    rewrite (loop_inv_not_column Hinv Hnc). reflexivity.
  - cbn [app].
    destruct (calc_utilities_step (t ++ bad :: post) Hinv Hvp)
      as (data1 & Hinv1 & He).
    rewrite He. apply IH. assumption.
Qed.

End UtilityLoop.

Lemma foldM_add_dummy_inv (nalt k : nat) (l : list (Z * string)) :
  forall fl dm fd,
    foldM (add_dummy nalt k) l (fl, dm) = Ok fd ->
    fst fd = fl ++ map (fun kv => (" for " ++ snd kv)%string) l /\
    (forall a, In a (dict_keys (snd fd)) <->
               In a (dict_keys dm) \/ In a (map snd l)).
Proof.
  induction l as [|[idx name] t IH]; intros fl dm fd H.
  - cbn [foldM] in H. injection H as <-. cbn [fst snd map In].
    rewrite app_nil_r. intuition.
  - cbn [foldM] in H. apply bind_ok in H. destruct H as ([fl1 dm1] & H1 & H2).
    unfold add_dummy in H1. apply bind_ok in H1.
    destruct H1 as (tmp & _ & H1). injection H1 as <- <-.
    apply IH in H2. destruct H2 as [Hf Hk]. split.
    + etransitivity; [exact Hf|]. cbn [fst]. rewrite <- app_assoc.
      reflexivity.
    + intros a. rewrite Hk. cbn [snd]. rewrite In_dict_keys_set.
      cbn [map snd In]. intuition.
Qed.

(** When the loop goes through a list of parameters, it goes on with what
    follows on the frame it has reached. *)
Lemma calc_utilities_app (flags : list string) (dm : dict (list R))
  (pre rest : list (string * R)) :
  forall data data1,
    calc_utilities flags dm pre data = Ok (Some data1) ->
    calc_utilities flags dm (pre ++ rest) data
    = calc_utilities flags dm rest data1.
Proof.
  induction pre as [|[varname param] t IH]; intros data data1 H.
  - cbn [calc_utilities] in H. injection H as <-. reflexivity.
  - cbn [app calc_utilities] in *.
    destruct (negb (endswith_any varname flags)).
    + destruct (dict_getitem "utility" data) as [u|]; [|discriminate].
      destruct (dict_getitem varname data) as [col|]; [|discriminate].
      cbn [bind] in *. apply IH. assumption.
    + destruct (str_split " for " varname) as [|m [|a [|? ?]]];
        try discriminate.
      destruct (dict_getitem a dm) as [dummy|]; [|discriminate].
      cbn [bind] in *.
      destruct (String.eqb m "ASC").
      * destruct (dict_getitem "utility" data) as [u|]; [|discriminate].
        cbn [bind] in *.
        destruct (series_array Rplus u _) as [u'|]; [|discriminate].
        cbn [bind] in *. apply IH. assumption.
      * destruct (dict_get m data) as [col|]; [|discriminate].
        destruct (dict_getitem "utility" data) as [u|]; [|discriminate].
        cbn [bind] in *.
        destruct (series_array Rmult col dummy) as [w|]; [|discriminate].
        cbn [bind] in *. apply IH. assumption.
Qed.

(** The loop only assigns the ['utility'] column: the columns stay the
    same. *)
Lemma calc_utilities_keys (flags : list string) (dm : dict (list R))
  (ps : list (string * R)) :
  forall data data1,
    In "utility"%string (dict_keys data) ->
    calc_utilities flags dm ps data = Ok (Some data1) ->
    dict_keys data1 = dict_keys data.
Proof.
  induction ps as [|[varname param] t IH]; intros data data1 Hu H.
  - cbn [calc_utilities] in H. injection H as <-. reflexivity.
  - assert (Hset : forall u, dict_keys (dict_set "utility" u data)
                             = dict_keys data)
      by (intros u; apply dict_keys_set_present; assumption).
    assert (Hin : forall u, In "utility"%string
                               (dict_keys (dict_set "utility" u data)))
      by (intros u; rewrite Hset; assumption).
    cbn [calc_utilities] in H.
    destruct (negb (endswith_any varname flags)).
    + destruct (dict_getitem "utility" data) as [u|]; [|discriminate].
      destruct (dict_getitem varname data) as [col|]; [|discriminate].
      cbn [bind] in H. apply IH in H; [|apply Hin].
      rewrite H. apply Hset.
    + destruct (str_split " for " varname) as [|m [|a [|? ?]]];
        try discriminate.
      destruct (dict_getitem a dm) as [dummy|]; [|discriminate].
      cbn [bind] in H.
      destruct (String.eqb m "ASC").
      * destruct (dict_getitem "utility" data) as [u|]; [|discriminate].
        cbn [bind] in H.
        destruct (series_array Rplus u _) as [u'|]; [|discriminate].
        cbn [bind] in H. apply IH in H; [|apply Hin].
        rewrite H. apply Hset.
      * destruct (dict_get m data) as [col|]; [|discriminate].
        destruct (dict_getitem "utility" data) as [u|]; [|discriminate].
        cbn [bind] in H.
        destruct (series_array Rmult col dummy) as [w|]; [|discriminate].
        cbn [bind] in H. apply IH in H; [|apply Hin].
        rewrite H. apply Hset.
Qed.


Lemma missing_age_for_walk (data_in : nframe) :
  ~ is_column data_in "age" ->
  missing_param two_alts data_in ("age for walk"%string, 1%R).
Proof.
  intros Hc. split; [reflexivity|].
  exists "age"%string, "walk"%string.
  split; [reflexivity|]. split; [simpl; tauto|].
  split; [discriminate | exact Hc].
Qed.



(** ** Reshaping *)

Lemma length_chunks {A : Type} (c r : nat) (a : list A) :
  length (chunks c r a) = r.
Proof.
  revert a. induction r as [|r IH]; intros a; simpl; [reflexivity|].
  rewrite IH. reflexivity.
Qed.

Lemma chunks_rows {A : Type} (c r : nat) (a : list A) :
  length a = r * c -> Forall (fun row => length row = c) (chunks c r a).
Proof.
  revert a. induction r as [|r IH]; intros a Ha; simpl; constructor.
  - rewrite length_firstn. simpl in Ha. lia.
  - apply IH. rewrite length_skipn. simpl in Ha. lia.
Qed.

Lemma length_concat_rows {A : Type} (c : nat) (rows : list (list A)) :
  Forall (fun row => length row = c) rows ->
  length (concat rows) = length rows * c.
Proof.
  induction 1 as [|row t Hr Ht IH]; simpl; [reflexivity|].
  rewrite length_app, IH, Hr. reflexivity.
Qed.

Lemma chunks_concat {A : Type} (c : nat) (rows : list (list A)) :
  Forall (fun row => length row = c) rows ->
  chunks c (length rows) (concat rows) = rows.
Proof.
  induction 1 as [|row t Hr Ht IH]; simpl; [reflexivity|].
  rewrite firstn_app, skipn_app, Hr, Nat.sub_diag.
  rewrite firstn_all2, skipn_all2 by lia.
  simpl. rewrite app_nil_r. f_equal. exact IH.
Qed.

Lemma reshape_rows_ok {A : Type} (k c : nat) (a : list A) :
  k <> 0 -> length a = k * c ->
  reshape_rows k a = Ok (chunks c k a).
Proof.
  intros Hk Ha. unfold reshape_rows.
  destruct (Nat.eqb_spec k 0); [contradiction|].
  rewrite Ha, Nat.mul_comm, Nat.Div0.mod_mul, Nat.div_mul by assumption.
  reflexivity.
Qed.

Lemma reshape_cols_ok {A : Type} (c : nat) (rows : list (list A)) :
  c <> 0 -> Forall (fun row => length row = c) rows ->
  reshape_cols c (concat rows) = Ok rows.
Proof.
  intros Hc Hrows. unfold reshape_cols.
  destruct (Nat.eqb_spec c 0); [contradiction|].
  rewrite (length_concat_rows Hrows), Nat.Div0.mod_mul, Nat.div_mul
    by assumption.
  simpl. rewrite chunks_concat by assumption. reflexivity.
Qed.

(** ** The probabilities of one case *)

Lemma length_softmax (v : list R) : length (softmax v) = length v.
Proof.
  unfold softmax. rewrite !length_map. reflexivity.
Qed.

Lemma count_distinct_pos (ids : list R) :
  ids <> [] -> 0 < count_distinct ids.
Proof.
  intros Hi. unfold count_distinct.
  destruct ids as [|x t]; [congruence|].
  assert (Hin : In x (nodup Req_dec_T (x :: t)))
    by (apply nodup_In; left; reflexivity).
  destruct (nodup Req_dec_T (x :: t)); [contradiction | simpl; lia].
Qed.

(** The draw of [y] never fails on rows as long as the list of keys. *)
Lemma predict_choice_ok {G : Type} (rnd : np_random G) (method : string)
  (seed : option Z) (keys : list Z) (p : list (list R)) (g : G) :
  In method ["max"; "random"; "none"]%string ->
  Forall (fun row => length row = length keys) p ->
  exists y g', predict_choice rnd method seed keys p g = Ok (y, g').
Proof.
  intros Hm Hp. unfold predict_choice.
  destruct (String.eqb_spec method "max") as [_|Hx]; [eauto|].
  destruct (String.eqb_spec method "random") as [_|Hr].
  - match goal with
    | |- context [foldM ?f p ?st0] =>
        assert (Hf : forall st, exists r, foldM f p st = Ok r);
        [|destruct (Hf st0) as [r Hr]; rewrite Hr; cbn [bind]; eauto]
    end.
    induction Hp as [|row t Hrow Ht IH]; intros st; cbn [foldM]; [eauto|].
    rewrite Hrow, Nat.eqb_refl. cbn [bind]. apply IH.
  - destruct (String.eqb_spec method "none") as [_|Hn]; [eauto|].
    exfalso. simpl in Hm. intuition congruence.
Qed.

Lemma length_alts_dict (alts : alts_arg) :
  length (alts_dict alts) = alts_len alts.
Proof.
  destruct alts as [l|d]; simpl; [|reflexivity].
  rewrite length_combine, length_map, length_seq. apply Nat.min_id.
Qed.

Lemma count_distinct_one_case : count_distinct [1%R; 1%R] = 1.
Proof.
  unfold count_distinct. cbn [nodup].
  destruct (in_dec Req_dec_T 1%R [1%R]) as [H|H].
  - destruct (in_dec Req_dec_T 1%R []) as [H0|H0];
      [destruct H0 | reflexivity].
  - exfalso. apply H. left. reflexivity.
Qed.

(** ** The long-form builder *)

Lemma dict_keys_extend_all (f : string -> list value) obj :
  dict_keys (extend_all f obj) = dict_keys obj.
Proof.
  unfold dict_keys, extend_all. rewrite map_map. reflexivity.
Qed.

Lemma extend_all_ext (f g : string -> list value) obj :
  (forall k, In k (dict_keys obj) -> f k = g k) ->
  extend_all f obj = extend_all g obj.
Proof.
  intros H. unfold extend_all. apply map_ext_in. intros [k v] Hin.
  simpl. rewrite H; [reflexivity|].
  unfold dict_keys. apply in_map_iff. exists (k, v). split; auto.
Qed.

Lemma extend_all_twice (f g : string -> list value) obj :
  extend_all g (extend_all f obj) = extend_all (fun k => f k ++ g k) obj.
Proof.
  unfold extend_all. rewrite map_map. apply map_ext. intros [k v]. simpl.
  rewrite app_assoc. reflexivity.
Qed.

Lemma extend_all_nil obj : extend_all (fun _ => []) obj = obj.
Proof.
  unfold extend_all. rewrite <- (map_id obj) at 2. apply map_ext.
  intros [k v]. simpl. rewrite app_nil_r. reflexivity.
Qed.

(** On distinct keys, [d[k] += l] appends to the column [k] alone. *)
Lemma dict_extend_only_at (k : string) (l : list value) obj :
  NoDup (dict_keys obj) -> In k (dict_keys obj) ->
  dict_extend k l obj = Ok (extend_all (only_at k l) obj).
Proof.
  unfold dict_extend, dict_getitem, dict_keys, extend_all, only_at.
  induction obj as [|[k0 v0] t IH]; simpl; intros Hnd Hin; [contradiction|].
  inversion Hnd as [|? ? Hnot Hnd']; subst.
  destruct (String.eqb_spec k0 k) as [->|Hne]; simpl.
  - rewrite String.eqb_refl. f_equal. f_equal.
    rewrite <- (map_id t) at 1. apply map_ext_in. intros [k1 v1] H1. simpl.
    destruct (String.eqb_spec k k1) as [->|_].
    + exfalso. apply Hnot. apply in_map_iff. exists (k1, v1). auto.
    + rewrite app_nil_r. reflexivity.
  - destruct Hin as [Heq|Hin]; [contradiction|].
    specialize (IH Hnd' Hin).
    destruct (dict_get k t) as [old|]; [|discriminate].
    simpl in IH. injection IH as IH. simpl.
    destruct (String.eqb_spec k k0) as [->|_]; [contradiction|].
    rewrite app_nil_r. rewrite IH. reflexivity.
Qed.

(** A loop of [d[k] += cells(x)] over a list appends, to every column, the
    cells of the entries that name it. *)
Lemma foldM_extend {X : Type} (key : X -> string) (cells : X -> list value)
  (xs : list X) :
  forall obj,
    NoDup (dict_keys obj) ->
    (forall x, In x xs -> In (key x) (dict_keys obj)) ->
    foldM (fun o x => dict_extend (key x) (cells x) o) xs obj
    = Ok (extend_all
            (fun k => flat_map (fun x => only_at (key x) (cells x) k) xs)
            obj).
Proof.
  induction xs as [|x t IH]; intros obj Hnd Hin; cbn [foldM flat_map].
  - rewrite extend_all_nil. reflexivity.
  - rewrite dict_extend_only_at by (auto; apply Hin; left; reflexivity).
    cbn [bind]. rewrite IH.
    + rewrite extend_all_twice. reflexivity.
    + rewrite dict_keys_extend_all. assumption.
    + intros y Hy. rewrite dict_keys_extend_all. apply Hin. right. exact Hy.
Qed.

Lemma replicateM_getitem (n : nat) (row : series) (g : string) :
  (n <> 0 -> exists v, dict_get g row = Some v) ->
  replicateM n (series_getitem row g)
  = Ok (repeat (series_get row g (VInt 0)) n).
Proof.
  destruct n as [|n]; [reflexivity|]. intros H.
  destruct H as [v Hv]; [discriminate|].
  unfold series_getitem, dict_getitem, series_get. rewrite Hv.
  generalize (S n). intros m. induction m as [|m IH]; [reflexivity|].
  cbn [replicateM repeat bind]. rewrite IH. reflexivity.
Qed.

Lemma foldM_ext_in {A B : Type} (f f' : B -> A -> result B) (l : list A) :
  (forall b x, In x l -> f b x = f' b x) ->
  forall b, foldM f l b = foldM f' l b.
Proof.
  induction l as [|x t IH]; intros H b; cbn [foldM]; [reflexivity|].
  rewrite H by (left; reflexivity).
  destruct (f' b x) as [b'|e]; cbn [bind]; [|reflexivity].
  apply IH. intros b0 y Hy. apply H. right. exact Hy.
Qed.

Section LongFormRow.

Variable alt_attrs : dict (list string).
Variable generic_attrs : list string.
Variable modes : list value.
Variable y_true : bool.

Let keys : list string :=
  basic_columns ++ dict_keys alt_attrs ++ generic_attrs.

(** One pass of the loop over the survey rows appends [row_cells] to every
    column. *)
Lemma long_form_row_cells (obj : dict (list value)) (it : value * series) :
  NoDup keys -> dict_keys obj = keys ->
  row_ok generic_attrs modes y_true it ->
  long_form_row alt_attrs generic_attrs modes y_true obj it
  = Ok (extend_all (row_cells alt_attrs generic_attrs modes y_true it) obj).
Proof.
  intros Hnd Hk [Hmode Hgen]. destruct it as [rid row]. cbn [snd] in *.
  assert (Hin : forall k, In k keys -> In k (dict_keys obj))
    by (intros k; rewrite Hk; auto).
  assert (Hnd' : NoDup (dict_keys obj)) by (rewrite Hk; assumption).
  unfold long_form_row.
  rewrite dict_extend_only_at
    by (auto; apply Hin; unfold keys; simpl; tauto).
  cbn [bind].
  rewrite dict_extend_only_at
    by (rewrite dict_keys_extend_all; auto; apply Hin; unfold keys; simpl;
        tauto).
  cbn [bind].
  assert (Hchoice :
            (if y_true
             then m <- series_getitem row "mode" ;;
                  i <- list_index m modes ;;
                  Ok (list_set i (VInt 1) (repeat (VInt 0) (length modes)))
             else Ok (repeat (VInt 0) (length modes)))
            = Ok (if y_true
                  then one_hot (length modes) (mode_index modes row)
                  else repeat (VInt 0) (length modes))).
  { destruct y_true; [|reflexivity].
    destruct (Hmode eq_refl) as (m & i & Hm & Hi).
    unfold mode_index, series_getitem, dict_getitem. rewrite Hm.
    cbn [bind]. rewrite Hi. reflexivity. }
  rewrite Hchoice. cbn [bind].
  rewrite dict_extend_only_at
    by (rewrite !dict_keys_extend_all; auto; apply Hin; unfold keys; simpl;
        tauto).
  cbn [bind].
  rewrite (foldM_extend (@fst string (list string))
             (fun a => alt_cells row (snd a))).
  2: rewrite !dict_keys_extend_all; assumption.
  2: { intros a Ha. rewrite !dict_keys_extend_all. apply Hin. unfold keys.
       apply in_or_app. right. apply in_or_app. left.
       unfold dict_keys. apply in_map. exact Ha. }
  cbn [bind].
  rewrite (foldM_ext_in _
             (fun o g =>
                dict_extend g
                  (repeat (series_get row g (VInt 0)) (length modes)) o)).
  2: { intros o g Hg. rewrite replicateM_getitem; [reflexivity|].
       intros Hn. apply Hgen; [|exact Hg].
       intros ->. apply Hn. reflexivity. }
  rewrite (foldM_extend (fun g : string => g)
             (fun g => repeat (series_get row g (VInt 0)) (length modes))).
  2: rewrite !dict_keys_extend_all; assumption.
  2: { intros g Hg. rewrite !dict_keys_extend_all. apply Hin. unfold keys.
       apply in_or_app. right. apply in_or_app. right. exact Hg. }
  rewrite !extend_all_twice. apply f_equal. apply extend_all_ext.
  intros k _.
  unfold row_cells. cbn [fst snd]. rewrite <- ?app_assoc. reflexivity.
Qed.

End LongFormRow.

Lemma flat_map_only_at_absent {X : Type} (key : X -> string)
  (cells : X -> list value) (xs : list X) (k : string) :
  ~ In k (map key xs) ->
  flat_map (fun x => only_at (key x) (cells x) k) xs = [].
Proof.
  induction xs as [|x t IH]; cbn [flat_map map In]; intros H;
    [reflexivity|].
  unfold only_at at 1. destruct (String.eqb_spec (key x) k); [tauto|].
  apply IH. tauto.
Qed.

Lemma flat_map_only_at_unique {X : Type} (key : X -> string)
  (cells : X -> list value) (xs : list X) (x : X) :
  NoDup (map key xs) -> In x xs ->
  flat_map (fun y => only_at (key y) (cells y) (key x)) xs = cells x.
Proof.
  induction xs as [|y t IH]; cbn [flat_map map In]; intros Hnd Hin;
    [contradiction|].
  inversion Hnd as [|? ? Hnot Hnd']; subst.
  unfold only_at at 1. destruct Hin as [->|Hin].
  - rewrite String.eqb_refl.
    rewrite flat_map_only_at_absent by assumption. apply app_nil_r.
  - destruct (String.eqb_spec (key y) (key x)) as [He|_].
    + exfalso. apply Hnot. rewrite He. apply in_map. exact Hin.
    + apply IH; assumption.
Qed.

Lemma nth_error_flat_map_block {X A : Type} (f : X -> list A) (n : nat)
  (xs : list X) :
  Forall (fun x => length (f x) = n) xs ->
  forall i j x,
    nth_error xs i = Some x -> j < n ->
    nth_error (flat_map f xs) (i * n + j) = nth_error (f x) j.
Proof.
  induction 1 as [|y t Hy Ht IH]; intros i j x Hi Hj.
  - destruct i; discriminate.
  - cbn [flat_map]. destruct i as [|i]; cbn [nth_error] in Hi.
    + injection Hi as ->. simpl. apply nth_error_app1. lia.
    + rewrite nth_error_app2 by lia.
      replace (S i * n + j - length (f y)) with (i * n + j) by (simpl; lia).
      apply IH; assumption.
Qed.

Lemma length_flat_map_block {X A : Type} (f : X -> list A) (n : nat)
  (xs : list X) :
  Forall (fun x => length (f x) = n) xs ->
  length (flat_map f xs) = length xs * n.
Proof.
  induction 1 as [|y t Hy Ht IH]; cbn [flat_map length]; [reflexivity|].
  rewrite length_app, IH, Hy. reflexivity.
Qed.

Lemma nth_error_one_hot (n i j : nat) :
  i < n -> j < n ->
  nth_error (one_hot n i) j = Some (VInt (if Nat.eqb j i then 1 else 0)).
Proof.
  unfold one_hot. revert i j. induction n as [|n IH]; intros i j Hi Hj;
    [lia|].
  cbn [repeat]. destruct i as [|i]; destruct j as [|j]; cbn; try reflexivity.
  - rewrite nth_error_repeat by lia. reflexivity.
  - apply IH; lia.
Qed.

Lemma list_index_bound (m : value) (modes : list value) (i : nat) :
  list_index m modes = Ok i ->
  i < length modes /\
  exists m', nth_error modes i = Some m' /\ value_eqb m' m = true.
Proof.
  revert i. induction modes as [|y t IH]; intros i H; cbn in H;
    [discriminate|].
  destruct (value_eqb y m) eqn:E.
  - injection H as <-. simpl. split; [lia | eauto].
  - apply bind_ok in H. destruct H as (i' & Hi' & H).
    injection H as <-. apply IH in Hi'. destruct Hi' as [Hl Hm].
    simpl. split; [lia | exact Hm].
Qed.

Unset Implicit Arguments.

Lemma NoDup_app_disjoint {A : Type} (l1 l2 : list A) (a : A) :
  NoDup (l1 ++ l2) -> In a l1 -> ~ In a l2.
Proof.
  induction l1 as [|x t IH]; cbn [app In]; intros Hnd Hin; [contradiction|].
  inversion Hnd as [|? ? Hnot Hnd']; subst.
  destruct Hin as [->|Hin]; [|apply IH; assumption].
  intros H2. apply Hnot. apply in_or_app. right. exact H2.
Qed.

Section LongFormTable.

Variable alt_attrs : dict (list string).
Variable generic_attrs : list string.
Variable modes : list value.
Variable y_true : bool.

Hypothesis keys_distinct :
  NoDup (basic_columns ++ dict_keys alt_attrs ++ generic_attrs).

Let cells := row_cells alt_attrs generic_attrs modes y_true.

Lemma NoDup_alt_keys : NoDup (dict_keys alt_attrs).
Proof.
  pose proof keys_distinct as H. apply NoDup_app_remove_l in H.
  apply NoDup_app_remove_r in H. exact H.
Qed.

Lemma NoDup_generic : NoDup generic_attrs.
Proof.
  pose proof keys_distinct as H. do 2 apply NoDup_app_remove_l in H.
  exact H.
Qed.

Lemma basic_not_attr (k : string) :
  In k basic_columns ->
  ~ In k (dict_keys alt_attrs) /\ ~ In k generic_attrs.
Proof.
  intros Hk.
  pose proof (NoDup_app_disjoint _ _ k keys_distinct Hk) as H.
  rewrite in_app_iff in H. tauto.
Qed.

Lemma alt_key_not_generic (k : string) :
  In k (dict_keys alt_attrs) -> ~ In k generic_attrs.
Proof.
  pose proof keys_distinct as H. apply NoDup_app_remove_l in H.
  apply NoDup_app_disjoint. exact H.
Qed.

(** The cells a survey row appends to a basic column. *)
Lemma cells_basic (it : value * series) (k : string) :
  In k basic_columns ->
  cells it k
  = only_at "group" (repeat (fst it) (length modes)) k
    ++ only_at "alt" modes k
    ++ only_at "choice"
         (if y_true then one_hot (length modes) (mode_index modes (snd it))
          else repeat (VInt 0) (length modes)) k.
Proof.
  intros Hk. destruct (basic_not_attr k Hk) as [Ha Hg].
  unfold cells, row_cells. cbn zeta.
  rewrite (@flat_map_only_at_absent _ (@fst string (list string)))
    by exact Ha.
  rewrite (@flat_map_only_at_absent _ (fun g : string => g))
    by (rewrite map_id; exact Hg).
  rewrite !app_nil_r. reflexivity.
Qed.

Lemma cells_alt_attr (it : value * series) (a : string * list string) :
  In a alt_attrs -> cells it (fst a) = alt_cells (snd it) (snd a).
Proof.
  intros Ha.
  assert (Hk : In (fst a) (dict_keys alt_attrs))
    by (unfold dict_keys; apply in_map; exact Ha).
  assert (Hb : ~ In (fst a) basic_columns).
  { intros Hb. exact (proj1 (basic_not_attr (fst a) Hb) Hk). }
  unfold cells, row_cells. cbn zeta. unfold only_at at 1 2 3.
  destruct (String.eqb_spec "group" (fst a)) as [E|_];
    [exfalso; apply Hb; rewrite <- E; simpl; tauto|].
  destruct (String.eqb_spec "alt" (fst a)) as [E|_];
    [exfalso; apply Hb; rewrite <- E; simpl; tauto|].
  destruct (String.eqb_spec "choice" (fst a)) as [E|_];
    [exfalso; apply Hb; rewrite <- E; simpl; tauto|].
  cbn [app].
  rewrite (@flat_map_only_at_unique _ (@fst string (list string))
             (fun x => alt_cells (snd it) (snd x)))
    by (exact NoDup_alt_keys || exact Ha).
  rewrite (@flat_map_only_at_absent _ (fun g : string => g))
    by (rewrite map_id; apply alt_key_not_generic; exact Hk).
  apply app_nil_r.
Qed.

Lemma cells_generic (it : value * series) (g : string) :
  In g generic_attrs ->
  cells it g = repeat (series_get (snd it) g (VInt 0)) (length modes).
Proof.
  intros Hg.
  assert (Ha : ~ In g (dict_keys alt_attrs))
    by (intros Ha; exact (alt_key_not_generic g Ha Hg)).
  assert (Hb : ~ In g basic_columns).
  { intros Hb. exact (proj2 (basic_not_attr g Hb) Hg). }
  unfold cells, row_cells. cbn zeta. unfold only_at at 1 2 3.
  destruct (String.eqb_spec "group" g) as [E|_];
    [exfalso; apply Hb; rewrite <- E; simpl; tauto|].
  destruct (String.eqb_spec "alt" g) as [E|_];
    [exfalso; apply Hb; rewrite <- E; simpl; tauto|].
  destruct (String.eqb_spec "choice" g) as [E|_];
    [exfalso; apply Hb; rewrite <- E; simpl; tauto|].
  cbn [app].
  rewrite (@flat_map_only_at_absent _ (@fst string (list string)))
    by exact Ha.
  cbn [app].
  exact (@flat_map_only_at_unique _ (fun x : string => x)
           (fun x => repeat (series_get (snd it) x (VInt 0)) (length modes))
           generic_attrs g
           (eq_ind_r (fun l => NoDup l) NoDup_generic (map_id generic_attrs))
           Hg).
Qed.

End LongFormTable.

Section LongFormData.

Variable alt_attrs : dict (list string).
Variable generic_attrs : list string.
Variable modes : list value.
Variable y_true : bool.

Let keys : list string :=
  basic_columns ++ dict_keys alt_attrs ++ generic_attrs.
Let cells := row_cells alt_attrs generic_attrs modes y_true.

Hypothesis keys_distinct : NoDup keys.
Hypothesis alt_lengths :
  Forall (fun a : string * list string => length (snd a) = length modes)
         alt_attrs.

(** The columns of the table built from the survey rows [rows]. *)
Definition long_table (rows : mode_table_t) : dict (list value) :=
  map (fun k => (k, flat_map (fun it => cells it k) rows)) keys.

Lemma long_form_rows (rows : mode_table_t) :
  Forall (row_ok generic_attrs modes y_true) rows ->
  forall obj,
    dict_keys obj = keys ->
    foldM (long_form_row alt_attrs generic_attrs modes y_true) rows obj
    = Ok (extend_all (fun k => flat_map (fun it => cells it k) rows) obj).
Proof.
  induction 1 as [|it t Hit Ht IH]; intros obj Hk; cbn [foldM flat_map].
  - rewrite extend_all_nil. reflexivity.
  - rewrite (@long_form_row_cells alt_attrs generic_attrs modes y_true obj it
               keys_distinct Hk Hit).
    cbn [bind]. rewrite IH by (rewrite dict_keys_extend_all; exact Hk).
    rewrite extend_all_twice. reflexivity.
Qed.

Lemma long_form_data_table (rows : mode_table_t) :
  Forall (row_ok generic_attrs modes y_true) rows ->
  long_form_data rows alt_attrs generic_attrs modes y_true
  = from_dict (long_table rows).
Proof.
  intros Hrows. unfold long_form_data. cbn zeta. fold keys.
  assert (H0 : dict_fromkeys keys ([] : list value)
               = map (fun k => (k, [])) keys).
  { unfold dict_fromkeys.
    exact (@fold_set_fresh (list value) (fun _ => []) keys [] keys_distinct). }
  rewrite H0, long_form_rows; [|exact Hrows|apply dict_keys_entries].
  cbn [bind]. f_equal. unfold extend_all, long_table.
  rewrite map_map. reflexivity.
Qed.

Lemma length_cells (it : value * series) (k : string) :
  In k keys -> length (cells it k) = length modes.
Proof.
  unfold keys. rewrite !in_app_iff. intros [Hb | [Ha | Hg]].
  - unfold cells.
    rewrite (cells_basic alt_attrs generic_attrs modes y_true keys_distinct
               it k Hb).
    simpl in Hb. destruct Hb as [<- | [<- | [<- | []]]]; cbn.
    + rewrite app_nil_r. apply repeat_length.
    + rewrite app_nil_r. reflexivity.
    + destruct y_true; [unfold one_hot; rewrite length_list_set|];
        apply repeat_length.
  - unfold dict_keys in Ha. apply in_map_iff in Ha.
    destruct Ha as (a & <- & Ha). unfold cells.
    rewrite (cells_alt_attr alt_attrs generic_attrs modes y_true
               keys_distinct it a Ha).
    unfold alt_cells. rewrite length_map.
    rewrite Forall_forall in alt_lengths. exact (alt_lengths a Ha).
  - unfold cells.
    rewrite (cells_generic alt_attrs generic_attrs modes y_true
               keys_distinct it k Hg).
    apply repeat_length.
Qed.

End LongFormData.

Section LongFormCells.

Variable alt_attrs : dict (list string).
Variable generic_attrs : list string.
Variable modes : list value.
Variable y_true : bool.
Variable rows : mode_table_t.

Let keys : list string :=
  basic_columns ++ dict_keys alt_attrs ++ generic_attrs.
Let table := long_table alt_attrs generic_attrs modes y_true rows.

Hypothesis keys_distinct : NoDup keys.
Hypothesis alt_lengths :
  Forall (fun a : string * list string => length (snd a) = length modes)
         alt_attrs.

Lemma long_table_column (k : string) :
  In k keys ->
  dict_get k table
  = Some (flat_map
            (fun it => row_cells alt_attrs generic_attrs modes y_true it k)
            rows) /\
  length (flat_map
            (fun it => row_cells alt_attrs generic_attrs modes y_true it k)
            rows) = length rows * length modes.
Proof.
  intros Hk. split.
  - unfold table, long_table. fold keys.
    rewrite (dict_get_entries
               (fun k => flat_map
                           (fun it => row_cells alt_attrs generic_attrs modes
                                        y_true it k) rows) keys k).
    destruct (in_dec string_dec k keys); [reflexivity | contradiction].
  - apply length_flat_map_block. apply Forall_forall. intros it _.
    exact (length_cells alt_attrs generic_attrs modes y_true keys_distinct
             alt_lengths it k Hk).
Qed.

Lemma nrows_long_table : nrows table = length rows * length modes.
Proof.
  destruct (long_table_column "group") as [_ Hl];
    [unfold keys; simpl; tauto|].
  unfold table, long_table, nrows. fold keys. unfold keys at 1.
  cbn [basic_columns app map]. exact Hl.
Qed.

Lemma from_dict_long_table : from_dict table = Ok table.
Proof.
  unfold from_dict.
  assert (Hs : same_length table = true); [|rewrite Hs; reflexivity].
  unfold same_length. rewrite nrows_long_table.
  apply forallb_forall. intros [k c] Hin. cbn [snd].
  apply Nat.eqb_eq.
  unfold table, long_table in Hin. apply in_map_iff in Hin.
  destruct Hin as (k' & Hkc & Hk'). injection Hkc as <- <-.
  apply (long_table_column k' Hk').
Qed.

Lemma cell_long_table (k : string) (i j : nat) (it : value * series) :
  In k keys -> nth_error rows i = Some it -> j < length modes ->
  cell table k (i * length modes + j)
  = nth_error (row_cells alt_attrs generic_attrs modes y_true it k) j.
Proof.
  intros Hk Hi Hj. unfold cell.
  rewrite (proj1 (long_table_column k Hk)).
  apply (@nth_error_flat_map_block _ _
           (fun it => row_cells alt_attrs generic_attrs modes y_true it k)
           (length modes) rows); [|exact Hi|exact Hj].
  apply Forall_forall. intros it' _.
  exact (length_cells alt_attrs generic_attrs modes y_true keys_distinct
           alt_lengths it' k Hk).
Qed.

End LongFormCells.

Lemma row_ok_mode_index generic_attrs modes (it : value * series) :
  row_ok generic_attrs modes true it ->
  mode_index modes (snd it) < length modes /\
  exists m, dict_get "mode" (snd it) = Some m /\
            list_index m modes = Ok (mode_index modes (snd it)).
Proof.
  intros [Hm _]. destruct (Hm eq_refl) as (m & i & Hg & Hi).
  assert (He : mode_index modes (snd it) = i).
  { unfold mode_index, series_getitem, dict_getitem. rewrite Hg.
    cbn [bind]. rewrite Hi. reflexivity. }
  rewrite He. split; [apply (@list_index_bound m modes i Hi) | eauto].
Qed.

(** C2, as the code has it.  When the column names are pairwise distinct,
    every list of [alt_attrs] names one source column per mode, every
    survey row has its ['mode'] among the modes and has every generic
    attribute: the table has [N * R] rows; row [i] of the survey yields
    the rows [i * N .. i * N + N - 1], one per mode in the order of
    [modes], all carrying the row's index as ['group'] and its generic
    attributes unchanged; and their ['choice'] is 1 at the position of
    the row's ['mode'] in [modes] and 0 elsewhere. *)
Theorem long_form_data_one_hot :
  forall (mode_table : mode_table_t) (alt_attrs : dict (list string))
         (generic_attrs : list string) (modes : list value),
    NoDup (basic_columns ++ dict_keys alt_attrs ++ generic_attrs) ->
    Forall (fun a : string * list string => length (snd a) = length modes)
           alt_attrs ->
    Forall (row_ok generic_attrs modes true) mode_table ->
    exists df,
      long_form_data mode_table alt_attrs generic_attrs modes true = Ok df /\
      nrows df = length modes * length mode_table /\
      forall i j rid row,
        nth_error mode_table i = Some (rid, row) ->
        j < length modes ->
        cell df "group" (i * length modes + j) = Some rid /\
        cell df "alt" (i * length modes + j) = nth_error modes j /\
        (forall g, In g generic_attrs ->
                   cell df g (i * length modes + j) = dict_get g row) /\
        (exists m, dict_get "mode" row = Some m /\
                   list_index m modes = Ok (mode_index modes row)) /\
        cell df "choice" (i * length modes + j)
        = Some (VInt (if Nat.eqb j (mode_index modes row) then 1 else 0)).
Proof.
  intros rows alt_attrs generic_attrs modes Hnd Hlen Hrows.
  exists (long_table alt_attrs generic_attrs modes true rows).
  split.
  { rewrite long_form_data_table by assumption.
    apply from_dict_long_table; assumption. }
  split.
  { rewrite nrows_long_table by assumption. apply Nat.mul_comm. }
  intros i j rid row Hi Hj.
  assert (Hrow : row_ok generic_attrs modes true (rid, row)).
  { rewrite Forall_forall in Hrows. apply Hrows.
    eapply nth_error_In. exact Hi. }
  destruct (row_ok_mode_index generic_attrs modes (rid, row) Hrow)
    as [Hidx Hmode].
  cbn [snd] in Hidx, Hmode.
  assert (Hb : forall k, In k basic_columns ->
               cell (long_table alt_attrs generic_attrs modes true rows) k
                    (i * length modes + j)
               = nth_error
                   (only_at "group" (repeat rid (length modes)) k
                    ++ only_at "alt" modes k
                    ++ only_at "choice"
                         (one_hot (length modes) (mode_index modes row)) k)
                   j).
  { intros k Hk.
    rewrite (cell_long_table alt_attrs generic_attrs modes true rows Hnd
               Hlen k i j (rid, row))
      by (assumption || (apply in_or_app; left; exact Hk)).
    rewrite (cells_basic alt_attrs generic_attrs modes true Hnd (rid, row)
               k Hk).
    reflexivity. }
  split; [|split; [|split; [|split; [exact Hmode|]]]].
  - rewrite Hb by (simpl; tauto). cbn. rewrite app_nil_r.
    apply nth_error_repeat. exact Hj.
  - rewrite Hb by (simpl; tauto). cbn. rewrite app_nil_r. reflexivity.
  - intros g Hg.
    rewrite (cell_long_table alt_attrs generic_attrs modes true rows Hnd
               Hlen g i j (rid, row))
      by (assumption || (apply in_or_app; right; apply in_or_app; right;
                         exact Hg)).
    rewrite (cells_generic alt_attrs generic_attrs modes true Hnd (rid, row)
               g Hg).
    cbn [snd]. rewrite nth_error_repeat by exact Hj.
    destruct Hrow as [_ Hgen].
    destruct (Hgen (fun E => Nat.nlt_0_r j
                               (eq_ind _ (fun l => j < length l) Hj _ E))
                   g Hg) as [v Hv].
    cbn [snd] in Hv. unfold series_get. rewrite Hv. reflexivity.
  - rewrite Hb by (simpl; tauto). cbn.
    apply nth_error_one_hot; assumption.
Qed.

Lemma survey_keys_distinct :
  NoDup (basic_columns ++ dict_keys survey_alt_attrs ++ ["age"%string]).
Proof.
  simpl. repeat constructor; simpl; intuition discriminate.
Qed.

Lemma survey_alt_lengths :
  Forall (fun a : string * list string =>
            length (snd a) = length survey_modes) survey_alt_attrs.
Proof.
  repeat constructor.
Qed.

Lemma survey_rows_ok (y_true : bool) :
  Forall (row_ok ["age"%string] survey_modes y_true) survey.
Proof.
  repeat constructor; cbn [snd].
  - intros _. exists (VStr "walk"), 1. split; reflexivity.
  - intros _ g [<-|[]]. eexists. reflexivity.
  - intros _. exists (VStr "drive"), 0. split; reflexivity.
  - intros _ g [<-|[]]. eexists. reflexivity.
Qed.

(** [long_form_data_one_hot] on the survey of two travellers. *)
Lemma long_form_data_one_hot_witness :
  NoDup (basic_columns ++ dict_keys survey_alt_attrs ++ ["age"%string]) /\
  Forall (fun a : string * list string =>
            length (snd a) = length survey_modes) survey_alt_attrs /\
  Forall (row_ok ["age"%string] survey_modes true) survey /\
  exists df,
    long_form_data survey survey_alt_attrs ["age"%string] survey_modes true
    = Ok df /\
    nrows df = 4.
Proof.
  split; [exact survey_keys_distinct|].
  split; [exact survey_alt_lengths|].
  split; [exact (survey_rows_ok true)|].
  destruct (long_form_data_one_hot survey survey_alt_attrs ["age"%string]
              survey_modes survey_keys_distinct survey_alt_lengths
              (survey_rows_ok true)) as (df & Hdf & Hn & _).
  exists df. split; [exact Hdf | exact Hn].
Defined.

(** C2 as stated fails: a survey row whose ['mode'] is not in [modes]
    makes [modes.index] raise, and no table is returned. *)
Lemma long_form_data_unknown_mode :
  ~ exists df,
      long_form_data survey_pt survey_alt_attrs ["age"%string] survey_modes
        true = Ok df.
Proof.
  intros [df H]. cbv in H. discriminate.
Qed.

(** ** Which look-ups of the builder can fail *)

Lemma foldM_raise_inv {A B : Type} (I : B -> Prop) (P : exn -> Prop)
  (f : B -> A -> result B) (l : list A) :
  (forall b x b', I b -> f b x = Ok b' -> I b') ->
  (forall b x e, I b -> f b x = Raise e -> P e) ->
  forall b e, I b -> foldM f l b = Raise e -> P e.
Proof.
  intros Hok Hraise. induction l as [|x t IH]; intros b e Hb H;
    cbn [foldM] in H; [discriminate|].
  destruct (f b x) as [b'|e'] eqn:E; cbn [bind] in H.
  - exact (IH b' e (Hok b x b' Hb E) H).
  - injection H as <-. exact (Hraise b x e' Hb E).
Qed.

Lemma foldM_ok_inv {A B : Type} (I : B -> Prop) (f : B -> A -> result B)
  (l : list A) :
  (forall b x b', I b -> f b x = Ok b' -> I b') ->
  forall b b', I b -> foldM f l b = Ok b' -> I b'.
Proof.
  intros Hok. induction l as [|x t IH]; intros b b' Hb H; cbn [foldM] in H.
  - injection H as <-. exact Hb.
  - destruct (f b x) as [b1|e1] eqn:E; cbn [bind] in H; [|discriminate].
    exact (IH b1 b' (Hok b x b1 Hb E) H).
Qed.

Lemma In_dict_keys_fromkeys {V : Type} (keys : list string) (v0 : V)
  (k : string) :
  In k keys -> In k (dict_keys (dict_fromkeys keys v0)).
Proof.
  unfold dict_fromkeys.
  assert (H : forall d, In k (dict_keys d) \/ In k keys ->
              In k (dict_keys (fold_left (fun d k => dict_set k v0 d)
                                         keys d))).
  { induction keys as [|x t IH]; intros d; cbn [fold_left In].
    - tauto.
    - intros Hd. apply IH. rewrite In_dict_keys_set. intuition. }
  intros Hk. apply H. right. exact Hk.
Qed.

Lemma list_index_raise (m : value) (modes : list value) (e : exn) :
  list_index m modes = Raise e -> exists what, e = ValueError what.
Proof.
  induction modes as [|y t IH]; cbn; intros H.
  - injection H as <-. eauto.
  - destruct (value_eqb y m); [discriminate|].
    destruct (list_index m t) as [i|e']; cbn [bind] in H; [discriminate|].
    injection H as <-. apply IH. reflexivity.
Qed.

Lemma replicateM_getitem_raise (n : nat) (row : series) (g : string)
  (e : exn) :
  replicateM n (series_getitem row g) = Raise e -> e = KeyError g.
Proof.
  unfold series_getitem, dict_getitem.
  destruct (dict_get g row) as [v|].
  - assert (Hn : exists l, replicateM n (Ok v) = Ok l).
    { induction n as [|n [l IH]]; cbn [replicateM bind]; [eauto|].
      rewrite IH. cbn [bind]. eauto. }
    destruct Hn as [l Hl]. rewrite Hl. discriminate.
  - destruct n as [|n]; cbn [replicateM bind]; [discriminate|].
    intros H. injection H as <-. reflexivity.
Qed.

Section BuilderLookups.

Variable alt_attrs : dict (list string).
Variable generic_attrs : list string.
Variable modes : list value.
Variable y_true : bool.

Let keys : list string :=
  basic_columns ++ dict_keys alt_attrs ++ generic_attrs.

(** Every column name is a key of the table under construction. *)
Definition has_columns (obj : dict (list value)) : Prop :=
  forall k, In k keys -> In k (dict_keys obj).

(** An exception of the builder that is a [KeyError] names ['mode'] or a
    generic attribute. *)
Definition lookup_error (e : exn) : Prop :=
  forall k, e = KeyError k -> k = "mode"%string \/ In k generic_attrs.

Lemma dict_extend_has_columns (k : string) (l : list value) obj :
  has_columns obj -> In k keys ->
  exists obj', dict_extend k l obj = Ok obj' /\ has_columns obj'.
Proof.
  intros Hobj Hk. unfold dict_extend, dict_getitem.
  destruct (proj1 (dict_get_In_keys k obj) (Hobj k Hk)) as [old Hold].
  rewrite Hold. cbn [bind]. eexists. split; [reflexivity|].
  intros a Ha. apply In_dict_keys_set. left. exact (Hobj a Ha).
Qed.

Lemma mode_choice_lookups (row : series) :
  match (if y_true
         then m <- series_getitem row "mode" ;;
              i <- list_index m modes ;;
              Ok (list_set i (VInt 1) (repeat (VInt 0) (length modes)))
         else Ok (repeat (VInt 0) (length modes))) with
  | Ok _ => True
  | Raise e => lookup_error e
  end.
Proof.
  destruct y_true; [|exact I].
  unfold series_getitem, dict_getitem.
  destruct (dict_get "mode" row) as [m|]; cbn [bind].
  - destruct (list_index m modes) as [i|e] eqn:E; cbn [bind]; [exact I|].
    destruct (list_index_raise m modes e E) as [what ->].
    intros k Hk. discriminate.
  - intros k Hk. injection Hk as <-. left. reflexivity.
Qed.

Lemma alt_loop_lookups (row : series) (l : list (string * list string)) :
  (forall a, In a l -> In (fst a) keys) ->
  forall obj,
    has_columns obj ->
    exists obj',
      foldM (fun o (a : string * list string) =>
               dict_extend (fst a) (alt_cells row (snd a)) o) l obj
      = Ok obj' /\ has_columns obj'.
Proof.
  induction l as [|a t IH]; intros Hl obj Hobj; cbn [foldM].
  - eauto.
  - destruct (dict_extend_has_columns (fst a) (alt_cells row (snd a)) obj
                Hobj (Hl a (or_introl eq_refl))) as (o1 & E1 & H1).
    rewrite E1. cbn [bind]. apply IH; [|exact H1].
    intros b Hb. apply Hl. right. exact Hb.
Qed.

Lemma generic_loop_lookups (row : series) (l : list string) :
  (forall g, In g l -> In g generic_attrs) ->
  forall obj,
    has_columns obj ->
    match foldM (fun o g =>
                   cells <- replicateM (length modes)
                              (series_getitem row g) ;;
                   dict_extend g cells o) l obj with
    | Ok obj' => has_columns obj'
    | Raise e => lookup_error e
    end.
Proof.
  induction l as [|g t IH]; intros Hl obj Hobj; cbn [foldM]; [exact Hobj|].
  destruct (replicateM (length modes) (series_getitem row g))
    as [cells|e] eqn:E; cbn [bind].
  - destruct (dict_extend_has_columns g cells obj Hobj) as (o1 & E1 & H1).
    { unfold keys. apply in_or_app. right. apply in_or_app. right.
      apply Hl. left. reflexivity. }
    rewrite E1. cbn [bind]. apply IH; [|exact H1].
    intros b Hb. apply Hl. right. exact Hb.
  - apply replicateM_getitem_raise in E. subst e.
    intros k Hk. injection Hk as <-. right. apply Hl. left. reflexivity.
Qed.

Lemma long_form_row_lookups obj (it : value * series) :
  has_columns obj ->
  match long_form_row alt_attrs generic_attrs modes y_true obj it with
  | Ok obj' => has_columns obj'
  | Raise e => lookup_error e
  end.
Proof.
  intros Hobj. destruct it as [rid row]. unfold long_form_row.
  destruct (dict_extend_has_columns "group" (repeat rid (length modes)) obj
              Hobj) as (o1 & E1 & H1); [unfold keys; simpl; tauto|].
  rewrite E1. cbn [bind].
  destruct (dict_extend_has_columns "alt" modes o1 H1) as (o2 & E2 & H2);
    [unfold keys; simpl; tauto|].
  rewrite E2. cbn [bind].
  pose proof (mode_choice_lookups row) as Hc.
  match type of Hc with
  | match ?c with _ => _ end =>
      destruct c as [mode_choice|e]; cbn [bind]; [clear Hc|exact Hc]
  end.
  destruct (dict_extend_has_columns "choice" mode_choice o2 H2)
    as (o3 & E3 & H3); [unfold keys; simpl; tauto|].
  rewrite E3. cbn [bind].
  destruct (alt_loop_lookups row alt_attrs) with (obj := o3)
    as (o4 & E4 & H4).
  { intros a Ha. unfold keys. apply in_or_app. right. apply in_or_app. left.
    unfold dict_keys. apply in_map. exact Ha. }
  { exact H3. }
  rewrite E4. cbn [bind].
  apply generic_loop_lookups; [tauto | exact H4].
Qed.

(** The builder never fails on a source column of [alt_attrs]: a
    [KeyError] it raises names ['mode'] or a generic attribute. *)
Lemma long_form_data_lookups (rows : mode_table_t) (e : exn) :
  long_form_data rows alt_attrs generic_attrs modes y_true = Raise e ->
  lookup_error e.
Proof.
  unfold long_form_data. cbn zeta. fold keys. intros H.
  destruct (foldM (long_form_row alt_attrs generic_attrs modes y_true) rows
              (dict_fromkeys keys [])) as [obj|e'] eqn:E; cbn [bind] in H.
  - unfold from_dict in H. destruct (same_length obj); [discriminate|].
    injection H as <-. intros k Hk. discriminate.
  - injection H as <-.
    refine (foldM_raise_inv has_columns lookup_error _ rows _ _ _ e' _ E).
    + intros b x b' Hb Hx. pose proof (long_form_row_lookups b x Hb) as Hl.
      rewrite Hx in Hl. exact Hl.
    + intros b x e0 Hb Hx. pose proof (long_form_row_lookups b x Hb) as Hl.
      rewrite Hx in Hl. exact Hl.
    + intros k Hk. apply In_dict_keys_fromkeys. exact Hk.
Qed.

End BuilderLookups.

(** C9.  A source column named in [alt_attrs] that a survey row lacks
    never makes [long_form_data] fail, and the attribute is 0 there.
    First, whatever the input, a [KeyError] of the builder names ['mode']
    or a generic attribute, never a source column of [alt_attrs] (those
    are read with [row.get(row_attr, 0)]).  Second, on an input on which
    the other look-ups succeed, the builder returns a table, and whenever
    row [i] of the survey lacks the source column that [alt_attrs] names
    for attribute [a] and alternative [j], the long-form row
    [i * N + j] holds 0 in column [a]. *)
Theorem long_form_data_missing_source_column :
  forall (mode_table : mode_table_t) (alt_attrs : dict (list string))
         (generic_attrs : list string) (modes : list value) (y_true : bool),
    (forall k,
       long_form_data mode_table alt_attrs generic_attrs modes y_true
       = Raise (KeyError k) ->
       k = "mode"%string \/ In k generic_attrs) /\
    (NoDup (basic_columns ++ dict_keys alt_attrs ++ generic_attrs) ->
     Forall (fun a : string * list string => length (snd a) = length modes)
            alt_attrs ->
     Forall (row_ok generic_attrs modes y_true) mode_table ->
     exists df,
       long_form_data mode_table alt_attrs generic_attrs modes y_true
       = Ok df /\
       forall i j rid row a srcs c,
         nth_error mode_table i = Some (rid, row) ->
         In (a, srcs) alt_attrs ->
         nth_error srcs j = Some c ->
         dict_get c row = None ->
         cell df a (i * length modes + j) = Some (VInt 0)).
Proof.
  intros rows alt_attrs generic_attrs modes y_true. split.
  - intros k Hk.
    exact (long_form_data_lookups alt_attrs generic_attrs modes y_true rows
             (KeyError k) Hk k eq_refl).
  - intros Hnd Hlen Hrows.
    exists (long_table alt_attrs generic_attrs modes y_true rows). split.
    { rewrite long_form_data_table by assumption.
      apply from_dict_long_table; assumption. }
    intros i j rid row a srcs c Hi Ha Hc Hnone.
    assert (Hj : j < length modes).
    { rewrite Forall_forall in Hlen. rewrite <- (Hlen (a, srcs) Ha).
      cbn [snd]. apply nth_error_Some. rewrite Hc. discriminate. }
    rewrite (cell_long_table alt_attrs generic_attrs modes y_true rows Hnd
               Hlen a i j (rid, row)); [|
      apply in_or_app; right; apply in_or_app; left;
      unfold dict_keys; exact (in_map fst alt_attrs (a, srcs) Ha)
      | exact Hi | exact Hj].
    pose proof (cells_alt_attr alt_attrs generic_attrs modes y_true Hnd
                  (rid, row) (a, srcs) Ha) as Hcells.
    cbn [fst snd] in Hcells. rewrite Hcells. unfold alt_cells.
    rewrite nth_error_map, Hc. cbn [option_map].
    unfold series_get. rewrite Hnone. reflexivity.
Qed.

(** [long_form_data_missing_source_column] on the survey of two
    travellers, none of whom has a ['walk_time']: the ['time'] of the
    walking alternative of the first traveller is 0. *)
Lemma long_form_data_missing_source_column_witness :
  dict_get "walk_time" (snd (nth 0 survey (VInt 0, []))) = None /\
  exists df,
    long_form_data survey survey_alt_attrs ["age"%string] survey_modes true
    = Ok df /\
    cell df "time" 1 = Some (VInt 0).
Proof.
  split; [reflexivity|].
  destruct (proj2 (long_form_data_missing_source_column survey
                     survey_alt_attrs ["age"%string] survey_modes true)
              survey_keys_distinct survey_alt_lengths (survey_rows_ok true))
    as (df & Hdf & Hcell).
  exists df. split; [exact Hdf|].
  exact (Hcell 0 1 (VInt 0) _ "time"%string
           ["drive_time"; "walk_time"]%string "walk_time"%string
           eq_refl (or_introl eq_refl) eq_refl eq_refl).
Defined.

(** C9 as stated fails.  The only row of [survey_pt] lacks the source
    column ['walk_time'] that [alt_attrs] names, and [long_form_data]
    fails on it all the same, because the row's mode is not in [modes].
    The rows of [survey] lack it too, and [long_form_data] fails on them
    when a generic attribute is no column of the survey, when the list
    of source columns has one entry for two modes, and when the
    attribute bears the name of the basic column ['alt']. *)
Lemma long_form_data_missing_column_still_fails :
  (exists rid row,
      nth_error survey_pt 0 = Some (rid, row) /\
      In ("time"%string, ["drive_time"; "walk_time"]%string)
         survey_alt_attrs /\
      dict_get "walk_time" row = None) /\
  long_form_data survey_pt survey_alt_attrs ["age"%string] survey_modes
    true = Raise (ValueError "x not in list") /\
  Forall (fun r : value * series => dict_get "walk_time" (snd r) = None)
         survey /\
  long_form_data survey survey_alt_attrs ["income"%string] survey_modes
    true = Raise (KeyError "income") /\
  long_form_data survey short_alt_attrs ["age"%string] survey_modes true
  = Raise (ValueError "All arrays must be of the same length") /\
  long_form_data survey clashing_alt_attrs ["age"%string] survey_modes
    true = Raise (ValueError "All arrays must be of the same length").
Proof.
  split.
  { eexists. eexists. split; [reflexivity|].
    split; [left; reflexivity | reflexivity]. }
  split; [vm_compute; reflexivity|].
  split; [repeat constructor|].
  split; [vm_compute; reflexivity|].
  split; vm_compute; reflexivity.
Qed.

(** ** The upsampler *)

(** *** Reading ['+N'] and ['*N'] *)

Lemma digit_of_char (c : ascii) (d : Z) :
  digit_of c = Some d ->
  In c ["0"; "1"; "2"; "3"; "4"; "5"; "6"; "7"; "8"; "9"]%char /\
  (0 <= d)%Z.
Proof.
  destruct c as [b0 b1 b2 b3 b4 b5 b6 b7].
  destruct b0, b1, b2, b3, b4, b5, b6, b7; vm_compute;
    intros H; try discriminate H;
    (split; [intuition reflexivity | injection H as <-; discriminate]).
Qed.

Lemma digits_acc_nonneg (s : string) :
  forall acc n, (0 <= acc)%Z -> digits_acc s acc = Some n -> (0 <= n)%Z.
Proof.
  induction s as [|c t IH]; cbn [digits_acc]; intros acc n Hacc H.
  - injection H as <-. exact Hacc.
  - destruct (digit_of c) as [d|] eqn:Hd; [|discriminate].
    apply digit_of_char in Hd. apply (IH (10 * acc + d)%Z); [lia|exact H].
Qed.

Lemma digits_nonneg (s : string) (n : Z) :
  digits s = Some n -> (0 <= n)%Z.
Proof.
  destruct s as [|c t]; [discriminate|]. unfold digits.
  apply digits_acc_nonneg. lia.
Qed.

Lemma digits_head (c : ascii) (t : string) (n : Z) :
  digits (String c t) = Some n ->
  In c ["0"; "1"; "2"; "3"; "4"; "5"; "6"; "7"; "8"; "9"]%char.
Proof.
  unfold digits. cbn [digits_acc].
  destruct (digit_of c) as [d|] eqn:Hd; [|discriminate].
  intros _. exact (proj1 (digit_of_char c d Hd)).
Qed.

Lemma py_int_digits (s : string) (n : Z) :
  digits s = Some n -> py_int s = Ok n.
Proof.
  destruct s as [|c t]; [discriminate|]. intros H.
  pose proof (digits_head c t n H) as Hc. cbn [In] in Hc.
  unfold py_int. cbv zeta.
  repeat (destruct Hc as [<- | Hc]; [rewrite H; reflexivity|]).
  contradiction.
Qed.

Lemma span_dot_digits (s : string) :
  forall acc n, digits_acc s acc = Some n -> span_dot s = (s, None).
Proof.
  induction s as [|c t IH]; cbn [digits_acc]; intros acc n H; [reflexivity|].
  destruct (digit_of c) as [d|] eqn:Hd; [|discriminate].
  pose proof (proj1 (digit_of_char c d Hd)) as Hc. cbn [In] in Hc.
  specialize (IH _ _ H).
  repeat (destruct Hc as [<- | Hc];
          [cbn [span_dot]; rewrite IH; reflexivity|]).
  contradiction.
Qed.

Lemma py_float_digits (s : string) (n : Z) :
  digits s = Some n -> py_float s = Ok (n, 1%Z).
Proof.
  destruct s as [|c t]; [discriminate|]. intros H.
  pose proof (digits_head c t n H) as Hc. cbn [In] in Hc.
  assert (Hu : unsigned_float (String c t) = Some (n, 1%Z)).
  { unfold unsigned_float. unfold digits in H.
    rewrite (span_dot_digits (String c t) 0%Z n H). unfold digits.
    rewrite H. reflexivity. }
  unfold py_float. cbv zeta.
  repeat (destruct Hc as [<- | Hc]; [rewrite Hu; reflexivity|]).
  contradiction.
Qed.

Lemma read_num_new_promised (spec : string) (count : nat) (prev : option Z)
  (n : nat) :
  promised_new spec count = Some n ->
  read_num_new spec count prev = Ok (Some (Z.of_nat n)).
Proof.
  destruct spec as [|c t]; [discriminate|].
  destruct (Ascii.eqb c "+"%char) eqn:Eplus.
  - apply Ascii.eqb_eq in Eplus. subst c. cbn [promised_new read_num_new].
    destruct (digits t) as [m|] eqn:Hm; [|discriminate].
    intros H. injection H as <-.
    rewrite (py_int_digits t m Hm). cbn [bind].
    rewrite Z2Nat.id by exact (digits_nonneg t m Hm). reflexivity.
  - destruct (Ascii.eqb c "*"%char) eqn:Estar.
    + apply Ascii.eqb_eq in Estar. subst c. cbn [promised_new read_num_new].
      destruct (digits t) as [m|] eqn:Hm; [|discriminate].
      destruct (Z.leb_spec 1 m) as [Hle|]; [|discriminate].
      intros H. injection H as <-.
      rewrite (py_float_digits t m Hm). cbn [bind fst snd].
      rewrite Z.quot_1_r. do 2 apply f_equal. nia.
    + intros H. exfalso.
      destruct c as [b0 b1 b2 b3 b4 b5 b6 b7].
      destruct b0, b1, b2, b3, b4, b5, b6, b7;
        try discriminate H; discriminate.
Qed.

(** *** One alternative of [upsample_new] *)

Lemma chooses_in_range {P : Type} (alt_idx : Z) (d : lframe P) :
  (- Z.of_nat (length d) <= alt_idx < Z.of_nat (length d))%Z ->
  chooses alt_idx d = Ok (chooses_b alt_idx d).
Proof.
  intros Hr.
  assert (H : exists c, py_nth (choice_col d) alt_idx = Ok c).
  { unfold py_nth. cbv zeta. unfold choice_col. rewrite length_map.
    set (j := if (alt_idx <? 0)%Z then (alt_idx + Z.of_nat (length d))%Z
              else alt_idx).
    assert (Hj : (0 <= j < Z.of_nat (length d))%Z).
    { unfold j. destruct (Z.ltb_spec alt_idx 0); lia. }
    destruct (Z.ltb_spec j 0) as [|_]; [lia|].
    destruct (nth_error (map (@choice P) d) (Z.to_nat j)) as [c|] eqn:E;
      [eauto|].
    apply nth_error_None in E. rewrite length_map in E. lia. }
  destruct H as [c Hc]. unfold chooses_b, chooses. rewrite Hc. cbn [bind].
  destruct (Z.eqb c 1); reflexivity.
Qed.

Lemma filterM_chooses {P : Type} (alt_idx : Z) (l : list (lframe P)) :
  Forall (fun d : lframe P =>
            (- Z.of_nat (length d) <= alt_idx < Z.of_nat (length d))%Z) l ->
  filterM (chooses alt_idx) l = Ok (filter (chooses_b alt_idx) l).
Proof.
  induction 1 as [|d t Hd _ IH]; cbn [filterM filter]; [reflexivity|].
  rewrite (chooses_in_range alt_idx d Hd), IH. reflexivity.
Qed.

Lemma np_random_choice_ok {G : Type} (rnd : np_random G) (g : G)
  (count n : nat) :
  n = 0 \/ count <> 0 ->
  np_random_choice rnd g count (Z.of_nat n)
  = Ok (rand_choice rnd g count n).
Proof.
  intros H. unfold np_random_choice.
  destruct (Z.ltb_spec (Z.of_nat n) 0) as [|_]; [lia|].
  assert (E : Nat.eqb count 0 && negb (Z.eqb (Z.of_nat n) 0) = false).
  { destruct H as [-> | H]; [apply andb_false_r|].
    apply Nat.eqb_neq in H. rewrite H. reflexivity. }
  rewrite E, Nat2Z.id. reflexivity.
Qed.

Lemma mapM_list_getitem {A : Type} (l : list A) (idxs : list nat) :
  Forall (fun i => i < length l) idxs ->
  exists cs, mapM (list_getitem l) idxs = Ok cs /\
             length cs = length idxs /\
             Forall (fun c => In c l) cs.
Proof.
  induction 1 as [|i t Hi _ (cs & E & Hlen & Hin)]; cbn [mapM].
  - exists []. repeat split. constructor.
  - unfold list_getitem at 1.
    destruct (nth_error l i) as [a|] eqn:Ea;
      [|apply nth_error_None in Ea; lia].
    cbn [bind]. rewrite E. cbn [bind]. exists (a :: cs).
    split; [reflexivity|]. split; [cbn; lia|].
    constructor; [exact (nth_error_In l i Ea) | exact Hin].
Qed.

Section UpsampleLoop.

Context {P G : Type}.
Variable rnd : np_random G.
Hypothesis rnd_sound : choice_sound rnd.
Variable df : lframe P.

Lemma upsample_alt_ok (st : up_state P G) (kv : Z * string) :
  entry_ok df kv ->
  exists cs num g',
    upsample_alt rnd (groupby_group df) st kv
    = Ok (mk_up_state (new_casedata_list st ++ cs) num g') /\
    entry_added df kv cs.
Proof.
  destruct kv as [alt_idx spec]. intros (Hidx & n & Hn & Hcount).
  cbn [fst snd] in Hidx, Hn, Hcount.
  unfold upsample_alt.
  rewrite (filterM_chooses alt_idx (groupby_group df) Hidx). cbn [bind].
  fold (cases_choosing alt_idx df).
  rewrite (read_num_new_promised spec _ (num_new st) n Hn). cbn [bind].
  assert (Hc : n = 0 \/ length (cases_choosing alt_idx df) <> 0).
  { destruct Hcount as [H | H]; [left; exact H|right].
    destruct (cases_choosing alt_idx df); [congruence | discriminate]. }
  rewrite (np_random_choice_ok rnd (up_gen st) _ n Hc). cbn [bind].
  destruct (rnd_sound (up_gen st) (length (cases_choosing alt_idx df)) n)
    as [Hlen Hlt]; [tauto|].
  destruct (mapM_list_getitem (cases_choosing alt_idx df) _ Hlt)
    as (cs & E & Hcs & Hin).
  rewrite E. cbn [bind]. exists cs. eexists. eexists.
  split; [reflexivity|]. split; cbn [fst snd]; [|exact Hin].
  rewrite Hcs, Hlen. exact Hn.
Qed.

Lemma upsample_loop_ok (upsample_new : list (Z * string)) :
  Forall (entry_ok df) upsample_new ->
  forall st,
  exists added num g',
    foldM (upsample_alt rnd (groupby_group df)) upsample_new st
    = Ok (mk_up_state (new_casedata_list st ++ concat added) num g') /\
    Forall2 (entry_added df) upsample_new added.
Proof.
  induction 1 as [|kv t Hkv _ IH]; intros st; cbn [foldM].
  - exists [], (num_new st), (up_gen st). cbn [concat].
    rewrite app_nil_r. destruct st; split; [reflexivity | constructor].
  - destruct (upsample_alt_ok st kv Hkv) as (cs & num & g1 & E & Hcs).
    rewrite E. cbn [bind].
    destruct (IH (mk_up_state (new_casedata_list st ++ cs) num g1))
      as (added & num' & g' & E' & Hadded).
    rewrite E'. cbn [new_casedata_list]. exists (cs :: added), num', g'.
    cbn [concat]. rewrite app_assoc.
    split; [reflexivity | constructor; assumption].
Qed.

End UpsampleLoop.

(** *** Fresh case identifiers *)

Lemma fold_left_max_ge (t : list Z) :
  forall x, (x <= fold_left Z.max t x)%Z /\
            Forall (fun y => (y <= fold_left Z.max t x)%Z) t.
Proof.
  induction t as [|y t IH]; intros x; cbn [fold_left].
  - split; [lia | constructor].
  - destruct (IH (Z.max x y)) as [H1 H2].
    split; [lia|]. constructor; [lia | exact H2].
Qed.

Lemma array_max_bound (l : list Z) :
  l <> [] ->
  exists m, array_max (sorted_keys l) = Ok m /\
            Forall (fun y => (y <= m)%Z) l.
Proof.
  intros Hl. unfold array_max.
  destruct (sorted_keys l) as [|x t] eqn:E.
  - destruct l as [|y l']; [congruence|]. exfalso.
    assert (H : In y (sorted_keys (y :: l')))
      by (apply In_sorted_keys; left; reflexivity).
    rewrite E in H. exact H.
  - eexists. split; [reflexivity|].
    destruct (fold_left_max_ge t x) as [H1 H2].
    apply Forall_forall. intros y Hy.
    apply In_sorted_keys in Hy. rewrite E in Hy.
    destruct Hy as [<- | Hy]; [exact H1|].
    rewrite Forall_forall in H2. exact (H2 y Hy).
Qed.

(** * Further properties of the module *)

(** ** [long_form_data]: what a returned table tells about the survey *)

Lemma foldM_ok_each {A B : Type} (f : B -> A -> result B) (l : list A) :
  forall b b', foldM f l b = Ok b' ->
  forall x, In x l -> exists b1 b2, f b1 x = Ok b2.
Proof.
  induction l as [|y t IH]; intros b b' H x Hx; [destruct Hx|].
  cbn [foldM] in H.
  destruct (f b y) as [b1|e] eqn:E; cbn [bind] in H; [|discriminate].
  destruct Hx as [<- | Hx]; [eauto | exact (IH b1 b' H x Hx)].
Qed.

Lemma series_getitem_ok (row : series) (k : string) (v : value) :
  series_getitem row k = Ok v -> dict_get k row = Some v.
Proof.
  unfold series_getitem, dict_getitem.
  destruct (dict_get k row); intros H; [injection H as ->; reflexivity|].
  discriminate.
Qed.

Lemma long_form_row_ok_inv (alt_attrs : dict (list string))
  (generic_attrs : list string) (modes : list value) (y_true : bool)
  (obj obj' : dict (list value)) (it : value * series) :
  long_form_row alt_attrs generic_attrs modes y_true obj it = Ok obj' ->
  row_ok generic_attrs modes y_true it.
Proof.
  destruct it as [rid row]. unfold long_form_row. cbv beta iota zeta.
  intros H.
  apply bind_ok in H. destruct H as (o1 & _ & H).
  apply bind_ok in H. destruct H as (o2 & _ & H).
  apply bind_ok in H. destruct H as (mc & Hmc & H).
  apply bind_ok in H. destruct H as (o3 & _ & H).
  apply bind_ok in H. destruct H as (o4 & _ & H).
  split; cbn [snd].
  - intros ->. apply bind_ok in Hmc. destruct Hmc as (m & Hm & Hmc).
    apply bind_ok in Hmc. destruct Hmc as (i & Hi & _).
    exists m, i. split; [exact (series_getitem_ok row "mode" m Hm) | exact Hi].
  - intros Hmodes g Hg.
    destruct (foldM_ok_each _ generic_attrs o4 obj' H g Hg)
      as (b1 & b2 & Hb).
    apply bind_ok in Hb. destruct Hb as (cells & Hc & _).
    destruct modes as [|m0 t]; [congruence|].
    cbn [length replicateM] in Hc.
    apply bind_ok in Hc. destruct Hc as (v & Hv & _).
    exists v. exact (series_getitem_ok row g v Hv).
Qed.

(** X1.  [long_form_data] returns a table only for a survey it can read
    in full: when it returns, every row has a ['mode'] that is one of
    [modes] (if the choice is asked for) and every row has every generic
    attribute (if there is a mode at all). *)
Theorem long_form_data_rows_ok :
  forall (mode_table : mode_table_t) (alt_attrs : dict (list string))
         (generic_attrs : list string) (modes : list value) (y_true : bool)
         (df : frame),
    long_form_data mode_table alt_attrs generic_attrs modes y_true = Ok df ->
    Forall (row_ok generic_attrs modes y_true) mode_table.
Proof.
  intros rows alt_attrs generic_attrs modes y_true df H.
  unfold long_form_data in H. cbv zeta in H.
  apply bind_ok in H. destruct H as (obj & Hobj & _).
  apply Forall_forall. intros it Hit.
  destruct (foldM_ok_each _ rows _ obj Hobj it Hit) as (b1 & b2 & Hb).
  exact (long_form_row_ok_inv alt_attrs generic_attrs modes y_true b1 b2 it
           Hb).
Qed.

(** [long_form_data_rows_ok] on the survey of two travellers. *)
Lemma long_form_data_rows_ok_witness :
  exists df,
    long_form_data survey survey_alt_attrs ["age"%string] survey_modes true
    = Ok df /\
    Forall (row_ok ["age"%string] survey_modes true) survey.
Proof.
  eexists. split; [reflexivity|].
  exact (long_form_data_rows_ok survey survey_alt_attrs ["age"%string]
           survey_modes true _ eq_refl).
Defined.

(** ** [long_form_data]: the cells of the table *)

Section LongFormMore.

Variable alt_attrs : dict (list string).
Variable generic_attrs : list string.
Variable modes : list value.
Variable mode_table : mode_table_t.

Hypothesis keys_distinct :
  NoDup (basic_columns ++ dict_keys alt_attrs ++ generic_attrs).

Lemma alt_key_is_column (a : string * list string) :
  In a alt_attrs ->
  In (fst a) (basic_columns ++ dict_keys alt_attrs ++ generic_attrs).
Proof.
  intros Ha. apply in_or_app. right. apply in_or_app. left.
  unfold dict_keys. exact (in_map fst alt_attrs a Ha).
Qed.

Lemma long_table_keys (y_true : bool) :
  dict_keys (long_table alt_attrs generic_attrs modes y_true mode_table)
  = basic_columns ++ dict_keys alt_attrs ++ generic_attrs.
Proof.
  unfold long_table, dict_keys. rewrite map_map. cbn [fst]. apply map_id.
Qed.

Lemma length_group_column (y_true : bool) :
  nrows (long_table alt_attrs generic_attrs modes y_true mode_table)
  = length mode_table * length modes.
Proof.
  unfold long_table, nrows. cbn [basic_columns app map].
  apply length_flat_map_block. apply Forall_forall. intros it _.
  rewrite (cells_basic alt_attrs generic_attrs modes y_true keys_distinct
             it "group"%string) by (simpl; tauto).
  cbn. rewrite app_nil_r. apply repeat_length.
Qed.

Lemma length_alt_column (y_true : bool) (a : string * list string) :
  In a alt_attrs ->
  length (flat_map
            (fun it => row_cells alt_attrs generic_attrs modes y_true it
                         (fst a)) mode_table)
  = length mode_table * length (snd a).
Proof.
  intros Ha. apply length_flat_map_block. apply Forall_forall. intros it _.
  rewrite (cells_alt_attr alt_attrs generic_attrs modes y_true keys_distinct
             it a Ha).
  unfold alt_cells. apply length_map.
Qed.

End LongFormMore.

(** X2.  Without the choice ([y_true=False]) the ['mode'] column is not
    read: for a survey whose rows have every generic attribute, with
    distinct column names and one source column per mode in every list of
    [alt_attrs], the table is returned and its ['choice'] column is 0
    throughout. *)
Theorem long_form_data_without_choice :
  forall (mode_table : mode_table_t) (alt_attrs : dict (list string))
         (generic_attrs : list string) (modes : list value),
    NoDup (basic_columns ++ dict_keys alt_attrs ++ generic_attrs) ->
    Forall (fun a : string * list string => length (snd a) = length modes)
           alt_attrs ->
    Forall (fun it : value * series =>
              forall g, In g generic_attrs ->
                        exists v, dict_get g (snd it) = Some v) mode_table ->
    exists df,
      long_form_data mode_table alt_attrs generic_attrs modes false = Ok df /\
      nrows df = length mode_table * length modes /\
      forall i j,
        i < length mode_table -> j < length modes ->
        cell df "choice" (i * length modes + j) = Some (VInt 0).
Proof.
  intros rows alt_attrs generic_attrs modes Hnd Hlen Hgen.
  assert (Hrows : Forall (row_ok generic_attrs modes false) rows).
  { eapply Forall_impl; [|exact Hgen]. intros it Hit.
    split; [discriminate | intros _; exact Hit]. }
  exists (long_table alt_attrs generic_attrs modes false rows).
  split.
  { rewrite (long_form_data_table alt_attrs generic_attrs modes false Hnd
               rows Hrows).
    exact (from_dict_long_table alt_attrs generic_attrs modes false rows
             Hnd Hlen). }
  split; [exact (length_group_column alt_attrs generic_attrs modes rows Hnd
                   false)|].
  intros i j Hi Hj.
  destruct (nth_error rows i) as [it|] eqn:Eit;
    [|apply nth_error_None in Eit; lia].
  rewrite (cell_long_table alt_attrs generic_attrs modes false rows Hnd Hlen
             "choice"%string i j it) by (simpl; tauto || assumption).
  rewrite (cells_basic alt_attrs generic_attrs modes false Hnd it
             "choice"%string) by (simpl; tauto).
  cbn. apply nth_error_repeat. exact Hj.
Qed.

Lemma survey_unlabelled_generic :
  Forall (fun it : value * series =>
            forall g, In g ["age"%string] ->
                      exists v, dict_get g (snd it) = Some v)
         survey_unlabelled.
Proof.
  repeat constructor; intros g [<- | []]; eexists; reflexivity.
Qed.

(** [long_form_data_without_choice] on a survey that has no ['mode']
    column. *)
Lemma long_form_data_without_choice_witness :
  dict_get "mode" (snd (nth 0 survey_unlabelled (VInt 0, []))) = None /\
  exists df,
    long_form_data survey_unlabelled survey_alt_attrs ["age"%string]
      survey_modes false = Ok df /\
    nrows df = 4 /\
    cell df "choice" 3 = Some (VInt 0).
Proof.
  split; [reflexivity|].
  destruct (long_form_data_without_choice survey_unlabelled survey_alt_attrs
              ["age"%string] survey_modes survey_keys_distinct
              survey_alt_lengths survey_unlabelled_generic)
    as (df & Hdf & Hn & Hcell).
  exists df. split; [exact Hdf|]. split; [exact Hn|].
  apply (Hcell 1 1); cbn; lia.
Defined.

(** X3.  An alternative-specific attribute is copied from the source
    column that [alt_attrs] names for the alternative: when row [i] of
    the survey has the value [v] in the source column named at position
    [j] of [alt_attrs[a]], the long-form row [i * N + j] holds [v] in
    column [a]. *)
Theorem long_form_data_alt_attr_copied :
  forall (mode_table : mode_table_t) (alt_attrs : dict (list string))
         (generic_attrs : list string) (modes : list value) (y_true : bool),
    NoDup (basic_columns ++ dict_keys alt_attrs ++ generic_attrs) ->
    Forall (fun a : string * list string => length (snd a) = length modes)
           alt_attrs ->
    Forall (row_ok generic_attrs modes y_true) mode_table ->
    exists df,
      long_form_data mode_table alt_attrs generic_attrs modes y_true
      = Ok df /\
      forall i j rid row a srcs c v,
        nth_error mode_table i = Some (rid, row) ->
        In (a, srcs) alt_attrs ->
        nth_error srcs j = Some c ->
        dict_get c row = Some v ->
        cell df a (i * length modes + j) = Some v.
Proof.
  intros rows alt_attrs generic_attrs modes y_true Hnd Hlen Hrows.
  exists (long_table alt_attrs generic_attrs modes y_true rows). split.
  { rewrite (long_form_data_table alt_attrs generic_attrs modes y_true Hnd
               rows Hrows).
    exact (from_dict_long_table alt_attrs generic_attrs modes y_true rows
             Hnd Hlen). }
  intros i j rid row a srcs c v Hi Ha Hc Hv.
  assert (Hj : j < length modes).
  { rewrite Forall_forall in Hlen. rewrite <- (Hlen (a, srcs) Ha).
    cbn [snd]. apply nth_error_Some. rewrite Hc. discriminate. }
  rewrite (cell_long_table alt_attrs generic_attrs modes y_true rows Hnd
             Hlen a i j (rid, row)
             (alt_key_is_column alt_attrs generic_attrs (a, srcs) Ha)
             Hi Hj).
  pose proof (cells_alt_attr alt_attrs generic_attrs modes y_true Hnd
                (rid, row) (a, srcs) Ha) as Hcells.
  cbn [fst snd] in Hcells. rewrite Hcells. unfold alt_cells.
  rewrite nth_error_map, Hc. cbn [option_map].
  unfold series_get. rewrite Hv. reflexivity.
Qed.

(** [long_form_data_alt_attr_copied] on the survey of two travellers: the
    driving time of the second traveller. *)
Lemma long_form_data_alt_attr_copied_witness :
  exists df,
    long_form_data survey survey_alt_attrs ["age"%string] survey_modes true
    = Ok df /\
    cell df "time" 2 = Some (VInt 7).
Proof.
  destruct (long_form_data_alt_attr_copied survey survey_alt_attrs
              ["age"%string] survey_modes true survey_keys_distinct
              survey_alt_lengths (survey_rows_ok true))
    as (df & Hdf & Hcell).
  exists df. split; [exact Hdf|].
  exact (Hcell 1 0 (VInt 1) _ "time"%string
           ["drive_time"; "walk_time"]%string "drive_time"%string (VInt 7)
           eq_refl (or_introl eq_refl) eq_refl eq_refl).
Defined.

(** X4.  The columns of the long-form table are ['group'], ['alt'],
    ['choice'], the keys of [alt_attrs] and the generic attributes, in
    this order, and each of them has [R * N] cells. *)
Theorem long_form_data_columns :
  forall (mode_table : mode_table_t) (alt_attrs : dict (list string))
         (generic_attrs : list string) (modes : list value) (y_true : bool),
    NoDup (basic_columns ++ dict_keys alt_attrs ++ generic_attrs) ->
    Forall (fun a : string * list string => length (snd a) = length modes)
           alt_attrs ->
    Forall (row_ok generic_attrs modes y_true) mode_table ->
    exists df,
      long_form_data mode_table alt_attrs generic_attrs modes y_true
      = Ok df /\
      dict_keys df = basic_columns ++ dict_keys alt_attrs ++ generic_attrs /\
      Forall (fun kc : string * list value =>
                length (snd kc) = length mode_table * length modes) df.
Proof.
  intros rows alt_attrs generic_attrs modes y_true Hnd Hlen Hrows.
  exists (long_table alt_attrs generic_attrs modes y_true rows). split.
  { rewrite (long_form_data_table alt_attrs generic_attrs modes y_true Hnd
               rows Hrows).
    exact (from_dict_long_table alt_attrs generic_attrs modes y_true rows
             Hnd Hlen). }
  split; [apply long_table_keys|].
  apply Forall_forall. intros [k col] Hin. cbn [snd].
  unfold long_table in Hin. apply in_map_iff in Hin.
  destruct Hin as (k' & Hkc & Hk'). injection Hkc as <- <-.
  exact (proj2 (long_table_column alt_attrs generic_attrs modes y_true rows
                  Hnd Hlen k' Hk')).
Qed.

(** [long_form_data_columns] on the survey of two travellers. *)
Lemma long_form_data_columns_witness :
  exists df,
    long_form_data survey survey_alt_attrs ["age"%string] survey_modes true
    = Ok df /\
    dict_keys df = ["group"; "alt"; "choice"; "time"; "age"]%string.
Proof.
  destruct (long_form_data_columns survey survey_alt_attrs ["age"%string]
              survey_modes true survey_keys_distinct survey_alt_lengths
              (survey_rows_ok true)) as (df & Hdf & Hk & _).
  exists df. split; [exact Hdf | exact Hk].
Defined.

(** X5.  A list of [alt_attrs] that does not name exactly one source
    column per mode makes the columns of unequal length: on a non-empty
    survey that is otherwise readable, [pd.DataFrame.from_dict] raises
    [ValueError] and no table is returned. *)
Theorem long_form_data_ragged_alt_attrs :
  forall (mode_table : mode_table_t) (alt_attrs : dict (list string))
         (generic_attrs : list string) (modes : list value) (y_true : bool)
         (a : string) (srcs : list string),
    NoDup (basic_columns ++ dict_keys alt_attrs ++ generic_attrs) ->
    Forall (row_ok generic_attrs modes y_true) mode_table ->
    mode_table <> [] ->
    In (a, srcs) alt_attrs ->
    length srcs <> length modes ->
    long_form_data mode_table alt_attrs generic_attrs modes y_true
    = Raise (ValueError "All arrays must be of the same length").
Proof.
  intros rows alt_attrs generic_attrs modes y_true a srcs Hnd Hrows Hne Ha
         Hlen.
  rewrite (long_form_data_table alt_attrs generic_attrs modes y_true Hnd
             rows Hrows).
  unfold from_dict.
  destruct (same_length (long_table alt_attrs generic_attrs modes y_true
                           rows)) eqn:E; [|reflexivity].
  exfalso. unfold same_length in E. rewrite forallb_forall in E.
  specialize (E (a, flat_map
                      (fun it => row_cells alt_attrs generic_attrs modes
                                   y_true it a) rows)).
  cbn [snd] in E.
  rewrite (length_group_column alt_attrs generic_attrs modes rows Hnd
             y_true) in E.
  pose proof (length_alt_column alt_attrs generic_attrs modes rows Hnd
                y_true (a, srcs) Ha) as Hcol.
  cbn [fst snd] in Hcol. rewrite Hcol in E.
  assert (Hin : In (a, flat_map
                         (fun it => row_cells alt_attrs generic_attrs modes
                                      y_true it a) rows)
                   (long_table alt_attrs generic_attrs modes y_true rows)).
  { unfold long_table.
    apply (in_map (fun k => (k, flat_map
                                  (fun it => row_cells alt_attrs generic_attrs
                                               modes y_true it k) rows))).
    exact (alt_key_is_column alt_attrs generic_attrs (a, srcs) Ha). }
  apply E in Hin. apply Nat.eqb_eq in Hin.
  destruct rows as [|it t]; [congruence|]. cbn [length] in Hin. nia.
Qed.

Lemma ragged_keys_distinct :
  NoDup (basic_columns ++ dict_keys ragged_alt_attrs ++ ["age"%string]).
Proof.
  simpl. repeat constructor; simpl; intuition discriminate.
Qed.

(** [long_form_data_ragged_alt_attrs] on the survey of two travellers,
    with one source column for two modes. *)
Lemma long_form_data_ragged_alt_attrs_witness :
  long_form_data survey ragged_alt_attrs ["age"%string] survey_modes true
  = Raise (ValueError "All arrays must be of the same length").
Proof.
  apply (long_form_data_ragged_alt_attrs survey ragged_alt_attrs
           ["age"%string] survey_modes true "time"%string
           ["drive_time"%string] ragged_keys_distinct (survey_rows_ok true)).
  - discriminate.
  - left. reflexivity.
  - cbn. lia.
Defined.

Lemma fromkeys_fold_values {V : Type} (Q : V -> Prop) (v0 : V)
  (keys : list string) :
  Q v0 ->
  forall d, Forall (fun kc => Q (snd kc)) d ->
            Forall (fun kc => Q (snd kc))
                   (fold_left (fun d k => dict_set k v0 d) keys d).
Proof.
  intros Hv. induction keys as [|k t IH]; intros d Hd; cbn [fold_left];
    [exact Hd|].
  apply IH. exact (@dict_set_values V Q k v0 d Hd Hv).
Qed.

Lemma fromkeys_fold_keys {V : Type} (v0 : V) (keys : list string)
  (a : string) :
  forall d, In a (dict_keys (fold_left (fun d k => dict_set k v0 d) keys d))
            <-> In a (dict_keys d) \/ In a keys.
Proof.
  induction keys as [|k t IH]; intros d; cbn [fold_left In]; [tauto|].
  rewrite IH, In_dict_keys_set. intuition.
Qed.

(** X6.  On an empty survey [long_form_data] returns the table with the
    expected columns and no row. *)
Theorem long_form_data_empty_table :
  forall (alt_attrs : dict (list string)) (generic_attrs : list string)
         (modes : list value) (y_true : bool),
    exists df,
      long_form_data [] alt_attrs generic_attrs modes y_true = Ok df /\
      nrows df = 0 /\
      (forall k, In k (dict_keys df) <->
                 In k (basic_columns ++ dict_keys alt_attrs
                       ++ generic_attrs)) /\
      Forall (fun kc : string * list value => snd kc = []) df.
Proof.
  intros alt_attrs generic_attrs modes y_true.
  set (keys := basic_columns ++ dict_keys alt_attrs ++ generic_attrs).
  assert (Hv : Forall (fun kc : string * list value => snd kc = [])
                      (dict_fromkeys keys ([] : list value))).
  { unfold dict_fromkeys.
    apply (fromkeys_fold_values (fun c : list value => c = []) []);
      [reflexivity | constructor]. }
  assert (Hn : nrows (dict_fromkeys keys ([] : list value)) = 0).
  { unfold nrows.
    destruct (dict_fromkeys keys ([] : list value)) as [|[k c] t];
      [reflexivity|].
    inversion Hv as [|? ? Hc _]; subst. cbn [snd] in Hc. rewrite Hc.
    reflexivity. }
  exists (dict_fromkeys keys ([] : list value)).
  split; [|split; [exact Hn|split; [|exact Hv]]].
  - unfold long_form_data. cbv zeta. fold keys. cbn [foldM bind].
    unfold from_dict.
    assert (Hs : same_length (dict_fromkeys keys ([] : list value)) = true);
      [|rewrite Hs; reflexivity].
    unfold same_length. rewrite Hn. apply forallb_forall. intros kc Hkc.
    rewrite Forall_forall in Hv. rewrite (Hv kc Hkc). reflexivity.
  - intros k. unfold dict_fromkeys.
    rewrite (fromkeys_fold_keys ([] : list value) keys k []). cbn. tauto.
Qed.

(** ** [long_form_data_upsample]: nothing asked, nothing to draw from *)

Lemma foldM_app {A B : Type} (f : B -> A -> result B) (l1 l2 : list A) :
  forall b, foldM f (l1 ++ l2) b = bind (foldM f l1 b) (foldM f l2).
Proof.
  induction l1 as [|x t IH]; intros b; cbn [app foldM bind]; [reflexivity|].
  destruct (f b x) as [b1|e]; cbn [bind]; [apply IH | reflexivity].
Qed.


Lemma four_way_default_zero :
  Forall (fun kv : Z * string =>
            index_ok (fst kv) four_way /\
            promised_new (snd kv)
              (length (cases_choosing (fst kv) four_way)) = Some 0)
         default_upsample_new.
Proof.
  repeat constructor; cbn; lia.
Qed.


(** X8.  On an empty frame the upsampler never returns: whatever is asked
    for, a step of the loop raises or, at the latest,
    [np.array(caseIDs).max()] raises on the empty list of case IDs. *)
Theorem long_form_data_upsample_empty_input :
  forall (P G : Type) (rnd : np_random G) (upsample_new : list (Z * string))
         (seed : option Z) (g : G),
    exists e,
      long_form_data_upsample rnd ([] : lframe P) upsample_new seed g
      = Raise e.
Proof.
  intros P G rnd upsample_new seed g.
  unfold long_form_data_upsample. cbv zeta.
  destruct (foldM (upsample_alt rnd (groupby_group ([] : lframe P)))
              upsample_new
              (mk_up_state [] None (seed_if_given rnd seed g)))
    as [st|e]; cbn [bind]; [|eauto].
  cbn [group_col map sorted_keys fold_right array_max bind]. eauto.
Qed.

(** ** [long_form_data_upsample]: keys and values it cannot use *)

Lemma chooses_out_of_range {P : Type} (alt_idx : Z) (d : lframe P) :
  index_out_of_range alt_idx d -> chooses alt_idx d = Raise IndexError.
Proof.
  unfold index_out_of_range. intros Hr.
  unfold chooses, py_nth. cbv zeta. unfold choice_col. rewrite length_map.
  destruct (Z.ltb_spec alt_idx 0) as [Hneg|Hpos].
  - destruct (Z.ltb_spec (alt_idx + Z.of_nat (length d)) 0) as [_|Hj];
      [reflexivity | lia].
  - destruct (Z.ltb_spec alt_idx 0) as [|_]; [lia|].
    destruct (nth_error (map (@choice P) d) (Z.to_nat alt_idx)) as [c|] eqn:E;
      [|reflexivity].
    exfalso. assert (Hlt : Z.to_nat alt_idx < length (map (@choice P) d)).
    { apply nth_error_Some. rewrite E. discriminate. }
    rewrite length_map in Hlt. lia.
Qed.

Lemma filterM_chooses_out_of_range {P : Type} (alt_idx : Z)
  (l : list (lframe P)) :
  Exists (index_out_of_range alt_idx) l ->
  filterM (chooses alt_idx) l = Raise IndexError.
Proof.
  induction l as [|d t IH]; intros H; [inversion H|].
  cbn [filterM].
  destruct (Z_le_dec (- Z.of_nat (length d)) alt_idx) as [Hlo|Hlo];
    [destruct (Z_lt_dec alt_idx (Z.of_nat (length d))) as [Hhi|Hhi]|].
  - rewrite (chooses_in_range alt_idx d (conj Hlo Hhi)). cbn [bind].
    rewrite IH; [reflexivity|].
    inversion H as [? ? Hd|? ? Ht]; subst; [|exact Ht].
    exfalso. apply Hd. split; assumption.
  - rewrite (chooses_out_of_range alt_idx d); [reflexivity|].
    unfold index_out_of_range. lia.
  - rewrite (chooses_out_of_range alt_idx d); [reflexivity|].
    unfold index_out_of_range. lia.
Qed.


Lemma commuters_first_keys_ok :
  Forall (entry_ok commuters) [(0%Z, "+0"%string); (1%Z, "+0"%string)].
Proof.
  repeat constructor; cbn; try lia.
  - exists 0. split; [reflexivity | left; reflexivity].
  - exists 0. split; [reflexivity | left; reflexivity].
Qed.


Lemma read_num_new_unsigned (spec : string) (count : nat)
  (prev : option Z) :
  signed spec = false -> read_num_new spec count prev = Ok prev.
Proof.
  destruct spec as [|c t]; [reflexivity|].
  destruct c as [b0 b1 b2 b3 b4 b5 b6 b7].
  destruct b0, b1, b2, b3, b4, b5, b6, b7; cbn;
    intros H; try discriminate H; reflexivity.
Qed.

(** X10.  A value of [upsample_new] that starts with neither ['+'] nor
    ['*'] leaves [num_new] unassigned: as the first entry it makes the
    call raise [UnboundLocalError]. *)
Theorem long_form_data_upsample_unbound_num_new :
  forall (P G : Type) (rnd : np_random G) (df : lframe P)
         (rest : list (Z * string)) (alt_idx : Z) (spec : string)
         (seed : option Z) (g : G),
    index_ok alt_idx df ->
    signed spec = false ->
    long_form_data_upsample rnd df ((alt_idx, spec) :: rest) seed g
    = Raise (UnboundLocalError "num_new").
Proof.
  intros P G rnd df rest alt_idx spec seed g Hidx Hspec.
  unfold long_form_data_upsample. cbv zeta. cbn [foldM].
  unfold upsample_alt at 1.
  rewrite (filterM_chooses alt_idx (groupby_group df) Hidx). cbn [bind].
  rewrite (read_num_new_unsigned spec _ _ Hspec). reflexivity.
Qed.

(** [long_form_data_upsample_unbound_num_new] on two commuters, with the
    value ['2'] for the first alternative. *)
Lemma long_form_data_upsample_unbound_num_new_witness :
  long_form_data_upsample first_random commuters [(0%Z, "2"%string)]
    None tt
  = Raise (UnboundLocalError "num_new").
Proof.
  apply (long_form_data_upsample_unbound_num_new unit unit first_random
           commuters [] 0%Z "2"%string None tt).
  - unfold index_ok. cbn. repeat constructor; lia.
  - reflexivity.
Defined.

Lemma upsample_alt_run {P G : Type} (rnd : np_random G) (df : lframe P)
  (st : up_state P G) (alt_idx : Z) (spec : string) (n : nat) :
  choice_sound rnd ->
  index_ok alt_idx df ->
  read_num_new spec (length (cases_choosing alt_idx df)) (num_new st)
  = Ok (Some (Z.of_nat n)) ->
  n = 0 \/ cases_choosing alt_idx df <> [] ->
  exists cs g',
    upsample_alt rnd (groupby_group df) st (alt_idx, spec)
    = Ok (mk_up_state (new_casedata_list st ++ cs) (Some (Z.of_nat n)) g') /\
    length cs = n /\
    Forall (fun c => In c (cases_choosing alt_idx df)) cs.
Proof.
  intros Hrnd Hidx Hread Hcount. unfold upsample_alt.
  rewrite (filterM_chooses alt_idx (groupby_group df) Hidx). cbn [bind].
  fold (cases_choosing alt_idx df). rewrite Hread. cbn [bind].
  assert (Hc : n = 0 \/ length (cases_choosing alt_idx df) <> 0).
  { destruct Hcount as [H | H]; [left; exact H|right].
    destruct (cases_choosing alt_idx df); [congruence | discriminate]. }
  rewrite (np_random_choice_ok rnd (up_gen st) _ n Hc). cbn [bind].
  destruct (Hrnd (up_gen st) (length (cases_choosing alt_idx df)) n)
    as [Hlen Hlt]; [tauto|].
  destruct (mapM_list_getitem (cases_choosing alt_idx df) _ Hlt)
    as (cs & E & Hcs & Hin).
  rewrite E. cbn [bind]. exists cs. eexists.
  split; [reflexivity|]. split; [congruence | exact Hin].
Qed.



(** ** [logit_spec]: the two dictionaries go together *)

Lemma mapM_length {A B : Type} (f : A -> result B) (l : list A) :
  forall r, mapM f l = Ok r -> length r = length l.
Proof.
  induction l as [|x t IH]; cbn [mapM]; intros r H.
  - injection H as <-. reflexivity.
  - apply bind_ok in H. destruct H as (y & _ & H).
    apply bind_ok in H. destruct H as (r' & Hr' & H).
    injection H as <-. cbn [length]. rewrite (IH r' Hr'). reflexivity.
Qed.

Lemma shape_dict_set {V W : Type} (k : string) (v : list V) (w : list W) :
  length v = length w ->
  forall (sp : dict (list V)) (nm : dict (list W)),
    shape sp = shape nm ->
    shape (dict_set k v sp) = shape (dict_set k w nm).
Proof.
  intros Hvw. unfold shape.
  induction sp as [|[k1 v1] t IH]; intros [|[k2 w2] t'] H;
    cbn [map fst snd dict_set] in *; try discriminate H.
  - rewrite Hvw. reflexivity.
  - injection H as Hk Hl Ht. subst k2.
    destruct (String.eqb k1 k); cbn [map fst snd].
    + rewrite Hvw, Ht. reflexivity.
    + rewrite Hl, (IH t' Ht). reflexivity.
Qed.

Lemma non_ref_same_length (d : list (Z * string)) (nalt : nat)
  (ref_alt_idx : Z) (f1 f2 : string -> string) (r1 r2 : list string) :
  non_ref d nalt ref_alt_idx f1 = Ok r1 ->
  non_ref d nalt ref_alt_idx f2 = Ok r2 ->
  length r1 = length r2.
Proof.
  unfold non_ref. intros H1 H2.
  rewrite (mapM_length _ _ r1 H1), (mapM_length _ _ r2 H2). reflexivity.
Qed.

Lemma build_specification_aligned (alt_attr_vars generic_attrs : list string)
  (constant : bool) (alts : alts_arg) (ref_alt_idx : Z)
  (sn : specification_t * names_t) :
  build_specification alt_attr_vars generic_attrs constant alts ref_alt_idx
  = Ok sn ->
  shape (fst sn) = shape (snd sn).
Proof.
  unfold build_specification. cbv zeta. intros H.
  apply bind_ok in H. destruct H as (sn1 & H1 & H).
  apply bind_ok in H. destruct H as (sn2 & H2 & H).
  assert (I1 : shape (fst sn1) = shape (snd sn1)).
  { refine (foldM_ok_inv
              (fun s : specification_t * names_t =>
                 shape (fst s) = shape (snd s))
              _ alt_attr_vars _ ([], []) sn1 eq_refl H1).
    intros b x b' Hb Hx. unfold spec_alt_var in Hx. injection Hx as <-.
    cbn [fst snd]. apply shape_dict_set; [reflexivity | exact Hb]. }
  assert (I2 : shape (fst sn2) = shape (snd sn2)).
  { refine (foldM_ok_inv
              (fun s : specification_t * names_t =>
                 shape (fst s) = shape (snd s))
              _ generic_attrs _ sn1 sn2 I1 H2).
    intros b x b' Hb Hx. unfold spec_generic_var in Hx.
    apply bind_ok in Hx. destruct Hx as (sp & Hsp & Hx).
    apply bind_ok in Hx. destruct Hx as (nm & Hnm & Hx).
    injection Hx as <-. cbn [fst snd].
    apply shape_dict_set; [|exact Hb]. rewrite length_map.
    exact (non_ref_same_length _ _ _ _ _ sp nm Hsp Hnm). }
  destruct constant; [|injection H as <-; exact I2].
  unfold spec_constant in H.
  apply bind_ok in H. destruct H as (sp & Hsp & H).
  apply bind_ok in H. destruct H as (nm & Hnm & H).
  injection H as <-. cbn [fst snd].
  apply shape_dict_set; [|exact I2]. rewrite length_map.
  exact (non_ref_same_length _ _ _ _ _ sp nm Hsp Hnm).
Qed.

Lemma count_coefs_shape (sp : specification_t) (nm : names_t) :
  shape sp = shape nm -> count_coefs sp = count_names nm.
Proof.
  unfold count_coefs, count_names, shape. intros H.
  transitivity (list_sum (map snd (map (fun kv : string * list spec_item =>
                                          (fst kv, length (snd kv))) sp))).
  - rewrite map_map. reflexivity.
  - rewrite H, map_map. reflexivity.
Qed.

(** X12.  Whatever the variable names, the alternatives and the
    reference index, when [logit_spec] returns, the specification and the
    names it gave to pylogit have the same keys in the same order, with
    as many names as coefficient entries under each key, and [numCoef] is
    the total number of names. *)
Theorem logit_spec_names_aligned :
  forall (D M : Type) (create : D -> specification_t -> names_t -> result M)
         (long_data_df : D) (alt_attr_vars generic_attrs : list string)
         (constant : bool) (alts : alts_arg) (ref_alt_idx : Z) (m : M)
         (numCoef : nat),
    logit_spec create long_data_df alt_attr_vars generic_attrs constant
      alts ref_alt_idx = Ok (m, numCoef) ->
    exists sp nm,
      build_specification alt_attr_vars generic_attrs constant alts
        ref_alt_idx = Ok (sp, nm) /\
      create long_data_df sp nm = Ok m /\
      shape sp = shape nm /\
      numCoef = count_names nm.
Proof.
  intros D M create df av ga c alts ref m numCoef H.
  unfold logit_spec in H.
  apply bind_ok in H. destruct H as ([sp nm] & Hb & H).
  apply bind_ok in H. destruct H as (m' & Hm & H).
  cbn [fst snd] in Hm, H. injection H as -> <-.
  pose proof (build_specification_aligned av ga c alts ref (sp, nm) Hb)
    as Hs.
  cbn [fst snd] in Hs.
  exists sp, nm. repeat split; try assumption.
  apply count_coefs_shape. exact Hs.
Qed.

(** [logit_spec_names_aligned] on one alternative-specific variable, one
    generic variable and the constant, over the four default
    alternatives. *)
Lemma logit_spec_names_aligned_witness :
  exists sp nm,
    build_specification ["time"%string] ["age"%string] true default_alts 0
    = Ok (sp, nm) /\
    shape sp = shape nm /\ 7 = count_names nm.
Proof.
  destruct (logit_spec_names_aligned unit unit (fun _ _ _ => Ok tt) tt
              ["time"%string] ["age"%string] true default_alts 0%Z tt 7
              eq_refl) as (sp & nm & Hb & Hm & Hs & Hn).
  exists sp, nm. split; [exact Hb|]. split; [exact Hs | exact Hn].
Defined.

(** ** [logit_spec]: the keys of [alts] *)

Lemma zdict_get_enumerate (l : list string) :
  forall s i,
    s <= i < s + length l ->
    exists a,
      zdict_get (Z.of_nat i)
        (combine (map Z.of_nat (seq s (length l))) l) = Some a.
Proof.
  induction l as [|x t IH]; intros s i Hi; cbn [length] in *; [lia|].
  cbn [seq map combine zdict_get].
  destruct (Z.eqb_spec (Z.of_nat s) (Z.of_nat i)) as [_|Hne]; [eauto|].
  apply IH. lia.
Qed.

Lemma alts_cover_list (names : list string) : alts_cover (AltList names).
Proof.
  intros i Hi. cbn [alts_len alts_dict] in *.
  apply zdict_get_enumerate. lia.
Qed.

Lemma build_specification_cover (alt_attr_vars generic_attrs : list string)
  (constant : bool) (alts : alts_arg) (ref_alt_idx : Z) :
  alts_cover alts ->
  exists sn,
    build_specification alt_attr_vars generic_attrs constant alts
      ref_alt_idx = Ok sn.
Proof.
  intros Hc. unfold build_specification. cbv zeta.
  rewrite foldM_spec_alt_var. cbn [bind].
  rewrite (@foldM_spec_generic_var alts ref_alt_idx generic_attrs _ Hc).
  cbn [bind]. destruct constant; [|eauto].
  unfold spec_constant. rewrite !(@non_ref_ok alts ref_alt_idx _ Hc).
  cbn [bind]. eauto.
Qed.

(** X13.  With the alternatives given as a list of names, building the
    specification never fails, whatever the variable names and the
    reference index: [logit_spec] hands two dictionaries to pylogit and
    returns what pylogit makes of them, with the number of coefficient
    entries. *)
Theorem logit_spec_list_alts :
  forall (D M : Type) (create : D -> specification_t -> names_t -> result M)
         (long_data_df : D) (alt_attr_vars generic_attrs : list string)
         (constant : bool) (names : list string) (ref_alt_idx : Z),
    exists sp nm,
      build_specification alt_attr_vars generic_attrs constant
        (AltList names) ref_alt_idx = Ok (sp, nm) /\
      logit_spec create long_data_df alt_attr_vars generic_attrs constant
        (AltList names) ref_alt_idx
      = bind (create long_data_df sp nm)
             (fun m => Ok (m, count_coefs sp)).
Proof.
  intros D M create df av ga c names ref.
  destruct (build_specification_cover av ga c (AltList names) ref
              (alts_cover_list names)) as ([sp nm] & Hb).
  exists sp, nm. split; [exact Hb|].
  unfold logit_spec. rewrite Hb. reflexivity.
Qed.

Lemma mapM_raise_at {A B : Type} (f : A -> result B) (l1 l2 : list A)
  (x : A) (e : exn) :
  (forall y, In y l1 -> exists b, f y = Ok b) ->
  f x = Raise e ->
  mapM f (l1 ++ x :: l2) = Raise e.
Proof.
  intros Hl1 Hx. induction l1 as [|y t IH]; cbn [app mapM].
  - rewrite Hx. reflexivity.
  - destruct (Hl1 y (or_introl eq_refl)) as [b Hb]. rewrite Hb. cbn [bind].
    rewrite IH; [reflexivity|]. intros z Hz. apply Hl1. right. exact Hz.
Qed.

Lemma non_ref_missing_key (d : list (Z * string)) (nalt i : nat)
  (ref_alt_idx : Z) (f : string -> string) :
  i < nalt ->
  Z.of_nat i <> ref_alt_idx ->
  zdict_get (Z.of_nat i) d = None ->
  (forall j, j < i -> Z.of_nat j <> ref_alt_idx ->
             exists a, zdict_get (Z.of_nat j) d = Some a) ->
  non_ref d nalt ref_alt_idx f = Raise (IntKeyError (Z.of_nat i)).
Proof.
  intros Hi Hne Hnone Hbefore. unfold non_ref.
  replace nalt with (i + S (nalt - S i)) by lia.
  rewrite seq_app, map_app, filter_app. cbn [seq map filter plus].
  destruct (Z.eqb_spec (Z.of_nat i) ref_alt_idx) as [|_]; [contradiction|].
  cbn [negb]. apply mapM_raise_at.
  - intros y Hy. apply filter_In in Hy. destruct Hy as [Hy Hny].
    apply in_map_iff in Hy. destruct Hy as (j & <- & Hj).
    apply in_seq in Hj.
    destruct (Z.eqb_spec (Z.of_nat j) ref_alt_idx) as [|Hjr];
      [discriminate|].
    destruct (Hbefore j) as [a Ha]; [lia | exact Hjr|].
    unfold alts_getitem. rewrite Ha. cbn [bind]. eauto.
  - unfold alts_getitem. rewrite Hnone. reflexivity.
Qed.

(** X14.  [alts] given as a dictionary must have the indices of
    [range(N)] other than the reference index among its keys: when a
    generic variable or the constant is asked for, the first such index
    that is not a key makes [logit_spec] raise [KeyError] for it. *)
Theorem logit_spec_missing_alt_key :
  forall (D M : Type) (create : D -> specification_t -> names_t -> result M)
         (long_data_df : D) (alt_attr_vars generic_attrs : list string)
         (constant : bool) (alts : alts_arg) (ref_alt_idx : Z) (i : nat),
    i < alts_len alts ->
    Z.of_nat i <> ref_alt_idx ->
    zdict_get (Z.of_nat i) (alts_dict alts) = None ->
    (forall j, j < i -> Z.of_nat j <> ref_alt_idx ->
               exists a, zdict_get (Z.of_nat j) (alts_dict alts) = Some a) ->
    generic_attrs <> [] \/ constant = true ->
    logit_spec create long_data_df alt_attr_vars generic_attrs constant
      alts ref_alt_idx
    = Raise (IntKeyError (Z.of_nat i)).
Proof.
  intros D M create df av ga c alts ref i Hi Hne Hnone Hbefore Hasked.
  assert (Hnr : forall f,
             non_ref (alts_dict alts) (alts_len alts) ref f
             = Raise (IntKeyError (Z.of_nat i)))
    by (intros f; apply non_ref_missing_key; assumption).
  unfold logit_spec, build_specification. cbv zeta.
  rewrite foldM_spec_alt_var. cbn [bind].
  destruct ga as [|g t].
  - cbn [foldM bind]. destruct Hasked as [H | ->]; [congruence|].
    unfold spec_constant. rewrite Hnr. reflexivity.
  - cbn [foldM]. unfold spec_generic_var at 1. rewrite Hnr. reflexivity.
Qed.

(** [logit_spec_missing_alt_key] on two alternatives numbered from 1,
    with 1 as the reference: index 0 is not a key. *)
Lemma logit_spec_missing_alt_key_witness :
  logit_spec (fun (_ : unit) _ _ => Ok tt) tt ["time"%string] [] true
    one_indexed_alts 1
  = Raise (IntKeyError 0).
Proof.
  apply (logit_spec_missing_alt_key unit unit (fun _ _ _ => Ok tt) tt
           ["time"%string] [] true one_indexed_alts 1%Z 0).
  - cbn. lia.
  - discriminate.
  - reflexivity.
  - intros j Hj. lia.
  - right. reflexivity.
Defined.

Lemma length_non_ref_names_outside (alts : alts_arg) (ref_alt_idx : Z) :
  ~ (0 <= ref_alt_idx < Z.of_nat (alts_len alts))%Z ->
  length (non_ref_names alts ref_alt_idx) = alts_len alts.
Proof.
  intros Hr. unfold non_ref_names. rewrite length_map.
  rewrite forallb_filter_id; [rewrite length_map; apply length_seq|].
  apply forallb_forall. intros z Hz.
  apply in_map_iff in Hz. destruct Hz as (j & <- & Hj). apply in_seq in Hj.
  destruct (Z.eqb_spec (Z.of_nat j) ref_alt_idx); [lia | reflexivity].
Qed.

(** X15.  A reference index outside [range(N)] leaves no alternative
    out: for distinct variable names and an [alts] that names every index
    of [range(N)], every generic variable and the constant get [N]
    coefficients, and [numCoef] is [A + (G + (1 if c else 0)) * N]. *)
Theorem logit_spec_no_reference :
  forall (D M : Type) (create : D -> specification_t -> names_t -> result M)
         (long_data_df : D) (alt_attr_vars generic_attrs : list string)
         (constant : bool) (alts : alts_arg) (ref_alt_idx : Z) (m : M),
    NoDup (alt_attr_vars ++ generic_attrs
           ++ (if constant then ["intercept"%string] else [])) ->
    alts_cover alts ->
    ~ (0 <= ref_alt_idx < Z.of_nat (alts_len alts))%Z ->
    create long_data_df
      (expected_specification alt_attr_vars generic_attrs constant alts
         ref_alt_idx)
      (expected_names alt_attr_vars generic_attrs constant alts
         ref_alt_idx) = Ok m ->
    non_ref_names alts ref_alt_idx = map (alt_name alts)
                                         (map Z.of_nat
                                              (seq 0 (alts_len alts))) /\
    logit_spec create long_data_df alt_attr_vars generic_attrs constant
      alts ref_alt_idx
    = Ok (m, length alt_attr_vars
             + (length generic_attrs + (if constant then 1 else 0))
               * alts_len alts).
Proof.
  intros D M create df av ga c alts ref m Hnd Hc Hr Hm. split.
  - unfold non_ref_names. rewrite forallb_filter_id; [reflexivity|].
    apply forallb_forall. intros z Hz.
    apply in_map_iff in Hz. destruct Hz as (j & <- & Hj). apply in_seq in Hj.
    destruct (Z.eqb_spec (Z.of_nat j) ref); [lia | reflexivity].
  - unfold logit_spec.
    rewrite (@build_specification_expected av ga c alts ref Hnd Hc).
    cbn [bind fst snd]. rewrite Hm. cbn [bind].
    rewrite count_coefs_expected,
      (length_non_ref_names_outside alts ref Hr).
    reflexivity.
Qed.

(** [logit_spec_no_reference] over the four default alternatives with
    the reference index 4. *)
Lemma logit_spec_no_reference_witness :
  logit_spec (fun (_ : unit) _ _ => Ok tt) tt ["time"%string]
    ["age"%string] true default_alts 4
  = Ok (tt, 1 + (1 + 1) * 4).
Proof.
  refine (proj2 (logit_spec_no_reference unit unit (fun _ _ _ => Ok tt) tt
                   ["time"%string] ["age"%string] true default_alts 4%Z tt
                   _ default_alts_cover _ eq_refl)).
  - simpl. repeat constructor; simpl; intuition discriminate.
  - cbn. lia.
Defined.

(** ** [logit_est_disp]: the point-estimate branch *)

Lemma logit_est_disp_fallback {M : Type} (pl : pylogit M) (model0 : M)
  (numCoef : nat) (nalt : Z) (disp : bool) :
  ~ full_fit_ok pl model0 numCoef disp ->
  logit_est_disp pl model0 numCoef nalt disp
  = est_fallback pl (fst (fit_mle pl model0 numCoef)) numCoef nalt.
Proof.
  unfold full_fit_ok, logit_est_disp. intros Hno.
  destruct (fit_mle pl model0 numCoef) as [m1 r]. cbn [fst snd] in *.
  destruct r as [e|]; [reflexivity|].
  destruct disp.
  - destruct (get_statsmodels_summary pl m1); [|reflexivity].
    exfalso. apply Hno. split; [reflexivity | right; reflexivity].
  - exfalso. apply Hno. split; [reflexivity | left; reflexivity].
Qed.

Lemma NoDup_zip_keys {A B : Type} (l1 : list A) :
  NoDup l1 -> forall l2 : list B, NoDup (map fst (combine l1 l2)).
Proof.
  induction 1 as [|x t Hx Ht IH]; intros [|y l2]; cbn [combine map];
    try constructor.
  - intros Hin. apply Hx. apply in_map_iff in Hin.
    destruct Hin as ([a b] & Ha & Hin). cbn [fst] in Ha. subst a.
    exact (in_combine_l t l2 x b Hin).
  - apply IH.
Qed.

Lemma nth_error_zip {A B : Type} (l1 : list A) :
  forall (l2 : list B) (j : nat) (a : A) (b : B),
    nth_error (combine l1 l2) j = Some (a, b) <->
    nth_error l1 j = Some a /\ nth_error l2 j = Some b.
Proof.
  induction l1 as [|x t IH]; intros [|y l2] [|j] a b;
    cbn [combine nth_error]; try (split; [discriminate | intros [H1 H2];
                                          discriminate]).
  - split.
    + intros H. injection H as -> ->. split; reflexivity.
    + intros [H1 H2]. injection H1 as ->. injection H2 as ->. reflexivity.
  - apply IH.
Qed.

Lemma zip_lookup {V : Type} (names : list string) (beta : list V) :
  NoDup names ->
  forall i k,
    nth_error names i = Some k ->
    dict_get k (fold_left (fun d kv => dict_set (fst kv) (snd kv) d)
                          (combine names beta) [])
    = nth_error beta i.
Proof.
  intros Hnd i k Hk.
  destruct (nth_error beta i) as [b|] eqn:Hb.
  - apply (@params_fold_lookup V (combine names beta) [] k b).
    + apply NoDup_zip_keys. exact Hnd.
    + apply nth_error_In with (n := i).
      apply nth_error_zip. split; assumption.
  - rewrite (@params_fold_absent V (combine names beta) [] k);
      [reflexivity|].
    intros Hin. apply in_map_iff in Hin.
    destruct Hin as ([a b] & Ha & Hin). cbn [fst] in Ha. subst a.
    apply In_nth_error in Hin. destruct Hin as [j Hj].
    apply nth_error_zip in Hj. destruct Hj as [Hjk Hjb].
    assert (j = i).
    { apply (proj1 (NoDup_nth_error names) Hnd).
      - apply nth_error_Some. rewrite Hjk. discriminate.
      - rewrite Hjk, Hk. reflexivity. }
    subst j. rewrite Hb in Hjb. discriminate.
Qed.

(** X16.  In the point-estimate branch [params] pairs the variable
    names with the entries of [x] by position: for distinct names, the
    name at position [i] is mapped to [x[i]], and a name beyond the end
    of [x] is not a key. *)
Theorem logit_est_disp_point_params :
  forall (M : Type) (pl : pylogit M) (model0 : M) (numCoef : nat) (nalt : Z)
         (disp : bool) (beta : list R) (f : R),
    let m1 := fst (fit_mle pl model0 numCoef) in
    let m2 := fst (fit_mle_point pl m1 numCoef) in
    ~ full_fit_ok pl model0 numCoef disp ->
    snd (fit_mle_point pl m1 numCoef) = Ok (beta, f) ->
    nalt <> 0%Z ->
    NoDup (ind_var_names pl m2) ->
    exists md,
      logit_est_disp pl model0 numCoef nalt disp = Ok md /\
      just_point md = true /\
      forall i k,
        nth_error (ind_var_names pl m2) i = Some k ->
        dict_get k (params md) = nth_error beta i.
Proof.
  intros M pl model0 numCoef nalt disp beta f m1 m2 Hno Hfit Hnalt Hnd.
  rewrite (logit_est_disp_fallback pl model0 numCoef nalt disp Hno).
  fold m1. unfold est_fallback. subst m2.
  destruct (fit_mle_point pl m1 numCoef) as [m2 pr]. cbn [fst snd] in *.
  subst pr. cbn [bind].
  destruct (Z.eqb_spec nalt 0) as [|_]; [contradiction|]. cbn [bind fst].
  eexists. split; [reflexivity|]. split; [reflexivity|].
  cbn [params]. unfold params_of. intros i k Hk.
  exact (zip_lookup (ind_var_names pl m2) beta Hnd i k Hk).
Qed.

(** [logit_est_disp_point_params] on a model whose full fit fails and
    whose point fit returns [x = [1; 2]] for the variables [a] and
    [b]. *)
Lemma logit_est_disp_point_params_witness :
  exists md,
    logit_est_disp point_only_pylogit tt 2 4 false = Ok md /\
    just_point md = true /\
    dict_get "b" (params md) = Some 2%R.
Proof.
  destruct (logit_est_disp_point_params unit point_only_pylogit tt 2 4%Z
              false [1%R; 2%R] 0%R)
    as (md & Hmd & Hjp & Hlook).
  - intros [H _]. simpl in H. discriminate.
  - reflexivity.
  - discriminate.
  - simpl. repeat constructor; simpl; intuition discriminate.
  - exists md. split; [exact Hmd|]. split; [exact Hjp|].
    exact (Hlook 1 "b"%string eq_refl).
Defined.

(** X17.  With [nalt = 0] the point-estimate branch divides by zero:
    when the full fit does not run through and the point fit returns,
    [logit_est_disp] raises [ZeroDivisionError], also when nothing is to
    be displayed. *)
Theorem logit_est_disp_zero_alternatives :
  forall (M : Type) (pl : pylogit M) (model0 : M) (numCoef : nat)
         (disp : bool) (beta : list R) (f : R),
    ~ full_fit_ok pl model0 numCoef disp ->
    snd (fit_mle_point pl (fst (fit_mle pl model0 numCoef)) numCoef)
    = Ok (beta, f) ->
    logit_est_disp pl model0 numCoef 0 disp = Raise ZeroDivisionError.
Proof.
  intros M pl model0 numCoef disp beta f Hno Hfit.
  rewrite (logit_est_disp_fallback pl model0 numCoef 0 disp Hno).
  unfold est_fallback.
  destruct (fit_mle_point pl (fst (fit_mle pl model0 numCoef)) numCoef)
    as [m2 pr].
  cbn [snd] in Hfit. subst pr. reflexivity.
Qed.

(** [logit_est_disp_zero_alternatives] on a model whose full fit fails
    and whose point fit succeeds. *)
Lemma logit_est_disp_zero_alternatives_witness :
  logit_est_disp point_only_pylogit tt 2 0 false = Raise ZeroDivisionError.
Proof.
  apply (logit_est_disp_zero_alternatives unit point_only_pylogit tt 2
           false [1%R; 2%R] 0%R).
  - intros [H _]. simpl in H. discriminate.
  - reflexivity.
Defined.

(** ** [asclogit_pred]: the choice of [y] *)

Lemma asclogit_pred_run {M G : Type} (rnd : np_random G) (data_in : nframe)
  (md : modelDict M) (customIDColumnName method : string) (seed : option Z)
  (alts : alts_arg) (g : G) (ids : list R) :
  dict_get customIDColumnName data_in = Some ids ->
  ids <> [] ->
  long_shape data_in ids alts ->
  keys_in_range alts ->
  Forall (good_param alts data_in) (params md) ->
  exists v_raw,
    length v_raw = count_distinct ids /\
    Forall (fun row => length row = alts_len alts) v_raw /\
    0 < alts_len alts /\
    asclogit_pred rnd data_in md customIDColumnName method seed alts g
    = bind (predict_choice rnd method seed (map fst (alts_dict alts))
              (map stabilized_prob v_raw) g)
           (fun yg => Ok (Some (map stabilized_prob v_raw, fst yg, v_raw),
                          snd yg)).
Proof.
  intros Hid Hne Hshape Hkeys Hgood.
  set (k := count_distinct ids). set (c := alts_len alts).
  assert (Hk : 0 < k) by (apply count_distinct_pos; assumption).
  assert (Hidl : length ids = k * c)
    by exact (@dict_get_values _ (fun col : list R => length col = k * c)
                customIDColumnName ids data_in Hshape Hid).
  assert (Hc : 0 < c).
  { destruct c; [|lia]. destruct ids; [congruence|]. simpl in Hidl. lia. }
  destruct (@foldM_add_dummy c k (alts_dict alts) Hkeys [] [] (Forall_nil _))
    as (dm & Hdm & Hdk & Hdl).
  cbn [app] in Hdm. fold (alt_flags alts) in Hdm.
  assert (Hlen : frame_len data_in = k * c).
  { destruct data_in as [|[k0 c0] t]; [discriminate|].
    inversion Hshape; subst. assumption. }
  set (data0 := dict_set "utility" (repeat 0%R (frame_len data_in)) data_in).
  assert (Hinv : loop_inv data_in (k * c) data0).
  { split.
    - intros a. unfold data0. rewrite In_dict_keys_set. reflexivity.
    - apply (@dict_set_values _ (fun col : list R => length col = k * c));
        [exact Hshape|]. rewrite repeat_length. exact Hlen. }
  destruct (@calc_utilities_good alts data_in dm (k * c)
              (fun a Ha => proj2 (Hdk a) (or_intror Ha)) Hdl
              (params md) data0 Hinv Hgood) as (data1 & Hcalc & Hinv1).
  destruct (@loop_inv_column data_in (k * c) data1 "utility" Hinv1
              (or_intror eq_refl)) as (u & Hu & Hul).
  pose proof (@chunks_rows R c k u Hul) as Hrows.
  exists (chunks c k u).
  split; [apply length_chunks|]. split; [exact Hrows|]. split; [exact Hc|].
  assert (Hpl : Forall (fun row => length row = c)
                       (map stabilized_prob (chunks c k u))).
  { apply Forall_forall. intros r Hr. apply in_map_iff in Hr.
    destruct Hr as (v & <- & Hv).
    rewrite Forall_forall in Hrows. rewrite <- (Hrows v Hv).
    unfold stabilized_prob. cbv zeta. rewrite length_softmax.
    apply length_map. }
  unfold asclogit_pred, dict_getitem at 1. rewrite Hid. cbn [bind].
  fold k c. rewrite Hdm. cbn [bind fst snd]. fold data0. rewrite Hcalc.
  cbn [bind]. unfold dict_getitem. rewrite Hu. cbn [bind].
  rewrite (@reshape_rows_ok R k c u) by (assumption || lia).
  cbn [bind].
  rewrite reshape_cols_ok by (assumption || lia).
  reflexivity.
Qed.

Lemma argmax_from_spec (l : list R) :
  forall best bi i,
    let r := argmax_from best bi i l in
    (r = bi /\ Forall (fun x => (x <= best)%R) l) \/
    (exists j x,
        r = i + j /\ nth_error l j = Some x /\ (best < x)%R /\
        Forall (fun y => (y <= x)%R) l /\
        forall j' x', j' < j -> nth_error l j' = Some x' -> (x' < x)%R).
Proof.
  induction l as [|y t IH]; intros best bi i; cbn [argmax_from].
  - left. split; [reflexivity | constructor].
  - destruct (Rlt_dec best y) as [Hlt|Hge].
    + right. destruct (IH y i (S i)) as [[Hr Hall] | (j & x & Hr & Hj & Hx & Hall & Hbefore)].
      * exists 0, y. split; [lia|]. split; [reflexivity|].
        split; [exact Hlt|]. split.
        -- constructor; [lra | exact Hall].
        -- intros j' x' Hj'. lia.
      * exists (S j), x. split; [lia|]. split; [exact Hj|].
        split; [lra|]. split.
        -- constructor; [lra | exact Hall].
        -- intros [|j'] x' Hj' Hx'; cbn [nth_error] in Hx'.
           ++ injection Hx' as <-. exact Hx.
           ++ apply (Hbefore j' x'); [lia | exact Hx'].
    + destruct (IH best bi (S i)) as [[Hr Hall] | (j & x & Hr & Hj & Hx & Hall & Hbefore)].
      * left. split; [exact Hr|]. constructor; [lra | exact Hall].
      * right. exists (S j), x. split; [lia|]. split; [exact Hj|].
        split; [exact Hx|]. split.
        -- constructor; [lra | exact Hall].
        -- intros [|j'] x' Hj' Hx'; cbn [nth_error] in Hx'.
           ++ injection Hx' as <-. lra.
           ++ apply (Hbefore j' x'); [lia | exact Hx'].
Qed.

(** [row.argmax()] is the first position of a largest entry. *)
Lemma argmax_first_max (l : list R) :
  l <> [] ->
  argmax l < length l /\
  exists m,
    nth_error l (argmax l) = Some m /\
    Forall (fun x => (x <= m)%R) l /\
    forall j x, j < argmax l -> nth_error l j = Some x -> (x < m)%R.
Proof.
  destruct l as [|x t]; [congruence|]. intros _. cbn [argmax].
  destruct (argmax_from_spec t x 0 1)
    as [[Hr Hall] | (j & m & Hr & Hj & Hm & Hall & Hbefore)];
    cbv zeta in *.
  - rewrite Hr. split; [cbn; lia|]. exists x. split; [reflexivity|].
    split; [constructor; [lra | exact Hall]|]. intros j y Hj. lia.
  - rewrite Hr. split.
    + cbn [length]. assert (j < length t); [|lia].
      apply nth_error_Some. rewrite Hj. discriminate.
    + exists m. split; [exact Hj|].
      split; [constructor; [lra | exact Hall]|].
      intros [|j'] y Hj' Hy; cbn [nth_error] in Hy.
      * injection Hy as <-. exact Hm.
      * apply (Hbefore j' y); [lia | exact Hy].
Qed.


Lemma one_case_shape : long_shape one_case_frame [1%R; 1%R] two_alts.
Proof.
  unfold long_shape. rewrite count_distinct_one_case. repeat constructor.
Qed.

Lemma two_alts_keys_in_range : keys_in_range two_alts.
Proof.
  unfold keys_in_range. simpl. repeat constructor; simpl; lia.
Qed.

Lemma md_time_good :
  Forall (good_param two_alts one_case_frame) (params md_time).
Proof.
  constructor; [|constructor]. left. split; [reflexivity|].
  left. simpl. tauto.
Qed.


(** X19.  A [method] other than ['max'], ['random'] and ['none'] leaves
    [y] unassigned: after the utilities and the probabilities have been
    computed, the [return] raises [UnboundLocalError]. *)
Theorem asclogit_pred_unknown_method :
  forall (M G : Type) (rnd : np_random G) (data_in : nframe)
         (md : modelDict M) (customIDColumnName method : string)
         (seed : option Z) (alts : alts_arg) (g : G) (ids : list R),
    dict_get customIDColumnName data_in = Some ids ->
    ids <> [] ->
    long_shape data_in ids alts ->
    keys_in_range alts ->
    Forall (good_param alts data_in) (params md) ->
    ~ In method ["max"; "random"; "none"]%string ->
    asclogit_pred rnd data_in md customIDColumnName method seed alts g
    = Raise (UnboundLocalError "y").
Proof.
  intros M G rnd data_in md idcol method seed alts g ids
         Hid Hne Hshape Hkeys Hgood Hmeth.
  destruct (asclogit_pred_run rnd data_in md idcol method seed alts g ids
              Hid Hne Hshape Hkeys Hgood) as (v_raw & _ & _ & _ & E).
  rewrite E. unfold predict_choice.
  destruct (String.eqb_spec method "max") as [->|_];
    [exfalso; apply Hmeth; simpl; tauto|].
  destruct (String.eqb_spec method "random") as [->|_];
    [exfalso; apply Hmeth; simpl; tauto|].
  destruct (String.eqb_spec method "none") as [->|_];
    [exfalso; apply Hmeth; simpl; tauto|].
  reflexivity.
Qed.

(** [asclogit_pred_unknown_method] on one case of two rows, with the
    method ['best']. *)
Lemma asclogit_pred_unknown_method_witness :
  asclogit_pred first_random one_case_frame md_time "group" "best" None
    two_alts tt
  = Raise (UnboundLocalError "y").
Proof.
  apply (asclogit_pred_unknown_method unit unit first_random one_case_frame
           md_time "group"%string "best"%string None two_alts tt
           [1%R; 1%R] eq_refl).
  - discriminate.
  - exact one_case_shape.
  - exact two_alts_keys_in_range.
  - exact md_time_good.
  - simpl. intuition discriminate.
Defined.

(** ** [asclogit_pred]: the keys of [alts] *)

Lemma py_list_set_out_of_range {A : Type} (l : list A) (i : Z) (v : A) :
  ~ (- Z.of_nat (length l) <= i < Z.of_nat (length l))%Z ->
  py_list_set l i v = Raise IndexError.
Proof.
  intros Hi. unfold py_list_set. cbv zeta.
  destruct (Z.ltb_spec i 0).
  - destruct (Z.ltb_spec (i + Z.of_nat (length l)) 0); [reflexivity|].
    destruct (Z.leb_spec (Z.of_nat (length l)) (i + Z.of_nat (length l)));
      [reflexivity | lia].
  - destruct (Z.ltb_spec i 0); [lia|].
    destruct (Z.leb_spec (Z.of_nat (length l)) i); [reflexivity | lia].
Qed.

Lemma foldM_add_dummy_out_of_range (nalt k : nat) (l : list (Z * string)) :
  Exists (key_out_of_range nalt) l ->
  forall st, foldM (add_dummy nalt k) l st = Raise IndexError.
Proof.
  induction l as [|[idx name] t IH]; intros H st; [inversion H|].
  cbn [foldM]. unfold add_dummy at 1.
  destruct (Z_le_dec (- Z.of_nat nalt) idx) as [Hlo|Hlo];
    [destruct (Z_lt_dec idx (Z.of_nat nalt)) as [Hhi|Hhi]|].
  - destruct (@py_list_set_ok R (repeat 0%R nalt) idx 1%R) as (tmp & E & _);
      [rewrite repeat_length; lia|].
    rewrite E. cbn [bind]. apply IH.
    inversion H as [? ? Hd|? ? Ht]; subst; [|exact Ht].
    exfalso. apply Hd. cbn [fst]. lia.
  - rewrite py_list_set_out_of_range by (rewrite repeat_length; lia).
    reflexivity.
  - rewrite py_list_set_out_of_range by (rewrite repeat_length; lia).
    reflexivity.
Qed.

(** X20.  Every key of [alts] is used as an index into a list of [N]
    entries ([tmp[alt_idx] = 1]): when the case-ID column exists and some
    key is outside [-N, N), [asclogit_pred] raises [IndexError], as for
    alternatives numbered from 1. *)
Theorem asclogit_pred_alt_key_out_of_range :
  forall (M G : Type) (rnd : np_random G) (data_in : nframe)
         (md : modelDict M) (customIDColumnName method : string)
         (seed : option Z) (alts : alts_arg) (g : G) (ids : list R),
    dict_get customIDColumnName data_in = Some ids ->
    Exists (key_out_of_range (alts_len alts)) (alts_dict alts) ->
    asclogit_pred rnd data_in md customIDColumnName method seed alts g
    = Raise IndexError.
Proof.
  intros M G rnd data_in md idcol method seed alts g ids Hid Hout.
  unfold asclogit_pred, dict_getitem at 1. rewrite Hid. cbn [bind].
  rewrite (foldM_add_dummy_out_of_range (alts_len alts)
             (count_distinct ids) (alts_dict alts) Hout).
  reflexivity.
Qed.

(** [asclogit_pred_alt_key_out_of_range] on two alternatives numbered
    from 1. *)
Lemma asclogit_pred_alt_key_out_of_range_witness :
  asclogit_pred first_random one_case_frame md_time "group" "max" None
    one_indexed_alts tt
  = Raise IndexError.
Proof.
  apply (asclogit_pred_alt_key_out_of_range unit unit first_random
           one_case_frame md_time "group"%string "max"%string None
           one_indexed_alts tt [1%R; 1%R] eq_refl).
  apply Exists_cons_tl. apply Exists_cons_hd.
  unfold key_out_of_range. cbn. lia.
Defined.

(** ** The names [logit_spec] makes and [asclogit_pred] reads *)

Lemma string_append_assoc (a b c : string) :
  ((a ++ b) ++ c = a ++ (b ++ c))%string.
Proof.
  induction a as [|x t IH]; cbn [append]; [reflexivity|].
  rewrite IH. reflexivity.
Qed.

Lemma string_append_nil_r (a : string) : (a ++ "" = a)%string.
Proof.
  induction a as [|x t IH]; cbn [append]; [reflexivity|].
  rewrite IH. reflexivity.
Qed.

Lemma string_length_append (a b : string) :
  String.length (a ++ b) = String.length a + String.length b.
Proof.
  induction a as [|x t IH]; cbn [append String.length]; [reflexivity|].
  rewrite IH. reflexivity.
Qed.

Lemma substring_all (s : string) : substring 0 (String.length s) s = s.
Proof.
  induction s as [|x t IH]; cbn [substring String.length]; [reflexivity|].
  rewrite IH. reflexivity.
Qed.

Lemma substring_suffix (a b : string) :
  substring (String.length a) (String.length b) (a ++ b) = b.
Proof.
  induction a as [|x t IH]; cbn [append String.length substring].
  - apply substring_all.
  - exact IH.
Qed.

Lemma endswith_append (a b : string) : endswith (a ++ b) b = true.
Proof.
  unfold endswith. cbv zeta. rewrite string_length_append.
  destruct (Nat.leb_spec (String.length b)
              (String.length a + String.length b)) as [_|H]; [|lia].
  replace (String.length a + String.length b - String.length b)
    with (String.length a) by lia.
  rewrite substring_suffix. apply String.eqb_refl.
Qed.

(** Reading a piece that has no space: no match of [" for "] starts in
    it. *)
Lemma split_go_no_space (s rest cur : string) :
  no_space s = true ->
  split_go " for " (s ++ rest) 0 cur = split_go " for " rest 0 (cur ++ s).
Proof.
  revert cur. induction s as [|c t IH]; intros cur Hs.
  - cbn [append]. rewrite string_append_nil_r. reflexivity.
  - cbn [no_space] in Hs. apply andb_prop in Hs. destruct Hs as [Hc Ht].
    cbn [append split_go].
    assert (Hp : String.prefix " for " (String c (t ++ rest)) = false).
    { cbn [String.prefix].
      destruct (ascii_dec " "%char c) as [<-|_]; [discriminate Hc|].
      reflexivity. }
    rewrite Hp. rewrite (IH (cur ++ String c "")%string Ht).
    rewrite string_append_assoc. reflexivity.
Qed.

Lemma split_go_cons0 (sep : string) (c : ascii) (t cur : string) :
  split_go sep (String c t) 0 cur
  = if String.prefix sep (String c t)
    then cur :: split_go sep t (String.length sep - 1) EmptyString
    else split_go sep t 0 (cur ++ String c EmptyString)%string.
Proof.
  reflexivity.
Qed.

Lemma split_go_consS (sep : string) (c : ascii) (t cur : string) (k : nat) :
  split_go sep (String c t) (S k) cur = split_go sep t k cur.
Proof.
  reflexivity.
Qed.

Lemma prefix_append (s t : string) : String.prefix s (s ++ t) = true.
Proof.
  induction s as [|c s' IH]; cbn [append String.prefix].
  - destruct t; reflexivity.
  - destruct (ascii_dec c c) as [_|H]; [exact IH | congruence].
Qed.

Lemma split_go_separator (a cur : string) :
  split_go " for " (" for " ++ a) 0 cur
  = cur :: split_go " for " a 0 EmptyString.
Proof.
  pose proof (prefix_append " for " a) as Hp.
  change (" for " ++ a)%string
    with (String " " (String "f" (String "o" (String "r" (String " " a)))))
    in *.
  rewrite split_go_cons0, Hp.
  change (String.length " for " - 1) with 4.
  rewrite !split_go_consS. reflexivity.
Qed.

Lemma str_split_round_trip (var a : string) :
  no_space var = true -> no_space a = true ->
  str_split " for " (var ++ " for " ++ a) = [var; a].
Proof.
  intros Hvar Ha. unfold str_split.
  rewrite (split_go_no_space var (" for " ++ a) "" Hvar).
  rewrite split_go_separator.
  pose proof (split_go_no_space a "" "" Ha) as Hrest.
  rewrite string_append_nil_r in Hrest. rewrite Hrest.
  reflexivity.
Qed.

(** X22.  The names that [logit_spec] gives to the coefficients of a
    generic variable and of the constant, [var + ' for ' + alt] and
    ['ASC for ' + alt], are read back by [asclogit_pred]: when neither
    [var] nor [alt] contains a space and [alt] is an alternative, the name
    ends with one of the flags and splits into [var] and [alt]. *)
Theorem case_specific_name_round_trip :
  forall (alts : alts_arg) (var a : string),
    no_space var = true ->
    no_space a = true ->
    In a (alt_names alts) ->
    endswith_any (var ++ " for " ++ a) (alt_flags alts) = true /\
    str_split " for " (var ++ " for " ++ a) = [var; a].
Proof.
  intros alts var a Hvar Ha Hin.
  split; [|exact (str_split_round_trip var a Hvar Ha)].
  unfold endswith_any. apply existsb_exists.
  exists (" for " ++ a)%string. split.
  - unfold alt_flags. unfold alt_names in Hin.
    apply in_map_iff in Hin. destruct Hin as (kv & <- & Hkv).
    apply in_map_iff. exists kv. split; [reflexivity | exact Hkv].
  - apply endswith_append.
Qed.

(** [case_specific_name_round_trip] on the constant of the alternative
    ['walk']. *)
Lemma case_specific_name_round_trip_witness :
  endswith_any "ASC for walk" (alt_flags two_alts) = true /\
  str_split " for " "ASC for walk" = ["ASC"; "walk"]%string.
Proof.
  apply (case_specific_name_round_trip two_alts "ASC" "walk").
  - reflexivity.
  - reflexivity.
  - simpl. tauto.
Defined.

(** ** [logit_cv]: the folds *)

(** X23.  Too few folds end [logit_cv] before any model is fitted: with
    [nfold = 0] the fold size divides by zero, and with [nfold = 1] the
    only fold leaves no training data, so that [pd.concat] raises
    [ValueError] on the empty list. *)
Theorem logit_cv_too_few_folds :
  forall (P M G : Type) (env : cv_env P M G) (data : lframe P)
         (alt_attr_vars generic_attrs : list string) (constant : bool)
         (seed : option Z) (alts : alts_arg)
         (upsample_new : list (Z * string)) (method : string) (g : G),
    logit_cv env data alt_attr_vars generic_attrs constant 0 seed alts
      upsample_new method g
    = Raise ZeroDivisionError /\
    logit_cv env data alt_attr_vars generic_attrs constant 1 seed alts
      upsample_new method g
    = Raise (ValueError "No objects to concatenate").
Proof.
  intros P M G env data av ga c seed alts up method g. split.
  - reflexivity.
  - unfold logit_cv, cv_split, fold_size. cbv zeta.
    cbn [Nat.eqb bind fst snd cv_data seq map foldM].
    unfold cv_fold at 1. cbv zeta.
    cbn [fst snd filter Nat.eqb negb map pd_concat bind]. reflexivity.
Qed.

(** X24.  A fold dataset is made of whole cases of the input, in the
    order of the input: every row of a fold is a row of the data, and a
    row of the data whose case has a row in the fold is in the fold
    too. *)
Theorem cv_split_whole_cases :
  forall (P G : Type) (rnd : np_random G) (data : lframe P) (nfold : nat)
         (seed : option Z) (g : G) (folds : list (nat * lframe P)) (g' : G),
    cv_split rnd data nfold seed g = Ok (folds, g') ->
    forall i f,
      In (i, f) folds ->
      (exists keep, f = filter keep data) /\
      (forall r, In r f -> In r data) /\
      (forall r, In r data -> In (group r) (group_col f) -> In r f).
Proof.
  intros P G rnd data nfold seed g folds g' H i f Hf.
  unfold cv_split in H. cbv zeta in H.
  apply bind_ok in H. destruct H as (n & _ & H). injection H as <- _.
  apply In_cv_data in Hf. destruct Hf as [_ ->].
  split; [eexists; reflexivity|]. split.
  - intros r Hr. unfold isin_group in Hr. apply filter_In in Hr. tauto.
  - intros r Hr Hg. apply In_isin_group in Hg. destruct Hg as [Hids _].
    unfold isin_group. apply filter_In. split; [exact Hr|].
    apply existsb_exists. exists (group r). split; [exact Hids|].
    apply Z.eqb_refl.
Qed.

(** [cv_split_whole_cases] on three cases cut into two folds. *)
Lemma cv_split_whole_cases_witness :
  exists folds f,
    cv_split first_random three_cases 2 None tt = Ok (folds, tt) /\
    In (0, f) folds /\
    forall r, In r f -> In r three_cases.
Proof.
  eexists. eexists. split; [reflexivity|]. split; [left; reflexivity|].
  exact (proj1 (proj2 (cv_split_whole_cases unit unit first_random
                         three_cases 2 None tt _ tt eq_refl 0 _
                         (or_introl eq_refl)))).
Defined.

(** ** Positions in tiled and reshaped arrays *)

Lemma nth_tile {A : Type} (tmp : list A) (d : A) (k : nat) :
  forall i j,
    i < k -> j < length tmp ->
    nth (i * length tmp + j) (tile tmp k) d = nth j tmp d.
Proof.
  unfold tile. induction k as [|k IH]; intros i j Hi Hj; [lia|].
  cbn [repeat concat]. destruct i as [|i].
  - cbn [Nat.mul Nat.add]. apply app_nth1. exact Hj.
  - rewrite app_nth2 by (cbn [Nat.mul]; lia).
    replace (S i * length tmp + j - length tmp) with (i * length tmp + j)
      by (cbn [Nat.mul]; lia).
    apply IH; [lia | exact Hj].
Qed.

Lemma nth_chunks {A : Type} (d : A) (c : nat) :
  forall (k : nat) (u : list A) (i j : nat),
    length u = k * c -> i < k -> j < c ->
    nth j (nth i (chunks c k u) []) d = nth (i * c + j) u d.
Proof.
  induction k as [|k IH]; intros u i j Hu Hi Hj; [lia|].
  cbn [chunks]. cbn [Nat.mul] in Hu.
  assert (Hf : length (firstn c u) = c) by (rewrite length_firstn; lia).
  replace (nth (i * c + j) u d)
    with (nth (i * c + j) (firstn c u ++ skipn c u) d)
    by (rewrite firstn_skipn; reflexivity).
  destruct i as [|i]; cbn [nth].
  - cbn [Nat.mul Nat.add]. rewrite app_nth1 by lia. reflexivity.
  - rewrite app_nth2 by (rewrite Hf; cbn [Nat.mul]; lia).
    rewrite Hf.
    replace (S i * c + j - c) with (i * c + j) by (cbn [Nat.mul]; lia).
    apply IH; [rewrite length_skipn; lia | lia | exact Hj].
Qed.

Lemma find_by_name (d : list (Z * string)) (kv : Z * string) :
  NoDup (map snd d) -> In kv d ->
  find (fun kv' : Z * string => String.eqb (snd kv') (snd kv)) d = Some kv.
Proof.
  induction d as [|x t IH]; intros Hnd Hin; [destruct Hin|].
  cbn [map] in Hnd. inversion Hnd as [|? ? Hnot Hnd']; subst.
  cbn [find]. destruct Hin as [-> | Hin].
  - rewrite String.eqb_refl. reflexivity.
  - destruct (String.eqb_spec (snd x) (snd kv)) as [E|_];
      [|exact (IH Hnd' Hin)].
    exfalso. apply Hnot. rewrite E. apply in_map. exact Hin.
Qed.

(** ** [asclogit_pred]: a variable that is no column *)

(** X26.  A parameter of an alternative-specific variable that is no
    column of the frame makes [data[varname]] raise [KeyError]: after
    parameters that are processed, the call ends with [KeyError] for the
    variable (whereas it returns [None] for a case-specific variable that
    is no column). *)
Theorem asclogit_pred_missing_alt_variable :
  forall (M G : Type) (rnd : np_random G) (data_in : nframe)
         (md : modelDict M) (customIDColumnName method : string)
         (seed : option Z) (alts : alts_arg) (g : G) (ids : list R)
         (pre post : list (string * R)) (varname : string) (param : R),
    dict_get customIDColumnName data_in = Some ids ->
    ids <> [] ->
    long_shape data_in ids alts ->
    keys_in_range alts ->
    params md = pre ++ (varname, param) :: post ->
    Forall (good_param alts data_in) pre ->
    endswith_any varname (alt_flags alts) = false ->
    ~ is_column data_in varname ->
    asclogit_pred rnd data_in md customIDColumnName method seed alts g
    = Raise (KeyError varname).
Proof.
  intros M G rnd data_in md idcol method seed alts g ids pre post varname
         param Hid Hne Hshape Hkeys Hps Hgood Hflag Hcol.
  set (k := count_distinct ids). set (c := alts_len alts).
  destruct (@foldM_add_dummy c k (alts_dict alts) Hkeys [] [] (Forall_nil _))
    as (dm & Hdm & Hdk & Hdl).
  cbn [app] in Hdm. fold (alt_flags alts) in Hdm.
  assert (Hlen : frame_len data_in = k * c).
  { destruct data_in as [|[k0 c0] t]; [discriminate|].
    inversion Hshape; subst. assumption. }
  set (data0 := dict_set "utility" (repeat 0%R (frame_len data_in)) data_in).
  assert (Hinv : loop_inv data_in (k * c) data0).
  { split.
    - intros a. unfold data0. rewrite In_dict_keys_set. reflexivity.
    - apply (@dict_set_values _ (fun col : list R => length col = k * c));
        [exact Hshape|]. rewrite repeat_length. exact Hlen. }
  destruct (@calc_utilities_good alts data_in dm (k * c)
              (fun a Ha => proj2 (Hdk a) (or_intror Ha)) Hdl
              pre data0 Hinv Hgood) as (data1 & Hcalc & Hinv1).
  destruct (@loop_inv_column data_in (k * c) data1 "utility" Hinv1
              (or_intror eq_refl)) as (u & Hu & _).
  pose proof (@loop_inv_not_column data_in (k * c) data1 varname Hinv1 Hcol)
    as Hnone.
  unfold asclogit_pred, dict_getitem at 1. rewrite Hid. cbn [bind].
  fold k c. rewrite Hdm. cbn [bind fst snd]. fold data0. rewrite Hps.
  rewrite (@calc_utilities_app (alt_flags alts) dm pre
             ((varname, param) :: post) data0 data1 Hcalc).
  cbn [calc_utilities]. rewrite Hflag. cbn [negb].
  unfold dict_getitem. rewrite Hu, Hnone. reflexivity.
Qed.

(** [asclogit_pred_missing_alt_variable] on a frame without the
    ['time'] column. *)
Lemma asclogit_pred_missing_alt_variable_witness :
  asclogit_pred first_random no_time_frame md_time "group" "max" None
    two_alts tt
  = Raise (KeyError "time").
Proof.
  apply (asclogit_pred_missing_alt_variable unit unit first_random
           no_time_frame md_time "group"%string "max"%string None two_alts
           tt [1%R; 1%R] [] [] "time"%string 2%R eq_refl).
  - discriminate.
  - unfold long_shape. rewrite count_distinct_one_case. repeat constructor.
  - exact two_alts_keys_in_range.
  - reflexivity.
  - constructor.
  - reflexivity.
  - unfold is_column. simpl. intuition discriminate.
Defined.

(** ** [logit_cv]: training and test data *)

(** X27.  No case is used both for testing and for training: a case of
    the hold-out fold has no row in the concatenation of the other
    folds. *)
Theorem cv_train_test_disjoint :
  forall (P G : Type) (rnd : np_random G) (data : lframe P) (nfold : nat)
         (seed : option Z) (g : G) (folds : list (nat * lframe P)) (g' : G),
    shuffle_sound rnd ->
    cv_split rnd data nfold seed g = Ok (folds, g') ->
    forall holdout_idx test train,
      In (holdout_idx, test) folds ->
      pd_concat
        (map snd
             (filter (fun f => negb (Nat.eqb (fst f) holdout_idx)) folds))
      = Ok train ->
      forall c, In c (group_col test) -> ~ In c (group_col train).
Proof.
  intros P G rnd data nfold seed g folds g' Hsh H i test train Htest Htrain
         c Hc Hin.
  unfold cv_split in H. cbv zeta in H.
  apply bind_ok in H. destruct H as (n & _ & H). injection H as <- _.
  set (caseIDs := fst (rand_shuffle rnd (seed_if_given rnd seed g)
                         (sorted_keys (group_col data)))) in *.
  assert (Hnd : NoDup caseIDs).
  { eapply Permutation_NoDup; [apply Hsh | apply sorted_keys_NoDup]. }
  assert (Hi : case_in_fold (cv_data data caseIDs n nfold) i c)
    by (exists test; split; assumption).
  remember (map snd (filter (fun f => negb (Nat.eqb (fst f) i))
                            (cv_data data caseIDs n nfold)))
    as tl eqn:El.
  assert (Ht : train = concat tl).
  { unfold pd_concat in Htrain.
    destruct tl; [discriminate | injection Htrain as <-; reflexivity]. }
  subst train tl.
  unfold group_col in Hin. apply in_map_iff in Hin.
  destruct Hin as (r & Hr & Hin). apply in_concat in Hin.
  destruct Hin as (f & Hf & Hrf). apply in_map_iff in Hf.
  destruct Hf as ([j f'] & Hj & Hf). cbn [snd] in Hj. subst f'.
  apply filter_In in Hf. destruct Hf as [Hf Hne]. cbn [fst] in Hne.
  assert (Hjc : case_in_fold (cv_data data caseIDs n nfold) j c).
  { exists f. split; [exact Hf|]. unfold group_col. apply in_map_iff.
    exists r. split; assumption. }
  pose proof (@cv_data_disjoint P data caseIDs n nfold c i j Hnd Hi Hjc)
    as Hij.
  subst j. rewrite Nat.eqb_refl in Hne. discriminate.
Qed.

(** [cv_train_test_disjoint] on three cases cut into two folds: the
    case of the first fold is not in the training data. *)
Lemma cv_train_test_disjoint_witness :
  exists folds test train,
    cv_split first_random three_cases 2 None tt = Ok (folds, tt) /\
    In (0, test) folds /\
    pd_concat (map snd (filter (fun f => negb (Nat.eqb (fst f) 0)) folds))
    = Ok train /\
    In 1%Z (group_col test) /\
    ~ In 1%Z (group_col train).
Proof.
  eexists. eexists. eexists.
  split; [reflexivity|]. split; [left; reflexivity|].
  split; [reflexivity|]. split; [left; reflexivity|].
  exact (cv_train_test_disjoint unit unit first_random three_cases 2 None
           tt _ tt first_random_shuffle_sound eq_refl 0 _ _
           (or_introl eq_refl) eq_refl 1%Z (or_introl eq_refl)).
Defined.

(** * Properties of the machine model *)

(** ** The clipping *)

Section MachineModel.

Import Floats.

Lemma clip_unclipped (x : float) : Machine.unclipped (Machine.clip x).
Proof.
  unfold Machine.unclipped, Machine.clip, Machine.clip_hi, Machine.clip_lo.
  destruct (700 <? x)%float eqn:Hhi.
  - change ((700 <? -700)%float) with false. cbv iota.
    split; reflexivity.
  - destruct (x <? -700)%float eqn:Hlo.
    + split; reflexivity.
    + split; assumption.
Qed.

Lemma clip_id (x : float) : Machine.unclipped x -> Machine.clip x = x.
Proof.
  intros [Hhi Hlo]. unfold Machine.clip, Machine.clip_hi, Machine.clip_lo.
  rewrite Hhi, Hlo. reflexivity.
Qed.

Lemma length_stabilized_prob {G : Type} (np : Machine.numpy G)
  (v : list float) :
  length (Machine.stabilized_prob np v) = length v.
Proof.
  unfold Machine.stabilized_prob, Machine.softmax, Machine.centre.
  rewrite !length_map. reflexivity.
Qed.


(** ** The machine model: dummies and the utility loop *)

Lemma foldM_add_dummy64 (nalt k : nat) (l : list (Z * string)) :
  Forall (fun kv : Z * string =>
            (- Z.of_nat nalt <= fst kv < Z.of_nat nalt)%Z) l ->
  forall fl dm,
    Forall (fun kc : string * list PrimFloat.float =>
              length (snd kc) = k * nalt) dm ->
    exists dm',
      foldM (Machine.add_dummy nalt k) l (fl, dm)
      = Ok (fl ++ map (fun kv => (" for " ++ snd kv)%string) l, dm') /\
      (forall a, In a (dict_keys dm') <->
                 In a (dict_keys dm) \/ In a (map snd l)) /\
      Forall (fun kc : string * list PrimFloat.float =>
                length (snd kc) = k * nalt) dm'.
Proof.
  induction 1 as [|[idx name] t Hr Ht IH]; intros fl dm Hdm.
  - exists dm. simpl. rewrite app_nil_r. intuition.
  - simpl in Hr.
    destruct (@py_list_set_ok PrimFloat.float
                (repeat 0%float nalt) idx 1%float)
      as (tmp & Htmp & Hlen); [rewrite repeat_length; assumption|].
    rewrite repeat_length in Hlen.
    assert (Hstep : Machine.add_dummy nalt k (fl, dm) (idx, name)
                    = Ok (fl ++ [(" for " ++ name)%string],
                          dict_set name (tile tmp k) dm))
      by (unfold Machine.add_dummy; rewrite Htmp; reflexivity).
    cbn [foldM]. rewrite Hstep. cbn [bind].
    destruct (IH (fl ++ [(" for " ++ name)%string])
                 (dict_set name (tile tmp k) dm)) as (dm' & He & Hk & Hl).
    { apply (@dict_set_values _
               (fun c : list PrimFloat.float => length c = k * nalt));
        [assumption|]. rewrite length_tile, Hlen. reflexivity. }
    exists dm'. split; [|split; [|assumption]].
    + etransitivity; [exact He|].
      rewrite <- app_assoc. reflexivity.
    + intros a. rewrite Hk, In_dict_keys_set. simpl. intuition.
Qed.

Section MachineUtilityLoop.

Variable alts : alts_arg.
Variable data_in : Machine.frame64.
Variable dm : dict (list PrimFloat.float).
Variable n : nat.

Hypothesis dm_keys : forall a, In a (alt_names alts) -> In a (dict_keys dm).
Hypothesis dm_len :
  Forall (fun kc : string * list PrimFloat.float => length (snd kc) = n) dm.

(** What the loop keeps true of the frame it updates. *)
Definition loop_inv64 (data : Machine.frame64) : Prop :=
  (forall a, In a (dict_keys data) <-> Machine.is_column data_in a) /\
  Forall (fun kc : string * list PrimFloat.float => length (snd kc) = n)
         data.

Lemma loop_inv64_column (data : Machine.frame64) (a : string) :
  loop_inv64 data -> Machine.is_column data_in a ->
  exists col, dict_get a data = Some col /\ length col = n.
Proof.
  intros [Hk Hl] Ha. apply Hk in Ha. apply dict_get_In_keys in Ha.
  destruct Ha as [col Hcol]. exists col. split; [assumption|].
  exact (@dict_get_values _
           (fun c : list PrimFloat.float => length c = n) a col data
           Hl Hcol).
Qed.

Lemma loop_inv64_set_utility (data : Machine.frame64)
  (u : list PrimFloat.float) :
  loop_inv64 data -> length u = n ->
  loop_inv64 (dict_set "utility" u data).
Proof.
  intros [Hk Hl] Hu. split.
  - intros a. rewrite In_dict_keys_set, Hk. unfold Machine.is_column. tauto.
  - apply (@dict_set_values _
             (fun c : list PrimFloat.float => length c = n)); assumption.
Qed.

Lemma length_series_add64 (a b : list PrimFloat.float) :
  length a = n -> length b = n -> length (Machine.series_add a b) = n.
Proof.
  intros Ha Hb. unfold Machine.series_add.
  rewrite length_map, length_combine, Ha, Hb. apply Nat.min_id.
Qed.

Lemma series_array64_same (f : PrimFloat.float -> PrimFloat.float ->
                               PrimFloat.float)
  (s a : list PrimFloat.float) :
  length s = n -> length a = n ->
  exists r, Machine.series_array f s a = Ok r /\ length r = n.
Proof.
  intros Hs Ha. unfold Machine.series_array. rewrite Ha, Hs, Nat.eqb_refl.
  eexists. split; [reflexivity|].
  rewrite length_map, length_combine, Ha, Hs. apply Nat.min_id.
Qed.

(** A good parameter is processed and the loop goes on. *)
Lemma calc_utilities64_step (vp : string * PrimFloat.float)
  (ps : list (string * PrimFloat.float)) (data : Machine.frame64) :
  loop_inv64 data -> Machine.good_param alts data_in vp ->
  exists data',
    loop_inv64 data' /\
    Machine.calc_utilities (alt_flags alts) dm (vp :: ps) data
    = Machine.calc_utilities (alt_flags alts) dm ps data'.
Proof.
  intros Hinv Hgood. destruct vp as [varname param].
  destruct (loop_inv64_column data "utility" Hinv) as (u & Hu & Hul);
    [right; reflexivity|].
  cbn [Machine.calc_utilities]. unfold dict_getitem. rewrite Hu.
  cbn [bind].
  destruct Hgood as [[He Hc] | [He (main & alt & Hs & Halt & Hm)]];
    cbn [fst] in *; rewrite He; cbn [negb].
  - destruct (loop_inv64_column data varname Hinv Hc) as (col & Hcol & Hcl).
    rewrite Hcol. cbn [bind]. eexists. split; [|reflexivity].
    apply loop_inv64_set_utility; [assumption|].
    apply length_series_add64; [assumption|]. rewrite length_map.
    assumption.
  - rewrite Hs.
    destruct (proj1 (dict_get_In_keys alt dm) (dm_keys alt Halt))
      as [dummy Hd].
    pose proof (@dict_get_values _
                  (fun c : list PrimFloat.float => length c = n)
                  alt dummy dm dm_len Hd) as Hdl.
    rewrite Hd. cbn [bind].
    destruct (String.eqb_spec main "ASC") as [->|Hne].
    + cbn [bind].
      destruct (series_array64_same PrimFloat.add u
                  (map (fun d => PrimFloat.mul d param) dummy))
        as (r & Hr & Hrl); [assumption | rewrite length_map; assumption|].
      rewrite Hr. cbn [bind]. eexists. split; [|reflexivity].
      apply loop_inv64_set_utility; assumption.
    + destruct Hm as [Hm|Hm]; [contradiction|].
      destruct (loop_inv64_column data main Hinv Hm) as (col & Hcol & Hcl).
      rewrite Hcol. cbn [bind].
      destruct (series_array64_same PrimFloat.mul col dummy)
        as (w & Hw & Hwl); [assumption | assumption|].
      rewrite Hw. cbn [bind]. eexists. split; [|reflexivity].
      apply loop_inv64_set_utility; [assumption|].
      apply length_series_add64; [assumption|]. rewrite length_map.
      assumption.
Qed.

Lemma calc_utilities64_good (ps : list (string * PrimFloat.float))
  (data : Machine.frame64) :
  loop_inv64 data -> Forall (Machine.good_param alts data_in) ps ->
  exists data',
    Machine.calc_utilities (alt_flags alts) dm ps data = Ok (Some data') /\
    loop_inv64 data'.
Proof.
  intros Hinv Hps. revert data Hinv.
  induction Hps as [|vp t Hvp Ht IH]; intros data Hinv.
  - exists data. split; [reflexivity | assumption].
  - destruct (calc_utilities64_step vp t data Hinv Hvp)
      as (data1 & Hinv1 & He).
    rewrite He. apply IH. assumption.
Qed.

End MachineUtilityLoop.

(** ** The machine model: the stabilised softmax *)

(** The order of float64: what is at most [b] is not above [b]. *)
Lemma SFleb_not_ltb (a b : spec_float) :
  SFleb a b = true -> SFltb b a = false.
Proof.
  unfold SFleb, SFltb.
  destruct a as [sa|sa| |sa ma ea], b as [sb|sb| |sb mb eb]; cbn;
    try discriminate; try reflexivity;
    try (destruct sa; try discriminate; try reflexivity);
    try (destruct sb; try discriminate; try reflexivity).
  all: rewrite (Z.compare_antisym ea eb); destruct (ea ?= eb)%Z eqn:E; cbn;
    try discriminate; try reflexivity.
  all: change (PosDef.Pos.compare_cont Eq mb ma) with (Pos.compare mb ma);
    change (PosDef.Pos.compare_cont Eq ma mb) with (Pos.compare ma mb);
    rewrite (Pos.compare_antisym ma mb); destruct (ma ?= mb)%positive; cbn;
    try discriminate; reflexivity.
Qed.

Lemma leb_not_ltb (x y : float) :
  (x <=? y)%float = true -> (y <? x)%float = false.
Proof.
  rewrite leb_spec, ltb_spec. apply SFleb_not_ltb.
Qed.

Lemma within_bounds_unclipped (c : float) :
  Machine.within_bounds c -> Machine.unclipped c.
Proof.
  intros [Hlo Hhi]. split; apply leb_not_ltb; assumption.
Qed.

(** Where the clipping binds nowhere (a NaN is never clipped), the
    stabilised probabilities are the plain softmax of the mean-centred
    utilities. *)
Lemma stabilized_prob_clip_free {G : Type} (np : Machine.numpy G)
  (v : list float) :
  Forall Machine.unclipped (Machine.centre np v) ->
  Machine.stabilized_prob np v = Machine.softmax np (Machine.centre np v).
Proof.
  intros Hv. unfold Machine.stabilized_prob. f_equal.
  rewrite <- (map_id (Machine.centre np v)) at 2.
  apply map_ext_in. intros c Hc.
  rewrite Forall_forall in Hv. exact (clip_id c (Hv c Hc)).
Qed.




(** ** The machine model: the matrix of probabilities *)

Lemma length_set_add (x : float) (s : list float) :
  length s <= length (Machine.set_add x s).
Proof.
  unfold Machine.set_add. destruct (existsb _ s); [lia|].
  rewrite length_app. lia.
Qed.

Lemma length_fold_set_add (col : list float) :
  forall s,
    length s <= length (fold_left (fun s x => Machine.set_add x s) col s).
Proof.
  induction col as [|x t IH]; intros s; cbn [fold_left]; [lia|].
  etransitivity; [apply (length_set_add x s) | apply IH].
Qed.

Lemma count_distinct64_pos (ids : list float) :
  ids <> [] -> 0 < Machine.count_distinct ids.
Proof.
  destruct ids as [|x t]; [congruence|]. intros _.
  unfold Machine.count_distinct. cbn [fold_left].
  change (Machine.set_add x []) with [x].
  pose proof (length_fold_set_add t [x]) as H.
  cbn [length] in H. lia.
Qed.


Lemma one_case64_shape :
  Machine.long_shape Machine.one_case64 [1; 1]%float two_alts.
Proof.
  unfold Machine.long_shape. repeat constructor.
Qed.

Lemma time_param_good :
  Forall (Machine.good_param two_alts Machine.one_case64) Machine.time_param.
Proof.
  constructor; [|constructor]. left. split; [reflexivity|].
  left. simpl. tauto.
Qed.



(** ** The machine model: the upsampler *)

Lemma read_num_new_reads (py : Machine.builtins) (spec : string)
  (count n : nat) (prev : option Z) :
  Machine.reads_as py spec count n ->
  Machine.read_num_new py spec count prev = Ok (Some (Z.of_nat n)).
Proof.
  unfold Machine.reads_as. destruct spec as [|c t]; [discriminate|].
  destruct (Ascii.eqb c "+"%char) eqn:Eplus.
  - apply Ascii.eqb_eq in Eplus. subst c. intros H. exact H.
  - destruct (Ascii.eqb c "*"%char) eqn:Estar.
    + apply Ascii.eqb_eq in Estar. subst c. intros H. exact H.
    + intros H. exfalso.
      destruct c as [b0 b1 b2 b3 b4 b5 b6 b7].
      destruct b0, b1, b2, b3, b4, b5, b6, b7;
        try discriminate H; discriminate.
Qed.

Section MachineUpsampleLoop.

Context {P G : Type}.
Variable py : Machine.builtins.
Variable rnd : np_random G.
Hypothesis rnd_sound : choice_sound rnd.
Variable df : lframe P.

Lemma upsample_alt64_ok (st : up_state P G) (kv : Z * string) :
  Machine.entry_ok py df kv ->
  exists cs num g',
    Machine.upsample_alt py rnd (groupby_group df) st kv
    = Ok (mk_up_state (new_casedata_list st ++ cs) num g') /\
    Machine.entry_added py df kv cs.
Proof.
  destruct kv as [alt_idx spec]. intros (Hidx & n & Hn & Hcount).
  cbn [fst snd] in Hidx, Hn, Hcount.
  unfold Machine.upsample_alt.
  rewrite (filterM_chooses alt_idx (groupby_group df) Hidx). cbn [bind].
  fold (cases_choosing alt_idx df).
  rewrite (read_num_new_reads py spec _ n (num_new st) Hn). cbn [bind].
  assert (Hc : n = 0 \/ length (cases_choosing alt_idx df) <> 0).
  { destruct Hcount as [H | H]; [left; exact H|right].
    destruct (cases_choosing alt_idx df); [congruence | discriminate]. }
  rewrite (np_random_choice_ok rnd (up_gen st) _ n Hc). cbn [bind].
  destruct (rnd_sound (up_gen st) (length (cases_choosing alt_idx df)) n)
    as [Hlen Hlt]; [tauto|].
  destruct (mapM_list_getitem (cases_choosing alt_idx df) _ Hlt)
    as (cs & E & Hcs & Hin).
  rewrite E. cbn [bind]. exists cs. eexists. eexists.
  split; [reflexivity|]. split; cbn [fst snd]; [|exact Hin].
  unfold Machine.reads_as. rewrite Hcs, Hlen. exact Hn.
Qed.

Lemma upsample_loop64_ok (upsample_new : list (Z * string)) :
  Forall (Machine.entry_ok py df) upsample_new ->
  forall st,
  exists added num g',
    foldM (Machine.upsample_alt py rnd (groupby_group df)) upsample_new st
    = Ok (mk_up_state (new_casedata_list st ++ concat added) num g') /\
    Forall2 (Machine.entry_added py df) upsample_new added.
Proof.
  induction 1 as [|kv t Hkv _ IH]; intros st; cbn [foldM].
  - exists [], (num_new st), (up_gen st). cbn [concat].
    rewrite app_nil_r. destruct st; split; [reflexivity | constructor].
  - destruct (upsample_alt64_ok st kv Hkv) as (cs & num & g1 & E & Hcs).
    rewrite E. cbn [bind].
    destruct (IH (mk_up_state (new_casedata_list st ++ cs) num g1))
      as (added & num' & g' & E' & Hadded).
    rewrite E'. cbn [new_casedata_list]. exists (cs :: added), num', g'.
    cbn [concat]. rewrite app_assoc.
    split; [reflexivity | constructor; assumption].
Qed.

End MachineUpsampleLoop.

(** *** Fresh case identifiers in int64 *)

Lemma wrap64_id (z : Z) : Machine.is_int64 z -> Machine.wrap64 z = z.
Proof.
  unfold Machine.is_int64, Machine.int64_min, Machine.int64_max,
    Machine.wrap64.
  intros Hz. rewrite Z.mod_small by lia. lia.
Qed.

(** Within int64 the new identifier is [maxID + idx + 1]. *)
Lemma new_group_exact (maxID : Z) (idx : nat) :
  Machine.is_int64 maxID ->
  (maxID + Z.of_nat idx + 1 <= Machine.int64_max)%Z ->
  Machine.new_group maxID idx = (maxID + Z.of_nat idx + 1)%Z.
Proof.
  unfold Machine.new_group, Machine.int64_add. intros Hm Hle.
  assert (H1 : Machine.is_int64 (maxID + Z.of_nat idx))
    by (unfold Machine.is_int64 in *; lia).
  rewrite (wrap64_id _ H1). apply wrap64_id.
  unfold Machine.is_int64 in *. lia.
Qed.

Lemma fold_left_max_In (t : list Z) :
  forall x, In (fold_left Z.max t x) (x :: t).
Proof.
  induction t as [|y t IH]; intros x; cbn [fold_left]; [left; reflexivity|].
  destruct (IH (Z.max x y)) as [H | H].
  - rewrite <- H.
    destruct (Z.max_spec x y) as [[_ E] | [_ E]]; rewrite E.
    + right. left. reflexivity.
    + left. reflexivity.
  - right. right. exact H.
Qed.

Lemma array_max_In (l : list Z) (m : Z) :
  array_max (sorted_keys l) = Ok m -> In m l.
Proof.
  unfold array_max. destruct (sorted_keys l) as [|x t] eqn:E;
    [discriminate|].
  intros H. injection H as <-. apply In_sorted_keys. rewrite E.
  apply fold_left_max_In.
Qed.

Lemma nth_error_renumber64 {P : Type} (maxID : Z) (l : list (lframe P)) :
  forall i0 idx old,
    nth_error l idx = Some old ->
    nth_error (Machine.renumber maxID i0 l) idx
    = Some (set_group (Machine.new_group maxID (i0 + idx)) old).
Proof.
  induction l as [|d t IH]; intros i0 [|idx] old H; cbn in H;
    try discriminate; cbn [Machine.renumber nth_error].
  - injection H as <-. rewrite Nat.add_0_r. reflexivity.
  - rewrite (IH (S i0) idx old H).
    replace (S i0 + idx) with (i0 + S idx) by lia. reflexivity.
Qed.

Lemma length_renumber64 {P : Type} (maxID : Z) (l : list (lframe P)) :
  forall i0, length (Machine.renumber maxID i0 l) = length l.
Proof.
  induction l as [|d t IH]; intros i0; cbn [Machine.renumber length];
    [reflexivity|]. rewrite IH. reflexivity.
Qed.

(** C8, as the code has it in int64 and float64.  The input frame is not
    empty and its case identifiers are int64 values; every key of
    [upsample_new] indexes a row of every case; every value reads as a
    number [n >= 0] of cases, [int(N)] for ['+N'] and
    [int(count * (float(N) - 1))] for ['*N'], with [count] the number of
    cases choosing the alternative; and [n] is 0 for an alternative that
    no case chooses.  Then the upsampler returns the input rows
    unchanged followed by the rows of the new cases: for each entry, in
    the order of [upsample_new], [n] cases, each a case of the input
    choosing that alternative; the new case at position [idx] is such a
    case with its group set to the int64 [maxID + idx + 1], where [maxID]
    is the largest group of the input.  When [maxID] plus the number of
    new cases is within int64, that group is [maxID + idx + 1] without
    wrapping, above every group of the input. *)
Theorem long_form_data_upsample_int64 :
  forall (P G : Type) (py : Machine.builtins) (rnd : np_random G)
         (df : lframe P) (upsample_new : list (Z * string))
         (seed : option Z) (g : G),
    choice_sound rnd ->
    df <> [] ->
    Forall (fun r => Machine.is_int64 (group r)) df ->
    Forall (Machine.entry_ok py df) upsample_new ->
    exists added new_cases maxID g',
      Machine.long_form_data_upsample py rnd df upsample_new seed g
      = Ok (df ++ concat new_cases, g') /\
      Forall2 (Machine.entry_added py df) upsample_new added /\
      In maxID (group_col df) /\
      Forall (fun r => (group r <= maxID)%Z) df /\
      length new_cases = length (concat added) /\
      (forall idx old,
          nth_error (concat added) idx = Some old ->
          nth_error new_cases idx
          = Some (set_group (Machine.new_group maxID idx) old)) /\
      ((maxID + Z.of_nat (length (concat added)) <= Machine.int64_max)%Z ->
       forall idx,
         idx < length (concat added) ->
         Machine.new_group maxID idx = (maxID + Z.of_nat idx + 1)%Z /\
         Forall (fun r => (group r < Machine.new_group maxID idx)%Z) df).
Proof.
  intros P G py rnd df upsample_new seed g Hrnd Hdf Hids Hentries.
  unfold Machine.long_form_data_upsample. cbv zeta.
  destruct (upsample_loop64_ok py rnd Hrnd df upsample_new Hentries
              (mk_up_state [] None (seed_if_given rnd seed g)))
    as (added & num & g' & E & Hadded).
  rewrite E. cbn [bind new_casedata_list up_gen app].
  destruct (array_max_bound (group_col df)) as (maxID & Em & Hmax).
  { destruct df; [congruence | discriminate]. }
  rewrite Em. cbn [bind].
  assert (Hin : In maxID (group_col df)) by exact (array_max_In _ _ Em).
  assert (Hle : Forall (fun r => (group r <= maxID)%Z) df).
  { unfold group_col in Hmax. rewrite Forall_map in Hmax. exact Hmax. }
  exists added, (Machine.renumber maxID 0 (concat added)), maxID, g'.
  split; [reflexivity|]. split; [exact Hadded|].
  split; [exact Hin|]. split; [exact Hle|].
  split; [apply length_renumber64|].
  split.
  { intros idx old Hold.
    exact (nth_error_renumber64 maxID (concat added) 0 idx old Hold). }
  intros Hfit idx Hidx.
  assert (Hm : Machine.is_int64 maxID).
  { unfold group_col in Hin. apply in_map_iff in Hin.
    destruct Hin as (r & <- & Hr).
    rewrite Forall_forall in Hids. exact (Hids r Hr). }
  assert (Hnew : Machine.new_group maxID idx
                 = (maxID + Z.of_nat idx + 1)%Z)
    by (apply new_group_exact; [exact Hm | lia]).
  split; [exact Hnew|].
  rewrite Hnew. eapply Forall_impl; [|exact Hle].
  intros r Hr. cbn beta in Hr. lia.
Qed.

Lemma commuters_entries64_ok :
  Forall (Machine.entry_ok Machine.plain_literals commuters)
         [(0%Z, "+2"%string); (1%Z, "*2"%string)].
Proof.
  repeat constructor; cbn; try lia.
  - exists 2. split; [reflexivity | right; discriminate].
  - exists 1. split; [vm_compute; reflexivity | right; discriminate].
Qed.

Lemma commuters_int64 :
  Forall (fun r : lrow unit => Machine.is_int64 (group r)) commuters.
Proof.
  repeat constructor; cbn; discriminate.
Qed.

(** [long_form_data_upsample_int64] on two commuters: two copies of the
    first and one of the second are added, numbered 3, 4 and 5. *)
Lemma long_form_data_upsample_int64_witness :
  choice_sound first_random /\
  commuters <> [] /\
  Forall (fun r : lrow unit => Machine.is_int64 (group r)) commuters /\
  Forall (Machine.entry_ok Machine.plain_literals commuters)
         [(0%Z, "+2"%string); (1%Z, "*2"%string)] /\
  exists new_cases g',
    Machine.long_form_data_upsample Machine.plain_literals first_random
      commuters [(0%Z, "+2"%string); (1%Z, "*2"%string)] None tt
    = Ok (commuters ++ concat new_cases, g') /\
    length new_cases = 3.
Proof.
  split; [exact first_random_choice_sound|].
  split; [discriminate|].
  split; [exact commuters_int64|].
  split; [exact commuters_entries64_ok|].
  destruct (long_form_data_upsample_int64 unit unit Machine.plain_literals
              first_random commuters
              [(0%Z, "+2"%string); (1%Z, "*2"%string)] None tt
              first_random_choice_sound
              (fun E => eq_ind commuters
                          (fun l => match l with [] => False | _ => True end)
                          I [] E)
              commuters_int64 commuters_entries64_ok)
    as (added & new_cases & maxID & g' & E & Hadded & _ & _ & Hlen & _).
  exists new_cases, g'. split; [exact E|].
  rewrite Hlen.
  inversion Hadded as [|kv0 cs0 t0 added0 [H0 _] Hrest]; subst.
  inversion Hrest as [|kv1 cs1 t1 added1 [H1 _] Hnil]; subst.
  inversion Hnil; subst.
  assert (R0 : Machine.read_num_new Machine.plain_literals "+2"
                 (length (cases_choosing 0 commuters)) None
               = Ok (Some 2%Z)) by (vm_compute; reflexivity).
  assert (R1 : Machine.read_num_new Machine.plain_literals "*2"
                 (length (cases_choosing 1 commuters)) None
               = Ok (Some 1%Z)) by (vm_compute; reflexivity).
  unfold Machine.reads_as in H0, H1. cbn [fst snd] in H0, H1.
  rewrite R0 in H0. rewrite R1 in H1.
  injection H0 as H0. injection H1 as H1.
  cbn [concat]. rewrite !length_app. cbn [length]. lia.
Defined.

(** C8 as stated fails.  ['+1'] for an alternative that no case chooses
    makes [np.random.choice] raise on the empty list of candidates; a
    key that is no row index of a case raises [IndexError]; an empty
    frame has no largest identifier; ['*0.5'] asks for a negative number
    of cases.  When a frame is returned: for the largest int64 as an
    identifier, the new case gets the smallest int64, below it; and
    ['*1.15'] on twenty cases adds two cases, which makes 22 and not
    23. *)
Lemma long_form_data_upsample_int64_fails :
  Machine.long_form_data_upsample Machine.plain_literals first_random
    one_commuter [(1%Z, "+1"%string)] None tt
  = Raise (ValueError "a cannot be empty unless no samples are taken") /\
  Machine.long_form_data_upsample Machine.plain_literals first_random
    one_commuter [(2%Z, "+0"%string)] None tt
  = Raise IndexError /\
  Machine.long_form_data_upsample Machine.plain_literals first_random
    (@nil (lrow unit)) [] None tt
  = Raise (ValueError "zero-size array to reduction operation maximum") /\
  Machine.long_form_data_upsample Machine.plain_literals first_random
    Machine.crowd [(0%Z, "*0.5"%string)] None tt
  = Raise (ValueError "negative dimensions are not allowed") /\
  Machine.long_form_data_upsample Machine.plain_literals first_random
    Machine.last_id [(0%Z, "+1"%string)] None tt
  = Ok (Machine.last_id
          ++ [mk_lrow Machine.int64_min 1 tt; mk_lrow Machine.int64_min 0 tt],
        tt) /\
  exists out,
    Machine.long_form_data_upsample Machine.plain_literals first_random
      Machine.crowd [(0%Z, "*1.15"%string)] None tt
    = Ok (out, tt) /\
    length (cases_choosing 0 Machine.crowd) = 20 /\
    length (cases_choosing 0 out) = 22.
Proof.
  split; [vm_compute; reflexivity|].
  split; [vm_compute; reflexivity|].
  split; [vm_compute; reflexivity|].
  split; [vm_compute; reflexivity|].
  split; [vm_compute; reflexivity|].
  eexists. split; [vm_compute; reflexivity|].
  split; vm_compute; reflexivity.
Qed.

(** ** The machine model: the utilities in closed form *)

Lemma nth_list_set_one64 (n m j : nat) :
  j < n ->
  nth j (list_set m 1%float (repeat 0%float n)) 0%float
  = if Nat.eqb j m then 1%float else 0%float.
Proof.
  revert m j. induction n as [|n IH]; intros m j Hj; [lia|].
  cbn [repeat]. destruct m as [|m]; destruct j as [|j];
    cbn [list_set nth Nat.eqb]; try reflexivity.
  - apply nth_repeat.
  - apply IH. lia.
Qed.

Lemma nth_zip_with64 (f : float -> float -> float) (a : list float) :
  forall (b : list float) (r : nat),
    length a = length b -> r < length a ->
    nth r (map (fun xy => f (fst xy) (snd xy)) (combine a b)) 0%float
    = f (nth r a 0%float) (nth r b 0%float).
Proof.
  induction a as [|x t IH]; intros [|y b] r Hl Hr; cbn [length] in *;
    try lia.
  destruct r as [|r]; cbn [combine map nth fst snd]; [reflexivity|].
  apply IH; lia.
Qed.

Lemma nth_series_add64 (a b : list float) (r : nat) :
  length a = length b -> r < length a ->
  nth r (Machine.series_add a b) 0%float
  = (nth r a 0 + nth r b 0)%float.
Proof.
  intros Hl Hr. unfold Machine.series_add.
  exact (nth_zip_with64 PrimFloat.add a b r Hl Hr).
Qed.

Lemma nth_scaled64 (p : float) (l : list float) :
  forall r, r < length l ->
    nth r (map (fun x => (x * p)%float) l) 0%float
    = (nth r l 0 * p)%float.
Proof.
  induction l as [|x t IH]; intros [|r] Hr; cbn [length] in Hr;
    cbn [map nth]; try lia; [reflexivity|].
  apply IH. lia.
Qed.

Lemma series_array64_value (f : float -> float -> float)
  (s a : list float) :
  length a = length s ->
  Machine.series_array f s a
  = Ok (map (fun xy => f (fst xy) (snd xy)) (combine s a)).
Proof.
  intros H. unfold Machine.series_array. rewrite H, Nat.eqb_refl.
  reflexivity.
Qed.

Lemma py_list_set_value64 (nalt : nat) (idx : Z) :
  (- Z.of_nat nalt <= idx < Z.of_nat nalt)%Z ->
  py_list_set (repeat 0%float nalt) idx 1%float
  = Ok (list_set (key_position nalt idx) 1%float (repeat 0%float nalt)) /\
  key_position nalt idx < nalt.
Proof.
  intros Hr. unfold py_list_set, key_position. cbv zeta.
  rewrite repeat_length.
  destruct (Z.ltb_spec idx 0).
  - destruct (Z.ltb_spec (idx + Z.of_nat nalt) 0); [lia|].
    destruct (Z.leb_spec (Z.of_nat nalt) (idx + Z.of_nat nalt)); [lia|].
    split; [reflexivity | lia].
  - destruct (Z.ltb_spec idx 0); [lia|].
    destruct (Z.leb_spec (Z.of_nat nalt) idx); [lia|].
    split; [reflexivity | lia].
Qed.

Lemma foldM_add_dummy64_untouched (nalt k : nat) (l : list (Z * string))
  (a : string) :
  ~ In a (map snd l) ->
  forall st fd,
    foldM (Machine.add_dummy nalt k) l st = Ok fd ->
    dict_get a (snd fd) = dict_get a (snd st).
Proof.
  induction l as [|[idx name] t IH]; intros Ha st fd H; cbn [foldM] in H.
  - injection H as <-. reflexivity.
  - apply bind_ok in H. destruct H as (st1 & H1 & H).
    unfold Machine.add_dummy in H1. apply bind_ok in H1.
    destruct H1 as (tmp & _ & H1). injection H1 as <-.
    rewrite (IH (fun Hin => Ha (or_intror Hin)) _ fd H). cbn [snd].
    apply (@dict_get_set_other (list float)). intros E. apply Ha. left.
    exact E.
Qed.

Lemma foldM_add_dummy64_values (nalt k : nat) (l : list (Z * string)) :
  Forall (fun kv : Z * string =>
            (- Z.of_nat nalt <= fst kv < Z.of_nat nalt)%Z) l ->
  NoDup (map snd l) ->
  forall st fd,
    foldM (Machine.add_dummy nalt k) l st = Ok fd ->
    forall kv,
      In kv l ->
      dict_get (snd kv) (snd fd)
      = Some (tile (list_set (key_position nalt (fst kv)) 1%float
                             (repeat 0%float nalt)) k).
Proof.
  induction 1 as [|[idx name] t Hr Ht IH]; intros Hnd st fd H kv Hkv;
    [destruct Hkv|].
  cbn [map] in Hnd. inversion Hnd as [|? ? Hnot Hnd']; subst.
  cbn [foldM] in H. apply bind_ok in H. destruct H as (st1 & H1 & H).
  unfold Machine.add_dummy in H1.
  rewrite (proj1 (py_list_set_value64 nalt idx Hr)) in H1.
  cbn [bind] in H1. injection H1 as <-.
  destruct Hkv as [<- | Hkv].
  - cbn [fst snd].
    rewrite (foldM_add_dummy64_untouched nalt k t name Hnot _ fd H).
    cbn [snd]. apply (@dict_get_set_same (list float)).
  - exact (IH Hnd' _ fd H kv Hkv).
Qed.

Section MachineUtilityValues.

Variable alts : alts_arg.
Variable data_in : Machine.frame64.
Variable dm : dict (list float).
Variable k : nat.

Let c := alts_len alts.
Let n := k * c.

Hypothesis dm_values :
  forall kv, In kv (alts_dict alts) ->
    dict_get (snd kv) dm
    = Some (tile (list_set (key_position c (fst kv)) 1%float
                           (repeat 0%float c)) k).
Hypothesis names_distinct : NoDup (alt_names alts).
Hypothesis in_range : keys_in_range alts.
Hypothesis shape :
  Forall (fun kc : string * list float => length (snd kc) = n) data_in.

(** The dummy of an alternative, as the loop finds it in
    [dummies_dict]. *)
Lemma dummy64_lookup (a : string) :
  In a (alt_names alts) ->
  exists dummy,
    dict_get a dm = Some dummy /\ length dummy = n /\
    forall i j, i < k -> j < c ->
                nth (i * c + j) dummy 0%float = Machine.alt_dummy alts a j.
Proof.
  intros Ha. unfold alt_names in Ha. apply in_map_iff in Ha.
  destruct Ha as (kv & <- & Hkv).
  eexists. split; [exact (dm_values kv Hkv)|].
  assert (Hpos : key_position c (fst kv) < c).
  { pose proof in_range as Hr. unfold keys_in_range in Hr.
    rewrite Forall_forall in Hr.
    exact (proj2 (py_list_set_value64 c (fst kv) (Hr kv Hkv))). }
  assert (Hlen : length (list_set (key_position c (fst kv)) 1%float
                                  (repeat 0%float c)) = c).
  { rewrite length_list_set. apply repeat_length. }
  split.
  - rewrite length_tile, Hlen. reflexivity.
  - intros i j Hi Hj.
    pose proof (nth_tile (list_set (key_position c (fst kv)) 1%float
                                   (repeat 0%float c)) 0%float k i j Hi)
      as Ht.
    rewrite Hlen in Ht. rewrite (Ht Hj).
    rewrite nth_list_set_one64 by exact Hj.
    unfold Machine.alt_dummy.
    rewrite (find_by_name (alts_dict alts) kv names_distinct Hkv).
    reflexivity.
Qed.

(** The loop adds the term of each parameter to the utility of every
    row, in the order of the parameters. *)
Lemma calc_utilities64_values (ps : list (string * float)) :
  Forall (Machine.input_param alts data_in) ps ->
  forall data acc,
    dict_get "utility" data = Some acc ->
    length acc = n ->
    (forall name, name <> "utility"%string ->
                  dict_get name data = dict_get name data_in) ->
    exists data' u,
      Machine.calc_utilities (alt_flags alts) dm ps data = Ok (Some data') /\
      dict_get "utility" data' = Some u /\
      length u = n /\
      forall i j, i < k -> j < c ->
        nth (i * c + j) u 0%float
        = fold_left
            (fun a vp => (a + Machine.utility_term alts data_in vp i j)%float)
            ps (nth (i * c + j) acc 0%float).
Proof.
  induction 1 as [|[varname param] t Hvp Ht IH];
    intros data acc Hu Hacc Hsame.
  - exists data, acc. split; [reflexivity|]. split; [exact Hu|].
    split; [exact Hacc|]. intros i j _ _. reflexivity.
  - assert (Hcol : forall name,
               In name (dict_keys data_in) -> name <> "utility"%string ->
               exists col, dict_get name data = Some col /\
                           length col = n /\
                           Machine.column data_in name = col).
    { intros name Hin Hne.
      destruct (proj1 (@dict_get_In_keys (list float) name data_in) Hin)
        as [col Hc].
      exists col. split; [rewrite (Hsame name Hne); exact Hc|].
      split; [exact (@dict_get_values _
                       (fun c0 : list float => length c0 = n)
                       name col data_in shape Hc)|].
      unfold Machine.column. rewrite Hc. reflexivity. }
    assert (Hnext : forall u1,
               length u1 = n ->
               (forall i j, i < k -> j < c ->
                  nth (i * c + j) u1 0%float
                  = (nth (i * c + j) acc 0
                     + Machine.utility_term alts data_in (varname, param)
                         i j)%float) ->
               exists data' u,
                 Machine.calc_utilities (alt_flags alts) dm t
                   (dict_set "utility" u1 data) = Ok (Some data') /\
                 dict_get "utility" data' = Some u /\
                 length u = n /\
                 forall i j, i < k -> j < c ->
                   nth (i * c + j) u 0%float
                   = fold_left
                       (fun a vp =>
                          (a + Machine.utility_term alts data_in vp i j)%float)
                       ((varname, param) :: t)
                       (nth (i * c + j) acc 0%float)).
    { intros u1 Hl1 Hv1.
      destruct (IH (dict_set "utility" u1 data) u1)
        as (data' & u & E & Hu' & Hlu & Hval).
      - apply (@dict_get_set_same (list float)).
      - exact Hl1.
      - intros name Hne.
        rewrite (@dict_get_set_other (list float))
          by (intros E; apply Hne; symmetry; exact E).
        exact (Hsame name Hne).
      - exists data', u. split; [exact E|]. split; [exact Hu'|].
        split; [exact Hlu|].
        intros i j Hi Hj. rewrite (Hval i j Hi Hj), (Hv1 i j Hi Hj).
        reflexivity. }
    assert (Hidx : forall i j, i < k -> j < c -> i * c + j < n)
      by (intros i j Hi Hj; unfold n; nia).
    cbn [Machine.calc_utilities]. unfold dict_getitem. rewrite Hu.
    destruct Hvp as [(He & Hin & Hne) | (He & main & a & Hs & Ha & Hm)];
      cbn [fst] in *; rewrite He; cbn [negb bind].
    + destruct (Hcol varname Hin Hne) as (col & Hc & Hcl & Hcc).
      rewrite Hc. cbn [bind]. apply Hnext.
      * unfold Machine.series_add.
        rewrite length_map, length_combine, length_map, Hacc, Hcl.
        apply Nat.min_id.
      * intros i j Hi Hj. pose proof (Hidx i j Hi Hj) as Hr.
        rewrite nth_series_add64
          by (rewrite ?length_map, ?Hacc, ?Hcl; (reflexivity || exact Hr)).
        rewrite nth_scaled64 by (rewrite Hcl; exact Hr).
        unfold Machine.utility_term. cbn [fst snd].
        rewrite He. cbn [negb]. fold c. rewrite Hcc. reflexivity.
    + rewrite Hs.
      destruct (dummy64_lookup a Ha) as (dummy & Hd & Hdl & Hdv).
      rewrite Hd. cbn [bind].
      destruct (String.eqb_spec main "ASC") as [->|Hnasc].
      * cbn [bind].
        rewrite series_array64_value by (rewrite length_map, Hdl, Hacc;
                                         reflexivity).
        cbn [bind]. apply Hnext.
        -- rewrite length_map, length_combine, length_map, Hacc, Hdl.
           apply Nat.min_id.
        -- intros i j Hi Hj. pose proof (Hidx i j Hi Hj) as Hr.
           rewrite (nth_zip_with64 PrimFloat.add)
             by (rewrite ?length_map, ?Hacc, ?Hdl; (reflexivity || exact Hr)).
           rewrite nth_scaled64 by (rewrite Hdl; exact Hr).
           rewrite (Hdv i j Hi Hj).
           unfold Machine.utility_term. cbn [fst snd]. rewrite He.
           cbn [negb]. rewrite Hs, String.eqb_refl. reflexivity.
      * destruct Hm as [Hm | [Hmin Hmne]]; [contradiction|].
        destruct (Hcol main Hmin Hmne) as (col & Hc & Hcl & Hcc).
        rewrite Hc. cbn [bind].
        rewrite series_array64_value by (rewrite Hdl, Hcl; reflexivity).
        cbn [bind]. apply Hnext.
        -- unfold Machine.series_add.
           rewrite length_map, length_combine, !length_map, length_combine,
             Hacc, Hcl, Hdl.
           rewrite !Nat.min_id. reflexivity.
        -- intros i j Hi Hj. pose proof (Hidx i j Hi Hj) as Hr.
           rewrite nth_series_add64
             by (rewrite ?length_map, ?length_combine, ?Hacc, ?Hcl, ?Hdl,
                   ?Nat.min_id; (reflexivity || exact Hr)).
           rewrite nth_scaled64
             by (rewrite length_map, length_combine, Hcl, Hdl, Nat.min_id;
                 exact Hr).
           rewrite (nth_zip_with64 PrimFloat.mul)
             by (rewrite ?Hcl, ?Hdl; (reflexivity || exact Hr)).
           rewrite (Hdv i j Hi Hj).
           unfold Machine.utility_term. cbn [fst snd]. rewrite He.
           cbn [negb]. rewrite Hs.
           destruct (String.eqb_spec main "ASC") as [|_]; [contradiction|].
           fold c. rewrite Hcc. reflexivity.
Qed.

End MachineUtilityValues.


Lemma time_asc_params_input :
  Forall (Machine.input_param two_alts Machine.one_case64)
         Machine.time_asc_params.
Proof.
  constructor; [|constructor; [|constructor]].
  - left. split; [reflexivity|]. split; [simpl; tauto | discriminate].
  - right. split; [reflexivity|]. exists "ASC"%string, "walk"%string.
    split; [reflexivity|]. split; [simpl; tauto | left; reflexivity].
Qed.


End MachineModel.
